(** * RoPP: the HTTP request/response adapter and the user facade

    A shallow embedding of [include/request.hpp] (the [Request] class and
    its [Response]) and of the count operations of [RoPP/user.cpp],
    followed by the properties of the natural-language specification
    that can be settled on it.

    Conventions.
    - [std::string] is [string]; [std::vector<uint8_t>] is [list byte].
    - [size_t] and [int] values are integers in [Z] with the conversions
      between them written out ([int_of_size_t], [size_t_of_int]).
    - [std::map<std::string, std::string>] is an association list kept
      in increasing key order, which is the order a range-for visits it.
    - A [std::stringstream] is its unread text and its two state bits.
    - A call that can throw returns an [outcome]; [Undefined] stands for
      behaviour the language leaves undefined, and [OutOfFuel] for a loop
      cut off by the bound of its model, which the totality lemmas show
      is never reached. *)

From Stdlib Require Import ZArith Lia List Ascii String Bool.
From Stdlib Require Import DecimalString.
From Stdlib Require OrderedTypeEx.
From stdpp Require Import gmap strings list.

Local Open Scope Z_scope.

#[local] Arguments String.append !s1 s2 : simpl nomatch.

(** ** Outcomes of calls that may throw *)

Inductive exception : Type :=
| std_invalid_argument
| std_out_of_range
| json_exception (id : Z).

Inductive outcome (A : Type) : Type :=
| Returned (a : A)
| Thrown (e : exception)
| Undefined
| OutOfFuel.

Arguments Returned {A} a.
Arguments Thrown {A} e.
Arguments Undefined {A}.
Arguments OutOfFuel {A}.

Definition bind {A B : Type} (m : outcome A) (k : A -> outcome B) : outcome B :=
  match m with
  | Returned a => k a
  | Thrown e => Thrown e
  | Undefined => Undefined
  | OutOfFuel => OutOfFuel
  end.

Declare Scope outcome_scope.
Delimit Scope outcome_scope with outcome.
Notation "'let*' x ':=' m 'in' k" := (bind m (fun x => k))
  (at level 10, x name, m at level 100, k at level 200) : outcome_scope.
Local Open Scope outcome_scope.

(** ** Characters and text *)

Definition NUL : ascii := ascii_of_nat 0.
Definition HT : ascii := ascii_of_nat 9.
Definition LF : ascii := ascii_of_nat 10.
Definition VT : ascii := ascii_of_nat 11.
Definition FF : ascii := ascii_of_nat 12.
Definition CR : ascii := ascii_of_nat 13.
Definition SP : ascii := " "%char.

Definition CRLF : string := String CR (String LF EmptyString).

(** [std::tolower] in the "C" locale, applied to an [unsigned char]. *)
Definition tolower (c : ascii) : ascii :=
  let n := nat_of_ascii c in
  if ((65 <=? n)%nat && (n <=? 90)%nat)%bool then ascii_of_nat (n + 32) else c.

(** [std::transform(key.begin(), key.end(), key.begin(), tolower)]. *)
Fixpoint transform_tolower (s : string) : string :=
  match s with
  | EmptyString => EmptyString
  | String c s' => String (tolower c) (transform_tolower s')
  end.

(** [const char*] view of a [std::string] as a C function reads it: the
    text up to the first NUL. *)
Fixpoint c_str (s : string) : string :=
  match s with
  | EmptyString => EmptyString
  | String c s' => if Ascii.eqb c NUL then EmptyString else String c (c_str s')
  end.

Fixpoint nul_free (s : string) : bool :=
  match s with
  | EmptyString => true
  | String c s' => negb (Ascii.eqb c NUL) && nul_free s'
  end.

(** [std::string(first, last)] over a byte buffer. *)
Definition string_of_bytes (v : list Byte.byte) : string := string_of_list_byte v.

(** ** Integer types *)

Definition npos : Z := 2 ^ 64 - 1.
Definition INT_MAX : Z := 2 ^ 31 - 1.
Definition INT_MIN : Z := - 2 ^ 31.

(** Conversion [size_t -> int]: the value modulo [2^32], read as signed. *)
Definition int_of_size_t (z : Z) : Z :=
  let m := z mod 2 ^ 32 in
  if m <? 2 ^ 31 then m else m - 2 ^ 32.

(** Conversion [int -> size_t]: the value modulo [2^64]. *)
Definition size_t_of_int (i : Z) : Z := i mod 2 ^ 64.

(** [index + 1] on [int]: signed overflow has no defined behaviour. *)
Definition int_succ (i : Z) : outcome Z :=
  if i <? INT_MAX then Returned (i + 1) else Undefined.

(** ** [std::string] members used by the adapter *)

Module Str.

Definition size (s : string) : Z := Z.of_nat (String.length s).

(** Position of the first [c] in [s], counted from [from]. *)
Fixpoint find_from (c : ascii) (s : string) (from : Z) : Z :=
  match s with
  | EmptyString => npos
  | String a s' => if Ascii.eqb a c then from else find_from c s' (from + 1)
  end.

(** [s.find(c)]. *)
Definition find (s : string) (c : ascii) : Z := find_from c s 0.

(** [s.substr(pos, n)]: throws [std::out_of_range] when [pos > size()]. *)
Definition substr (s : string) (pos n : Z) : outcome string :=
  if size s <? pos then Thrown std_out_of_range
  else Returned (substring (Z.to_nat pos) (Z.to_nat (Z.min n (size s - pos))) s).

End Str.

(** ** [std::stoi]

    [strtol] in base 10 on the text: leading white space is skipped, one
    sign is accepted, then the longest run of digits is read.  No digit
    is [std::invalid_argument]; a value outside [int] is
    [std::out_of_range]. *)

Definition isspace (c : ascii) : bool :=
  Ascii.eqb c SP || Ascii.eqb c HT || Ascii.eqb c LF ||
  Ascii.eqb c VT || Ascii.eqb c FF || Ascii.eqb c CR.

Definition digit_value (c : ascii) : option Z :=
  let n := nat_of_ascii c in
  if ((48 <=? n)%nat && (n <=? 57)%nat)%bool then Some (Z.of_nat n - 48) else None.

Fixpoint skip_space (s : string) : string :=
  match s with
  | String c s' => if isspace c then skip_space s' else s
  | EmptyString => s
  end.

(** Digits read so far give [acc]; [seen] says whether there was one. *)
Fixpoint read_digits (s : string) (acc : Z) (seen : bool) : option Z :=
  match s with
  | String c s' =>
      match digit_value c with
      | Some d => read_digits s' (10 * acc + d) true
      | None => if seen then Some acc else None
      end
  | EmptyString => if seen then Some acc else None
  end.

Definition strtol10 (s : string) : option Z :=
  match skip_space s with
  | String "-" s' => option_map Z.opp (read_digits s' 0 false)
  | String "+" s' => read_digits s' 0 false
  | s' => read_digits s' 0 false
  end.

Definition stoi (s : string) : outcome Z :=
  match strtol10 s with
  | None => Thrown std_invalid_argument
  | Some v =>
      if ((INT_MIN <=? v) && (v <=? INT_MAX))%bool then Returned v
      else Thrown std_out_of_range
  end.

(** [std::to_string] of an unsigned integer. *)
Definition to_string (n : N) : string := NilZero.string_of_uint (N.to_uint n).

(** [std::to_string] of an [int]. *)
Definition to_string_int (i : Z) : string :=
  if i <? 0 then String "-" (to_string (Z.to_N (- i))) else to_string (Z.to_N i).

(** ** [std::map<std::string, std::string>]

    The entries in increasing key order ([std::less<std::string>], that
    is, bytewise lexicographic order). *)

Definition headers_t : Type := list (string * string).
Definition cookies_t : Type := headers_t.

Module StdMap.

(** [m[k] = v]. *)
Fixpoint assign (k v : string) (m : headers_t) : headers_t :=
  match m with
  | [] => [(k, v)]
  | (k', v') :: m' =>
      match String.compare k k' with
      | Lt => (k, v) :: m
      | Eq => (k', v) :: m'
      | Gt => (k', v') :: assign k v m'
      end
  end.

(** [m.erase(k)]. *)
Fixpoint erase (k : string) (m : headers_t) : headers_t :=
  match m with
  | [] => []
  | (k', v') :: m' =>
      match String.compare k k' with
      | Eq => m'
      | _ => (k', v') :: erase k m'
      end
  end.

(** [m.find(k)], giving the mapped value. *)
Fixpoint lookup (k : string) (m : headers_t) : option string :=
  match m with
  | [] => None
  | (k', v') :: m' =>
      match String.compare k k' with
      | Eq => Some v'
      | _ => lookup k m'
      end
  end.

(** Keys strictly increasing: the representation invariant. *)
Fixpoint ordered (m : headers_t) : bool :=
  match m with
  | [] => true
  | (k, _) :: m' =>
      match m' with
      | [] => true
      | (k', _) :: _ =>
          match String.compare k k' with Lt => ordered m' | _ => false end
      end
  end.

End StdMap.

(** ** [std::stringstream] and [std::getline]

    The unread characters and the [eofbit] and [failbit] of the stream
    ([badbit] is never set on a string buffer). *)

Record stringstream : Type := mk_stream
  { rdbuf : string; eofbit : bool; failbit : bool }.

(** [std::stringstream ss(text)]. *)
Definition sstream (text : string) : stringstream :=
  {| rdbuf := text; eofbit := false; failbit := false |}.

Definition good (ss : stringstream) : bool := negb (eofbit ss) && negb (failbit ss).

(** The stream used as a condition: [!fail()]. *)
Definition to_bool (ss : stringstream) : bool := negb (failbit ss).

(** Characters up to the first [delim]; the text after the delimiter when
    there is one, [None] when the end of the buffer was reached. *)
Fixpoint read_until (delim : ascii) (s : string) : string * option string :=
  match s with
  | EmptyString => (EmptyString, None)
  | String c s' =>
      if Ascii.eqb c delim then (EmptyString, Some s')
      else let '(t, r) := read_until delim s' in (String c t, r)
  end.

(** [std::getline(ss, str, delim)].  When the stream is not [good] the
    sentry fails: [failbit] is set and [str] keeps its old content.
    Otherwise [str] is erased and filled up to the delimiter, which is
    extracted and dropped; reaching the end sets [eofbit], and also
    [failbit] when nothing at all was extracted. *)
Definition getline (ss : stringstream) (str : string) (delim : ascii)
  : stringstream * string :=
  if good ss then
    match read_until delim (rdbuf ss) with
    | (t, Some rest) => ({| rdbuf := rest; eofbit := false; failbit := false |}, t)
    | (t, None) =>
        ({| rdbuf := EmptyString; eofbit := true;
            failbit := match t with EmptyString => true | _ => false end |}, t)
    end
  else ({| rdbuf := rdbuf ss; eofbit := eofbit ss; failbit := true |}, str).

(** ** The transport engine (libcurl), as far as the adapter uses it *)

Definition CURLcode : Type := Z.
Definition CURLE_OK : CURLcode := 0.

(** The kind of request an easy handle is set to perform.  The engine
    keeps one selector for it, which starts at GET and which
    [CURLOPT_HTTPGET], [CURLOPT_POST] and [CURLOPT_POSTFIELDS] each
    overwrite. *)
Inductive Curl_HttpReq : Type :=
| HTTPREQ_GET
| HTTPREQ_POST.

(** An easy handle: what the options the adapter installs leave on it. *)
Record CURL : Type := mk_CURL
  { CURLOPT_URL : string;
    CURLOPT_HTTPHEADER : option nat;
    CURLOPT_POSTFIELDSIZE : Z;
    CURLOPT_POSTFIELDS : string;
    httpreq : Curl_HttpReq;
    CURLOPT_CUSTOMREQUEST : option string }.

(** Whether the handle is set to POST, and whether it is set to GET. *)
Definition CURLOPT_POST (h : CURL) : bool :=
  match httpreq h with HTTPREQ_POST => true | HTTPREQ_GET => false end.
Definition CURLOPT_HTTPGET (h : CURL) : bool :=
  match httpreq h with HTTPREQ_GET => true | HTTPREQ_POST => false end.

(** [curl_easy_init()], when the engine has a handle to give. *)
Definition curl_easy_init : CURL :=
  {| CURLOPT_URL := EmptyString; CURLOPT_HTTPHEADER := None;
     CURLOPT_POSTFIELDSIZE := 0; CURLOPT_POSTFIELDS := EmptyString;
     httpreq := HTTPREQ_GET;
     CURLOPT_CUSTOMREQUEST := None |}.

(** Whether [curl_easy_init()] has a handle to give: it returns a fresh
    handle, or the null pointer when the engine cannot create one.  The
    adapter is modelled over both answers. *)
Class EasyInit : Type :=
  { handle_available : bool }.

(** Where a statement names no other engine, the engine has a handle to
    give. *)
#[global] Instance handle_granted : EasyInit :=
  {| handle_available := true |}.

(** What the engine answers to a call on the null handle. *)
Definition CURLE_BAD_FUNCTION_ARGUMENT : CURLcode := 43.

Definition set_URL (v : string) (h : CURL) : CURL :=
  mk_CURL v (CURLOPT_HTTPHEADER h) (CURLOPT_POSTFIELDSIZE h) (CURLOPT_POSTFIELDS h)
    (httpreq h) (CURLOPT_CUSTOMREQUEST h).
Definition set_HTTPHEADER (v : option nat) (h : CURL) : CURL :=
  mk_CURL (CURLOPT_URL h) v (CURLOPT_POSTFIELDSIZE h) (CURLOPT_POSTFIELDS h)
    (httpreq h) (CURLOPT_CUSTOMREQUEST h).
Definition set_POSTFIELDSIZE (v : Z) (h : CURL) : CURL :=
  mk_CURL (CURLOPT_URL h) (CURLOPT_HTTPHEADER h) v (CURLOPT_POSTFIELDS h)
    (httpreq h) (CURLOPT_CUSTOMREQUEST h).
(** [CURLOPT_POSTFIELDS] also sets the handle to POST. *)
Definition set_POSTFIELDS (v : string) (h : CURL) : CURL :=
  mk_CURL (CURLOPT_URL h) (CURLOPT_HTTPHEADER h) (CURLOPT_POSTFIELDSIZE h) v
    HTTPREQ_POST (CURLOPT_CUSTOMREQUEST h).
(** [CURLOPT_POST] and [CURLOPT_HTTPGET], each with the argument 1. *)
Definition set_POST (h : CURL) : CURL :=
  mk_CURL (CURLOPT_URL h) (CURLOPT_HTTPHEADER h) (CURLOPT_POSTFIELDSIZE h)
    (CURLOPT_POSTFIELDS h) HTTPREQ_POST (CURLOPT_CUSTOMREQUEST h).
Definition set_HTTPGET (h : CURL) : CURL :=
  mk_CURL (CURLOPT_URL h) (CURLOPT_HTTPHEADER h) (CURLOPT_POSTFIELDSIZE h)
    (CURLOPT_POSTFIELDS h) HTTPREQ_GET (CURLOPT_CUSTOMREQUEST h).
(** [CURLOPT_CUSTOMREQUEST] replaces the method text of the request
    line and leaves the selector alone. *)
Definition set_CUSTOMREQUEST (v : string) (h : CURL) : CURL :=
  mk_CURL (CURLOPT_URL h) (CURLOPT_HTTPHEADER h) (CURLOPT_POSTFIELDSIZE h)
    (CURLOPT_POSTFIELDS h) (httpreq h) (Some v).

(** What the engine was asked to send by one [curl_easy_perform]: the
    handle's options and the lines of the header list it points to. *)
Record exchange : Type := mk_exchange
  { sent_options : CURL; sent_headers : list string }.

(** The engine's own memory: the live [curl_slist] allocations (an
    address is never handed out twice), the exchanges performed so far,
    oldest first, and the addresses that were freed while no list was
    live at them.  Such a free (a second free of a list, say) has no
    defined behaviour in C; it is recorded here, so that a statement can
    say that none was made. *)
Record libcurl : Type := mk_libcurl
  { slists : gmap nat (list string);
    next_slist : nat;
    performed : list exchange;
    invalid_frees : list nat }.

Definition libcurl_start : libcurl :=
  {| slists := ∅; next_slist := 1%nat; performed := []; invalid_frees := [] |}.

(** [curl_slist_append(list, text)]; [None] is the null list. *)
Definition curl_slist_append (lst : option nat) (text : string) (e : libcurl)
  : option nat * libcurl :=
  match lst with
  | None =>
      (Some (next_slist e),
       mk_libcurl (<[next_slist e := [text]]> (slists e)) (S (next_slist e)) (performed e)
         (invalid_frees e))
  | Some p =>
      (Some p,
       mk_libcurl (alter (fun l => l ++ [text]) p (slists e)) (next_slist e) (performed e)
         (invalid_frees e))
  end.

(** [curl_slist_free_all(list)] on a list that is live, and on an
    address at which none is. *)
Definition curl_slist_free_all (p : nat) (e : libcurl) : libcurl :=
  mk_libcurl (delete p (slists e)) (next_slist e) (performed e)
    match slists e !! p with
    | Some _ => invalid_frees e
    | None => invalid_frees e ++ [p]
    end.

(** What one transfer brings back: the engine's code and the chunks it
    hands to the write callback for the header block and for the body. *)
Record transfer : Type := mk_transfer
  { result : CURLcode;
    header_writes : list (list Byte.byte);
    body_writes : list (list Byte.byte) }.

(** [_m_writeFunction(ptr, size, nmemb, userdata)]: the first [nmemb]
    bytes at [ptr] are pushed onto the vector; [size * nmemb] is
    returned. *)
Definition _m_writeFunction (ptr : list Byte.byte) (size nmemb : Z)
    (userdata : list Byte.byte) : list Byte.byte * Z :=
  (fold_left (fun v b => v ++ [b]) (firstn (Z.to_nat nmemb) ptr) userdata, size * nmemb).

(** The vector after the engine has delivered all its chunks (each with
    [size = 1] and [nmemb] the chunk's length). *)
Definition received (chunks : list (list Byte.byte)) : list Byte.byte :=
  fold_left (fun v chunk => fst (_m_writeFunction chunk 1 (Z.of_nat (length chunk)) v))
    chunks [].

(** [curl_easy_perform(curl)]: the engine reads the header list the
    handle points to (freed memory has no defined content), records the
    exchange and delivers the transfer.  On the null handle ([None]) it
    performs nothing and answers [CURLE_BAD_FUNCTION_ARGUMENT]. *)
Definition curl_easy_perform (curl : option CURL) (t : transfer) (e : libcurl)
  : outcome (libcurl * CURLcode * list Byte.byte * list Byte.byte) :=
  match curl with
  | None => Returned (e, CURLE_BAD_FUNCTION_ARGUMENT, [], [])
  | Some h =>
      let lines :=
        match CURLOPT_HTTPHEADER h with
        | None => Some []
        | Some p => slists e !! p
        end in
      match lines with
      | None => Undefined
      | Some ls =>
          Returned (mk_libcurl (slists e) (next_slist e) (performed e ++ [mk_exchange h ls])
                      (invalid_frees e),
                    result t, received (body_writes t), received (header_writes t))
      end
  end.

(** A transfer that delivers [hdr] and [body] in one chunk each. *)
Definition deliver (code : CURLcode) (hdr body : string) : transfer :=
  {| result := code;
     header_writes := [list_byte_of_string hdr];
     body_writes := [list_byte_of_string body] |}.

(** ** [struct Response] *)

Module Response.

Record t : Type := mk
  { curlCode : CURLcode;
    code : Z;
    message : string;
    data : string;
    rawData : list Byte.byte;
    rawHeaders : list Byte.byte;
    headers : headers_t;
    cookies : cookies_t }.

(** [Response response{}]. *)
Definition empty : t := mk 0 0 EmptyString EmptyString [] [] [] [].

(** [return { curlCode };]: the first member is given, the others are
    value-initialised. *)
Definition only (c : CURLcode) : t := mk c 0 EmptyString EmptyString [] [] [] [].

End Response.

(** ** [class Request] *)

Module Request.

(** The member [curl] has no initialiser: until [initalize] assigns it
    ([curl_assigned]) its value is indeterminate.  Once assigned it is a
    session ([curl] is [Some]) or the null pointer ([curl] is [None]). *)
Record t : Type := mk
  { url : string;
    data : string;
    headers : headers_t;
    cookies : cookies_t;
    curl_headers : option nat;
    curl : option CURL;
    curl_assigned : bool }.

(** The three constructors; [curl] is not set by any of them. *)
Definition new3 (url data : string) (headers : headers_t) : t :=
  mk url data headers [] None None false.
Definition new2 (url data : string) : t := new3 url data [].
Definition new (url : string) : t := new3 url EmptyString [].

Definition with_headers (v : headers_t) (r : t) : t :=
  mk (url r) (data r) v (cookies r) (curl_headers r) (curl r) (curl_assigned r).
Definition with_cookies (v : cookies_t) (r : t) : t :=
  mk (url r) (data r) (headers r) v (curl_headers r) (curl r) (curl_assigned r).
Definition with_curl_headers (v : option nat) (r : t) : t :=
  mk (url r) (data r) (headers r) (cookies r) v (curl r) (curl_assigned r).
Definition with_curl (v : option CURL) (r : t) : t :=
  mk (url r) (data r) (headers r) (cookies r) (curl_headers r) v (curl_assigned r).

(** [curl_easy_setopt(curl, ...)] on the Request's handle; on the null
    handle the engine sets nothing. *)
Definition setopt (f : CURL -> CURL) (r : t) : t :=
  with_curl (option_map f (curl r)) r.

(** [initalize()]: what [curl_easy_init()] answers is stored, a fresh
    session or the null pointer, and [curl != nullptr] is returned. *)
Definition initalize {I : EasyInit} (r : t) : t * Z :=
  let localCurl := if handle_available then Some curl_easy_init else None in
  let r := mk (url r) (data r) (headers r) (cookies r) (curl_headers r) localCurl true in
  (r, match curl r with Some _ => 1 | None => 0 end).

Definition set_url (v : string) (r : t) : t :=
  mk v (data r) (headers r) (cookies r) (curl_headers r) (curl r) (curl_assigned r).
Definition set_data (v : string) (r : t) : t :=
  mk (url r) v (headers r) (cookies r) (curl_headers r) (curl r) (curl_assigned r).
Definition set_header (key value : string) (r : t) : t :=
  with_headers (StdMap.assign key value (headers r)) r.
Definition set_cookie (key value : string) (r : t) : t :=
  with_cookies (StdMap.assign key value (cookies r)) r.
Definition remove_header (key : string) (r : t) : t :=
  with_headers (StdMap.erase key (headers r)) r.
Definition remove_cookie (key : string) (r : t) : t :=
  with_cookies (StdMap.erase key (cookies r)) r.

(** The accessors. *)
Definition get_headers (r : t) : headers_t := headers r.
Definition get_cookies (r : t) : cookies_t := cookies r.
Definition get_url (r : t) : string := url r.
Definition get_data (r : t) : string := data r.

(** The destructor: the header list the Request points to is freed.
    Closing the session leaves the engine's lists and exchanges as they
    are. *)
Definition destroy (r : t) (e : libcurl) : libcurl :=
  match curl_headers r with
  | Some p => curl_slist_free_all p e
  | None => e
  end.

Definition prepareHeaders (r : t) (e : libcurl) : t * libcurl :=
  (* cleanup old headers in case this gets reused *)
  let e := match curl_headers r with
           | Some p => curl_slist_free_all p e
           | None => e
           end in
  (* redefine headers: a local list, starting from NULL *)
  let '(local, e) :=
    fold_left
      (fun '(lst, e) '(key, value) =>
         let header := (key +:+ ": ") +:+ value in
         curl_slist_append lst (c_str header) e)
      (headers r) (None, e) in
  (* prepare cookies *)
  let cookie_header :=
    fold_left
      (fun cookie_header '(key, value) =>
         cookie_header +:+ (((key +:+ "=") +:+ value) +:+ "; "))
      (cookies r) "Cookie: "%string in
  let '(local, e) := curl_slist_append local (c_str cookie_header) e in
  (* save for later cleanup, and set headers *)
  let r := with_curl_headers local r in
  (setopt (set_HTTPHEADER local) r, e).

Definition prepare (r : t) (e : libcurl) : t * libcurl :=
  let r := setopt (set_URL (c_str (url r))) r in
  let '(r, e) := prepareHeaders r e in
  let r := setopt (set_POSTFIELDSIZE (Str.size (data r))) r in
  (setopt (set_POSTFIELDS (data r)) r, e).

(** The inner [while (std::getline(cookieStream, cookie, '='))]. *)
Fixpoint cookie_loop (fuel : nat) (cookieStream : stringstream) (cookie : string)
    (cookies : cookies_t) : option cookies_t :=
  match fuel with
  | O => None
  | S fuel' =>
      let '(cookieStream, cookie) := getline cookieStream cookie "=" in
      if to_bool cookieStream then
        let cookieValue := EmptyString in
        let '(cookieStream, cookieValue) := getline cookieStream cookieValue ";" in
        let cookies := StdMap.assign cookie cookieValue cookies in
        (* skip 1 space *)
        let '(cookieStream, cookieValue) := getline cookieStream cookieValue SP in
        cookie_loop fuel' cookieStream cookie cookies
      else Some cookies
  end.

(** The body of [while (std::getline(ss, line))], on the line read. *)
Definition header_body (line : string) (acc : headers_t * cookies_t)
  : option (headers_t * cookies_t) :=
  let '(response_headers, cookies) := acc in
  let key := EmptyString in
  let value := EmptyString in
  let lineStream := sstream line in
  let '(lineStream, key) := getline lineStream key ":" in
  (* consume 1 space *)
  let '(lineStream, value) := getline lineStream value SP in
  (* get actual value *)
  let '(lineStream, value) := getline lineStream value CR in
  let key := transform_tolower key in
  let parsed :=
    if String.eqb key "set-cookie" then
      (* special handling code *)
      cookie_loop (S (String.length value)) (sstream value) EmptyString cookies
    else Some cookies in
  match parsed with
  | Some cookies => Some (StdMap.assign key value response_headers, cookies)
  | None => None
  end.

Fixpoint header_loop (fuel : nat) (ss : stringstream) (line : string)
    (acc : headers_t * cookies_t) : option (headers_t * cookies_t) :=
  match fuel with
  | O => None
  | S fuel' =>
      let '(ss, line) := getline ss line LF in
      if to_bool ss then
        match header_body line acc with
        | Some acc => header_loop fuel' ss line acc
        | None => None
        end
      else Some acc
  end.

(** [execute()].  The two vectors it installs as write targets come back
    from [curl_easy_perform] filled by [_m_writeFunction]; a Request
    whose [curl] was never assigned has no defined behaviour. *)
Definition execute (r : t) (tr : transfer) (e : libcurl)
  : libcurl * outcome Response.t :=
  match curl r, curl_assigned r with
  | None, false => (e, Undefined)
  | session, _ =>
      match curl_easy_perform session tr e with
      | Returned (e, curlCode, responseData, headerData) =>
          (e,
           if negb (curlCode =? CURLE_OK) then Returned (Response.only curlCode)
           else
             (* read into response data *)
             let data := string_of_bytes responseData in
             let headers := string_of_bytes headerData in
             (* get first line *)
             let ss := sstream headers in
             let '(ss, line) := getline ss EmptyString LF in
             let index := int_of_size_t (Str.find line SP) in
             let* pos := int_succ index in
             let* responsePart := Str.substr line (size_t_of_int pos) npos in
             let index := int_of_size_t (Str.find responsePart SP) in
             let* pos := int_succ index in
             let* message := Str.substr responsePart (size_t_of_int pos) npos in
             let* codeStr := Str.substr responsePart 0 (size_t_of_int index) in
             let* code := stoi codeStr in
             (* parse header string to vector of headers *)
             match header_loop (S (String.length headers)) (sstream headers) line ([], []) with
             | Some (response_headers, cookies) =>
                 Returned (Response.mk curlCode code message data responseData
                             headerData response_headers cookies)
             | None => OutOfFuel
             end)
      | Thrown x => (e, Thrown x)
      | Undefined => (e, Undefined)
      | OutOfFuel => (e, OutOfFuel)
      end
  end.

Definition post (r : t) (tr : transfer) (e : libcurl) : t * (libcurl * outcome Response.t) :=
  let '(r, e) := prepare r e in
  let r := setopt set_POST r in
  (r, execute r tr e).

Definition get (r : t) (tr : transfer) (e : libcurl) : t * (libcurl * outcome Response.t) :=
  let '(r, e) := prepare r e in
  let r := setopt set_HTTPGET r in
  (r, execute r tr e).

Definition request (method : string) (r : t) (tr : transfer) (e : libcurl)
  : t * (libcurl * outcome Response.t) :=
  let '(r, e) := prepare r e in
  let r := setopt (set_CUSTOMREQUEST (c_str method)) r in
  (r, execute r tr e).

End Request.

(** ** [std::string::find] with a word, for the facade *)

Module StrWord.

(** The text without its first [n] characters. *)
Fixpoint drop (n : nat) (s : string) : string :=
  match n, s with
  | O, _ => s
  | S n', String _ s' => drop n' s'
  | S _, EmptyString => EmptyString
  end.

(** First position, counted from [at_], where [word] starts in [s]. *)
Fixpoint search (word s : string) (at_ : Z) : Z :=
  if String.prefix word s then at_
  else match s with
       | EmptyString => npos
       | String _ s' => search word s' (at_ + 1)
       end.

(** [s.find(word, pos)]. *)
Definition find (s word : string) (pos : Z) : Z :=
  if Str.size s <? pos then npos else search word (drop (Z.to_nat pos) s) pos.

End StrWord.

(** ** The JSON library the facade decodes with

    [json::parse], [operator[]] with a key and the conversion to [int]
    belong to a third-party library; the facade is modelled over any
    implementation of them. *)

Class JsonLibrary : Type :=
  { json : Type;
    json_parse : string -> outcome json;
    json_at : json -> string -> outcome json;
    json_int : json -> outcome Z }.

(** The conversion of a document to [std::string], from the same
    library. *)
Class JsonStrings (J : JsonLibrary) : Type :=
  { json_string : json -> outcome string }.

(** ** [RoPP::User]: the count operations *)

Module RoPP.
Module User.

(** Modelled from the spec: the type of [UID] is declared in [ropp.h],
    which the glossary gives as a 64-bit unsigned integer. *)
Definition UID_t : Type := N.

(** [for (pos = data.find(word); pos != npos;
         pos = data.find(word, pos + word.length())) ++count;]
    entered with [pos] already computed. *)
Fixpoint count_loop (fuel : nat) (data word : string) (pos count : Z) : outcome Z :=
  match fuel with
  | O => OutOfFuel
  | S fuel' =>
      if pos =? npos then Returned count
      else if count <? INT_MAX then
        count_loop fuel' data word
          (StrWord.find data word ((pos + Str.size word) mod 2 ^ 64)) (count + 1)
      else Undefined
  end.

(** Every operation calls [initalize] and drops what it returns; the
    operations are modelled over the answer of [curl_easy_init]. *)
Section Facade.

Context {J : JsonLibrary} {I : EasyInit}.

Definition GetFriendsCount (UID : UID_t) (tr : transfer) (e : libcurl)
  : libcurl * outcome Z :=
  let req := Request.new
    (("https://friends.roblox.com/v1/users/" +:+ to_string UID) +:+ "/friends/count") in
  let req := Request.set_header "Referer" "https://www.roblox.com/" req in
  let req := fst (Request.initalize req) in
  let '(req, (e, res)) := Request.get req tr e in
  (Request.destroy req e,
   let* res := res in
   let* doc := json_parse (Response.data res) in
   let* field := json_at doc "count" in
   json_int field).

Definition GetFollowersCount (UID : UID_t) (tr : transfer) (e : libcurl)
  : libcurl * outcome Z :=
  let req := Request.new
    (("https://friends.roblox.com/v1/users/" +:+ to_string UID) +:+ "/followers/count") in
  let req := Request.set_header "Referer" "https://www.roblox.com/" req in
  let req := fst (Request.initalize req) in
  let '(req, (e, res)) := Request.get req tr e in
  (Request.destroy req e,
   let* res := res in
   let* doc := json_parse (Response.data res) in
   let* field := json_at doc "count" in
   json_int field).

Definition GetFollowingsCount (UID : UID_t) (tr : transfer) (e : libcurl)
  : libcurl * outcome Z :=
  let req := Request.new
    (("https://friends.roblox.com/v1/users/" +:+ to_string UID) +:+ "/followings/count") in
  let req := Request.set_header "Referer" "https://www.roblox.com/" req in
  let req := fst (Request.initalize req) in
  let '(req, (e, res)) := Request.get req tr e in
  (Request.destroy req e,
   let* res := res in
   let* doc := json_parse (Response.data res) in
   let* field := json_at doc "count" in
   json_int field).

End Facade.

Definition GetGroupsCount {I : EasyInit} (UID : UID_t) (tr : transfer) (e : libcurl)
  : libcurl * outcome Z :=
  let req := Request.new
    (("https://groups.roblox.com/v1/users/" +:+ to_string UID) +:+ "/groups/roles") in
  let req := Request.set_header "Referer" "https://www.roblox.com/" req in
  let req := fst (Request.initalize req) in
  let '(req, (e, res)) := Request.get req tr e in
  (Request.destroy req e,
   let* res := res in
   (* Count the number of groups by counting the occurences of "group" *)
   let word := "group"%string in
   let count := 0 in
   count_loop (S (String.length (Response.data res))) (Response.data res) word
     (StrWord.find (Response.data res) word 0) count).

(** The operations that return a document or a text field. *)
Section FacadeDocuments.

Context {J : JsonLibrary} {T : JsonStrings J} {I : EasyInit}.

Definition GetFriends (UID : UID_t) (Sort : string) (tr : transfer) (e : libcurl)
  : libcurl * outcome json :=
  let req := Request.new
    ((("https://friends.roblox.com/v1/users/" +:+ to_string UID) +:+ "/friends?userSort=")
     +:+ Sort) in
  let req := Request.set_header "Referer" "https://www.roblox.com/" req in
  let req := fst (Request.initalize req) in
  let '(req, (e, res)) := Request.get req tr e in
  (Request.destroy req e,
   let* res := res in
   json_parse (Response.data res)).

Definition GetFollowers (UID : UID_t) (Sort : string) (Limit : Z) (tr : transfer)
    (e : libcurl) : libcurl * outcome json :=
  let req := Request.new
    ((((("https://friends.roblox.com/v1/users/" +:+ to_string UID)
        +:+ "/followers?sortOrder=") +:+ Sort) +:+ "&limit=") +:+ to_string_int Limit) in
  let req := Request.set_header "Referer" "https://www.roblox.com/" req in
  let req := fst (Request.initalize req) in
  let '(req, (e, res)) := Request.get req tr e in
  (Request.destroy req e,
   let* res := res in
   json_parse (Response.data res)).

Definition GetFollowings (UID : UID_t) (Sort : string) (Limit : Z) (tr : transfer)
    (e : libcurl) : libcurl * outcome json :=
  let req := Request.new
    ((((("https://friends.roblox.com/v1/users/" +:+ to_string UID)
        +:+ "/followings?sortOrder=") +:+ Sort) +:+ "&limit=") +:+ to_string_int Limit) in
  let req := Request.set_header "Referer" "https://www.roblox.com/" req in
  let req := fst (Request.initalize req) in
  let '(req, (e, res)) := Request.get req tr e in
  (Request.destroy req e,
   let* res := res in
   json_parse (Response.data res)).

Definition GetFriendsOnline (UID : UID_t) (tr : transfer) (e : libcurl)
  : libcurl * outcome json :=
  let req := Request.new
    (("https://friends.roblox.com/v1/users/" +:+ to_string UID) +:+ "/friends/online") in
  let req := Request.set_header "Referer" "https://www.roblox.com/" req in
  let req := fst (Request.initalize req) in
  let '(req, (e, res)) := Request.get req tr e in
  (Request.destroy req e,
   let* res := res in
   json_parse (Response.data res)).

Definition GetUsername (UID : UID_t) (tr : transfer) (e : libcurl)
  : libcurl * outcome string :=
  let req := Request.new ("https://users.roblox.com/v1/users/" +:+ to_string UID) in
  let req := Request.set_header "Referer" "https://www.roblox.com/" req in
  let req := fst (Request.initalize req) in
  let '(req, (e, res)) := Request.get req tr e in
  (Request.destroy req e,
   let* res := res in
   let* doc := json_parse (Response.data res) in
   let* field := json_at doc "name" in
   json_string field).

Definition GetDisplayName (UID : UID_t) (tr : transfer) (e : libcurl)
  : libcurl * outcome string :=
  let req := Request.new ("https://users.roblox.com/v1/users/" +:+ to_string UID) in
  let req := Request.set_header "Referer" "https://www.roblox.com/" req in
  let req := fst (Request.initalize req) in
  let '(req, (e, res)) := Request.get req tr e in
  (Request.destroy req e,
   let* res := res in
   let* doc := json_parse (Response.data res) in
   let* field := json_at doc "displayName" in
   json_string field).

Definition GetDescription (UID : UID_t) (tr : transfer) (e : libcurl)
  : libcurl * outcome string :=
  let req := Request.new ("https://users.roblox.com/v1/users/" +:+ to_string UID) in
  let req := Request.set_header "Referer" "https://www.roblox.com/" req in
  let req := fst (Request.initalize req) in
  let '(req, (e, res)) := Request.get req tr e in
  (Request.destroy req e,
   let* res := res in
   let* doc := json_parse (Response.data res) in
   let* field := json_at doc "description" in
   json_string field).

Definition GetGroups (UID : UID_t) (tr : transfer) (e : libcurl)
  : libcurl * outcome json :=
  let req := Request.new
    (("https://groups.roblox.com/v1/users/" +:+ to_string UID) +:+ "/groups/roles") in
  let req := Request.set_header "Referer" "https://www.roblox.com/" req in
  let req := fst (Request.initalize req) in
  let '(req, (e, res)) := Request.get req tr e in
  (Request.destroy req e,
   let* res := res in
   json_parse (Response.data res)).

End FacadeDocuments.

End User.
End RoPP.

(** * Vocabulary of the statements

    Names for what the properties below talk about: the lines of a
    dispatch, the pieces of a header block, the entries a line or a
    cookie value stands for, and the count the facade is compared with. *)

(** The text of the synthetic cookie header. *)
Definition cookie_text (cookies : cookies_t) : string :=
  "Cookie: " +:+ fold_right String.append "" (map (fun kv => fst kv +:+ "=" +:+ snd kv +:+ "; ") cookies).

(** The lines a dispatch hands to the engine, as C strings. *)
Definition header_lines (headers : headers_t) (cookies : cookies_t) : list string :=
  map (fun kv => c_str (fst kv +:+ ": " +:+ snd kv)) headers ++ [c_str (cookie_text cookies)].

(** The engine's lists once the Request's previous one is released. *)
Definition released (r : Request.t) (m : gmap nat (list string)) : gmap nat (list string) :=
  match Request.curl_headers r with
  | Some q => delete q m
  | None => m
  end.

(** The handle once [prepare] has installed its options. *)
Definition prepared_handle (r : Request.t) (p : nat) (h : CURL) : CURL :=
  mk_CURL (c_str (Request.url r)) (Some p) (Str.size (Request.data r)) (Request.data r)
    HTTPREQ_POST (CURLOPT_CUSTOMREQUEST h).

(** The invalid frees once the Request's previous list is released:
    one more when that list was not live. *)
Definition released_frees (r : Request.t) (e : libcurl) : list nat :=
  match Request.curl_headers r with
  | Some q =>
      match slists e !! q with
      | Some _ => invalid_frees e
      | None => invalid_frees e ++ [q]
      end
  | None => invalid_frees e
  end.

(** The engine after [prepare]: the Request's old list is gone and the
    new one sits at the address handed out next. *)
Definition prepared_engine (r : Request.t) (e : libcurl) : libcurl :=
  mk_libcurl
    (<[next_slist e := header_lines (Request.headers r) (Request.cookies r)]>
       (released r (slists e)))
    (S (next_slist e)) (performed e) (released_frees r e).

(** What [execute] makes of a transfer, read off a Request that has a
    session and no header list. *)
Definition received_response (tr : transfer) : outcome Response.t :=
  snd (Request.execute (fst (Request.initalize (Request.new ""))) tr libcurl_start).

(** The three dispatchers behind one name, and the setters a caller may
    use between two dispatches. *)
Inductive verb : Type :=
| GET
| POST
| CUSTOM (method : string).

Definition dispatch (v : verb) (r : Request.t) (tr : transfer) (e : libcurl)
  : Request.t * (libcurl * outcome Response.t) :=
  match v with
  | GET => Request.get r tr e
  | POST => Request.post r tr e
  | CUSTOM method => Request.request method r tr e
  end.

Definition verb_option (v : verb) : CURL -> CURL :=
  match v with
  | GET => set_HTTPGET
  | POST => set_POST
  | CUSTOM method => set_CUSTOMREQUEST (c_str method)
  end.

Inductive mutation : Type :=
| SetUrl (url : string)
| SetData (data : string)
| SetHeader (key value : string)
| SetCookie (key value : string)
| RemoveHeader (key : string)
| RemoveCookie (key : string).

Definition mutate (m : mutation) (r : Request.t) : Request.t :=
  match m with
  | SetUrl url => Request.set_url url r
  | SetData data => Request.set_data data r
  | SetHeader key value => Request.set_header key value r
  | SetCookie key value => Request.set_cookie key value r
  | RemoveHeader key => Request.remove_header key r
  | RemoveCookie key => Request.remove_cookie key r
  end.

Definition mutations (ms : list mutation) (r : Request.t) : Request.t :=
  fold_left (fun r m => mutate m r) ms r.

(** The header lists the engine was handed, one per exchange. *)
Definition emitted (e : libcurl) : list (list string) := map sent_headers (performed e).

(** No NUL byte in any key or value of the map. *)
Definition map_nul_free (m : headers_t) : bool :=
  forallb (fun kv => nul_free (fst kv) && nul_free (snd kv)) m.

(** Whether the character [c] occurs in [s]. *)
Fixpoint occurs (c : ascii) (s : string) : bool :=
  match s with
  | EmptyString => false
  | String a s' => Ascii.eqb a c || occurs c s'
  end.

(** What is left to read: nothing once the stream is not [good]. *)
Definition unread (ss : stringstream) : nat :=
  if good ss then String.length (rdbuf ss) else 0%nat.

(** The pieces [execute] cuts the header block into. *)
Definition first_line (block : string) : string := fst (read_until LF block).

(** The text after the first space, or all of it when there is none. *)
Definition after_space (s : string) : string :=
  match read_until SP s with
  | (_, Some rest) => rest
  | (_, None) => s
  end.

(** The text before the first space, or all of it when there is none. *)
Definition before_space (s : string) : string := fst (read_until SP s).

(** The text handed to [std::stoi]. *)
Definition status_token (block : string) : string :=
  before_space (after_space (first_line block)).

(** The header block and the body a transfer delivered, as text. *)
Definition header_block (tr : transfer) : string :=
  string_of_bytes (received (header_writes tr)).
Definition body_text (tr : transfer) : string :=
  string_of_bytes (received (body_writes tr)).

(** The maps the header loop of [execute] builds from a block. *)
Definition parsed_maps (block : string) : headers_t * cookies_t :=
  match Request.header_loop (S (String.length block)) (sstream block)
          (first_line block) ([], []) with
  | Some maps => maps
  | None => ([], [])
  end.

(** The Request the examples dispatch. *)
Definition sample_request : Request.t :=
  fst (Request.initalize (Request.new "https://example.org/")).

(** The headers part of what the loop body makes of a line. *)
Definition line_headers (line : string) (hs : headers_t) (cs : cookies_t)
  : option headers_t :=
  option_map fst (Request.header_body line (hs, cs)).

(** How a [Set-Cookie] value ends: after the last ["; "], with a last
    pair that has no [';'] behind it, or with a bare attribute. *)
Inductive cookie_end : Type :=
| EndNothing
| EndPair (key value : string)
| EndFlag (key : string).

Definition end_text (en : cookie_end) : string :=
  match en with
  | EndNothing => ""
  | EndPair key value => key +:+ String "=" value
  | EndFlag key => key
  end.

Definition end_pairs (en : cookie_end) : list (string * string) :=
  match en with
  | EndNothing => []
  | EndPair key value => [(key, value)]
  | EndFlag key => [(key, "")]
  end.

(** The value ["k1=v1; k2=v2; ... end"]. *)
Definition cookie_value (ps : list (string * string)) (en : cookie_end) : string :=
  fold_right
    (fun kv rest => fst kv +:+ String "=" (snd kv +:+ String ";" (String SP rest)))
    (end_text en) ps.

(** Keys are free of ['='] and values of [';']; a bare attribute is not
    empty. *)
Definition pair_ok (kv : string * string) : bool :=
  negb (occurs "=" (fst kv)) && negb (occurs ";" (snd kv)).

Definition end_ok (en : cookie_end) : bool :=
  match en with
  | EndNothing => true
  | EndPair key value => pair_ok (key, value)
  | EndFlag key =>
      negb (occurs "=" key) && match key with EmptyString => false | _ => true end
  end.

(** [cookies[k] = v] for each pair in turn. *)
Definition record_all (ps : list (string * string)) (cookies : cookies_t) : cookies_t :=
  fold_left (fun m kv => StdMap.assign (fst kv) (snd kv) m) ps cookies.

(** The lines [std::getline] yields from a text: the pieces between line
    feeds, without a last empty piece. *)
Fixpoint lines (s : string) : list string :=
  match s with
  | EmptyString => []
  | String c s' =>
      if Ascii.eqb c LF then EmptyString :: lines s'
      else match lines s' with
           | [] => [String c EmptyString]
           | l :: ls => String c l :: ls
           end
  end.

(** The name before the first [':'] of a line (the whole line when it
    has none). *)
Definition name_of (line : string) : string := fst (read_until ":" line).

(** The entry the loop body records for a line. *)
Definition line_entry (line : string) : string * string :=
  let '(ss1, key) := getline (sstream line) "" ":" in
  let '(ss2, v0) := getline ss1 "" SP in
  let '(ss3, value) := getline ss2 v0 CR in
  (transform_tolower key, value).

(** The loop body, which always yields a result. *)
Definition header_step (acc : headers_t * cookies_t) (line : string)
  : headers_t * cookies_t :=
  match Request.header_body line acc with
  | Some acc' => acc'
  | None => acc
  end.

(** The headers map built from a list of lines. *)
Definition headers_of_lines (ls : list string) (hs : headers_t) : headers_t :=
  fold_left (fun m l => StdMap.assign (fst (line_entry l)) (snd (line_entry l)) m) ls hs.

(** The number of non-overlapping occurrences of [word] in [s], read
    from the left: after a match the scan resumes behind it ([skip]
    counts the characters of the match still to be passed). *)
Fixpoint occurrences_from (word : string) (skip : nat) (s : string) : nat :=
  match s with
  | EmptyString => 0
  | String _ s' =>
      match skip with
      | S k => occurrences_from word k s'
      | O =>
          if String.prefix word s
          then S (occurrences_from word (String.length word - 1) s')
          else occurrences_from word 0 s'
      end
  end.

Definition occurrences (word s : string) : nat := occurrences_from word 0 s.

(** The Request every facade operation builds for its URL. *)
Definition facade_request {I : EasyInit} (url : string) : Request.t :=
  fst (Request.initalize
         (Request.set_header "Referer" "https://www.roblox.com/" (Request.new url))).

(** [s] between double quotes. *)
Definition quoted (s : string) : string :=
  String (ascii_of_nat 34) (s +:+ String (ascii_of_nat 34) EmptyString).

(** A body with one entry in its [data] array, whose name happens to
    contain the word: the count is 2. *)
Definition one_group_body : string :=
  "{" +:+ quoted "data" +:+ ":[{" +:+ quoted "group" +:+ ":{" +:+ quoted "id" +:+ ":7,"
  +:+ quoted "name" +:+ ":" +:+ quoted "Chess groupies" +:+ "}}]}".

(** A decoder that understands only documents of the form
    [{"count":N}]; anything else is a parse error (id 101). *)
Definition count_document (body : string) : outcome Z :=
  let opening := "{" +:+ quoted "count" +:+ ":" in
  if String.prefix opening body then
    match read_digits (StrWord.drop (String.length opening) body) 0 false with
    | Some n =>
        if String.eqb body (opening +:+ to_string (Z.to_N n) +:+ "}")
        then Returned n else Thrown (json_exception 101)
    | None => Thrown (json_exception 101)
    end
  else Thrown (json_exception 101).

Definition count_only_json : JsonLibrary :=
  {| json := Z;
     json_parse := count_document;
     json_at := fun doc key =>
       if String.eqb key "count" then Returned doc else Thrown (json_exception 305);
     json_int := fun doc => Returned doc |}.

(** [json::parse(body)["count"]], converted to [int]. *)
Definition decode_count {J : JsonLibrary} (body : string) : outcome Z :=
  let* doc := json_parse body in
  let* field := json_at doc "count" in
  json_int field.

(** An uppercase letter of the "C" locale, and a text that has one. *)
Definition is_upper (c : ascii) : bool :=
  let n := nat_of_ascii c in ((65 <=? n)%nat && (n <=? 90)%nat)%bool.

Fixpoint has_upper (s : string) : bool :=
  match s with
  | EmptyString => false
  | String c s' => is_upper c || has_upper s'
  end.

(** What a caller does with a Request between its construction and its
    destruction: a setter call or a dispatch. *)
Inductive step : Type :=
| Mutate (m : mutation)
| Dispatch (v : verb) (tr : transfer).

Definition run_step (s : step) (re : Request.t * libcurl) : Request.t * libcurl :=
  match s with
  | Mutate m => (mutate m (fst re), snd re)
  | Dispatch v tr =>
      let d := dispatch v (fst re) tr (snd re) in (fst d, fst (snd d))
  end.

Definition run (steps : list step) (re : Request.t * libcurl) : Request.t * libcurl :=
  fold_left (fun re s => run_step s re) steps re.

(** Every live header list of the engine sits below the address it
    hands out next. *)
Definition fresh_lists (e : libcurl) : Prop :=
  forall p, is_Some (slists e !! p) -> (p < next_slist e)%nat.

(** A run of decimal digits, as text and as a number. *)
Definition digit_char (d : nat) : ascii := ascii_of_nat (48 + d).

Definition decimal_text (ds : list nat) : string :=
  fold_right (fun d s => String (digit_char d) s) EmptyString ds.

Definition decimal_value (ds : list nat) : Z :=
  fold_left (fun acc d => 10 * acc + Z.of_nat d) ds 0.

(** The text conversion that goes with [count_only_json]: its documents
    are numbers, so the conversion is a type error (id 302). *)
Definition count_only_strings : JsonStrings count_only_json :=
  {| json_string := fun _ => Thrown (json_exception 302) |}.

(** A completed transfer delivered in two header chunks and two body
    chunks. *)
Definition two_chunk_transfer : transfer :=
  {| result := CURLE_OK;
     header_writes := [list_byte_of_string ("HTTP/1.1 200 OK" +:+ CRLF);
                       list_byte_of_string CRLF];
     body_writes := [list_byte_of_string "{"; list_byte_of_string "}"] |}.

(** The Request owns at most one list of the engine: over the lists
    [base] and the invalid frees [faults] that were there before it, the
    engine holds just the list the Request points to, which is live,
    and no invalid free has been added. *)
Definition owns_over (base : gmap nat (list string)) (faults : list nat)
    (r : Request.t) (e : libcurl) : Prop :=
  (forall p, is_Some (base !! p) -> (p < next_slist e)%nat) /\
  Request.curl r <> None /\
  invalid_frees e = faults /\
  match Request.curl_headers r with
  | None => slists e = base
  | Some p =>
      (p < next_slist e)%nat /\ base !! p = None /\
      exists ls, slists e = <[p := ls]> base
  end.

(** A text that does not go on with a digit. *)
Definition no_leading_digit (s : string) : bool :=
  match s with
  | EmptyString => true
  | String c _ => match digit_value c with Some _ => false | None => true end
  end.

(** The operations of the facade under one name, with the parameters
    each takes besides the user id. *)
Inductive operation : Type :=
| OpFriends (Sort : string)
| OpFollowers (Sort : string) (Limit : Z)
| OpFollowings (Sort : string) (Limit : Z)
| OpFriendsCount
| OpFollowersCount
| OpFollowingsCount
| OpFriendsOnline
| OpUsername
| OpDisplayName
| OpDescription
| OpGroups
| OpGroupsCount.

(** What an operation returns: a document, a number or a text. *)
Inductive facade_value {J : JsonLibrary} : Type :=
| DocValue (doc : json)
| IntValue (n : Z)
| TextValue (s : string).

Definition lift {A B : Type} (f : A -> B) (o : outcome A) : outcome B :=
  let* a := o in Returned (f a).

Definition run_operation {J : JsonLibrary} {T : JsonStrings J} {I : EasyInit}
    (UID : RoPP.User.UID_t)
    (op : operation) (tr : transfer) (e : libcurl) : libcurl * outcome facade_value :=
  match op with
  | OpFriends Sort =>
      let re := RoPP.User.GetFriends UID Sort tr e in (fst re, lift DocValue (snd re))
  | OpFollowers Sort Limit =>
      let re := RoPP.User.GetFollowers UID Sort Limit tr e in
      (fst re, lift DocValue (snd re))
  | OpFollowings Sort Limit =>
      let re := RoPP.User.GetFollowings UID Sort Limit tr e in
      (fst re, lift DocValue (snd re))
  | OpFriendsCount =>
      let re := RoPP.User.GetFriendsCount UID tr e in (fst re, lift IntValue (snd re))
  | OpFollowersCount =>
      let re := RoPP.User.GetFollowersCount UID tr e in (fst re, lift IntValue (snd re))
  | OpFollowingsCount =>
      let re := RoPP.User.GetFollowingsCount UID tr e in (fst re, lift IntValue (snd re))
  | OpFriendsOnline =>
      let re := RoPP.User.GetFriendsOnline UID tr e in (fst re, lift DocValue (snd re))
  | OpUsername =>
      let re := RoPP.User.GetUsername UID tr e in (fst re, lift TextValue (snd re))
  | OpDisplayName =>
      let re := RoPP.User.GetDisplayName UID tr e in (fst re, lift TextValue (snd re))
  | OpDescription =>
      let re := RoPP.User.GetDescription UID tr e in (fst re, lift TextValue (snd re))
  | OpGroups =>
      let re := RoPP.User.GetGroups UID tr e in (fst re, lift DocValue (snd re))
  | OpGroupsCount =>
      let re := RoPP.User.GetGroupsCount UID tr e in (fst re, lift IntValue (snd re))
  end.

(** The URL of an operation. *)
Definition operation_url (UID : RoPP.User.UID_t) (op : operation) : string :=
  match op with
  | OpFriends Sort =>
      "https://friends.roblox.com/v1/users/" +:+ to_string UID +:+ "/friends?userSort="
      +:+ Sort
  | OpFollowers Sort Limit =>
      "https://friends.roblox.com/v1/users/" +:+ to_string UID +:+ "/followers?sortOrder="
      +:+ Sort +:+ "&limit=" +:+ to_string_int Limit
  | OpFollowings Sort Limit =>
      "https://friends.roblox.com/v1/users/" +:+ to_string UID +:+ "/followings?sortOrder="
      +:+ Sort +:+ "&limit=" +:+ to_string_int Limit
  | OpFriendsCount =>
      "https://friends.roblox.com/v1/users/" +:+ to_string UID +:+ "/friends/count"
  | OpFollowersCount =>
      "https://friends.roblox.com/v1/users/" +:+ to_string UID +:+ "/followers/count"
  | OpFollowingsCount =>
      "https://friends.roblox.com/v1/users/" +:+ to_string UID +:+ "/followings/count"
  | OpFriendsOnline =>
      "https://friends.roblox.com/v1/users/" +:+ to_string UID +:+ "/friends/online"
  | OpUsername | OpDisplayName | OpDescription =>
      "https://users.roblox.com/v1/users/" +:+ to_string UID
  | OpGroups | OpGroupsCount =>
      "https://groups.roblox.com/v1/users/" +:+ to_string UID +:+ "/groups/roles"
  end.

(** The caller-supplied text that goes into the URL of an operation. *)
Definition operation_sort (op : operation) : string :=
  match op with
  | OpFriends Sort | OpFollowers Sort _ | OpFollowings Sort _ => Sort
  | _ => EmptyString
  end.

(** What an operation makes of a body text. *)
Definition decode_operation {J : JsonLibrary} {T : JsonStrings J} (op : operation)
    (body : string) : outcome facade_value :=
  match op with
  | OpFriends _ | OpFollowers _ _ | OpFollowings _ _ | OpFriendsOnline | OpGroups =>
      lift DocValue (json_parse body)
  | OpFriendsCount | OpFollowersCount | OpFollowingsCount =>
      lift IntValue (decode_count body)
  | OpUsername =>
      lift TextValue
        (let* doc := json_parse body in let* field := json_at doc "name" in
         json_string field)
  | OpDisplayName =>
      lift TextValue
        (let* doc := json_parse body in let* field := json_at doc "displayName" in
         json_string field)
  | OpDescription =>
      lift TextValue
        (let* doc := json_parse body in let* field := json_at doc "description" in
         json_string field)
  | OpGroupsCount =>
      lift IntValue
        (RoPP.User.count_loop (S (String.length body)) body "group"
           (StrWord.find body "group" 0) 0)
  end.

(** The exchange a facade operation performs for [url] when it has a
    session and its header list is allocated at [p]. *)
Definition facade_exchange (url : string) (p : nat) : exchange :=
  mk_exchange (set_HTTPGET (prepared_handle (facade_request url) p curl_easy_init))
    (header_lines [("Referer", "https://www.roblox.com/")] []).

(** The engine a facade operation leaves behind: its header list was
    allocated and freed again, and its one exchange was performed when
    the engine had a handle to give. *)
Definition facade_engine {I : EasyInit} (url : string) (e : libcurl) : libcurl :=
  mk_libcurl
    (delete (next_slist e)
       (<[next_slist e := header_lines [("Referer", "https://www.roblox.com/")] []]>
          (slists e)))
    (S (next_slist e))
    (if handle_available then performed e ++ [facade_exchange url (next_slist e)]
     else performed e)
    (invalid_frees e).

(** The Response a facade operation works on: the one read off the
    transfer when it has a session, and the answer to a call on the null
    handle when it has none. *)
Definition facade_response {I : EasyInit} (tr : transfer) : outcome Response.t :=
  if handle_available then received_response tr
  else Returned (Response.only CURLE_BAD_FUNCTION_ARGUMENT).

(** A line of a header block, as the cookie statements see it: a line
    under another name, or a [Set-Cookie] line, its name in any letter
    case, whose value is a sequence of pairs separated by ["; "]. *)
Inductive block_line : Type :=
| OtherLine (line : string)
| SetCookieLine (name : string) (ps : list (string * string)) (en : cookie_end).

Definition line_text (b : block_line) : string :=
  match b with
  | OtherLine line => line
  | SetCookieLine name ps en =>
      name +:+ String ":" (String SP (cookie_value ps en +:+ String CR ""))
  end.

Definition block_line_ok (b : block_line) : bool :=
  match b with
  | OtherLine line => negb (String.eqb (transform_tolower (name_of line)) "set-cookie")
  | SetCookieLine name ps en =>
      String.eqb (transform_tolower name) "set-cookie" && negb (occurs ":" name)
      && forallb pair_ok ps && end_ok en && negb (occurs CR (cookie_value ps en))
  end.

(** The pairs of a line, recorded over the cookies of the lines before. *)
Definition line_cookies (cs : cookies_t) (b : block_line) : cookies_t :=
  match b with
  | OtherLine _ => cs
  | SetCookieLine _ ps en => record_all (ps ++ end_pairs en) cs
  end.

(** The value of the last [Set-Cookie] line, when there is one. *)
Definition last_set_cookie (acc : option string) (b : block_line) : option string :=
  match b with
  | OtherLine _ => acc
  | SetCookieLine _ ps en => Some (cookie_value ps en)
  end.

(** * Properties *)

(** ** Preparing a dispatch *)

Lemma append_assoc (a b c : string) : (a +:+ b) +:+ c = a +:+ (b +:+ c).
Proof. induction a as [|x a IH]; simpl; [reflexivity | f_equal; exact IH]. Qed.

Lemma append_empty_r (a : string) : a +:+ "" = a.
Proof. induction a as [|x a IH]; simpl; [reflexivity | f_equal; exact IH]. Qed.

Lemma cookie_fold (cookies : cookies_t) (acc : string) :
  fold_left
    (fun cookie_header '(key, value) =>
       cookie_header +:+ (((key +:+ "=") +:+ value) +:+ "; "))
    cookies acc
  = acc +:+ fold_right String.append "" (map (fun kv => fst kv +:+ "=" +:+ snd kv +:+ "; ") cookies).
Proof.
  revert acc.
  induction cookies as [|[k v] cs IH]; intros acc; cbn [fold_left map fold_right fst snd].
  - now rewrite append_empty_r.
  - rewrite IH. now rewrite !append_assoc.
Qed.

(** Appending to a list that is already allocated at [p]. *)
Lemma slist_fold_some (hs : headers_t) (p : nat) (ls : list string) (e : libcurl) :
  slists e !! p = Some ls ->
  fold_left
    (fun '(lst, e) '(key, value) =>
       curl_slist_append lst (c_str ((key +:+ ": ") +:+ value)) e)
    hs (Some p, e)
  = (Some p,
     mk_libcurl (<[p := ls ++ map (fun kv => c_str (fst kv +:+ ": " +:+ snd kv)) hs]> (slists e))
       (next_slist e) (performed e) (invalid_frees e)).
Proof.
  revert ls e. induction hs as [|[k v] hs IH]; intros ls e Hp; cbn [fold_left map fst snd].
  - rewrite app_nil_r. rewrite insert_id by exact Hp. now destruct e.
  - unfold curl_slist_append at 2.
    rewrite (IH (ls ++ [c_str ((k +:+ ": ") +:+ v)])).
    + cbn [slists next_slist performed invalid_frees]. f_equal. f_equal.
      rewrite <- (insert_id (slists e) p ls Hp) at 1.
      rewrite alter_insert_eq, insert_insert_eq.
      rewrite append_assoc, <- app_assoc. reflexivity.
    + cbn [slists]. rewrite lookup_alter_eq, Hp. reflexivity.
Qed.

Lemma slist_append_null (text : string) (e : libcurl) :
  curl_slist_append None text e
  = (Some (next_slist e),
     mk_libcurl (<[next_slist e := [text]]> (slists e)) (S (next_slist e)) (performed e)
       (invalid_frees e)).
Proof. reflexivity. Qed.

Lemma prepareHeaders_eq (r : Request.t) (e : libcurl) :
  Request.prepareHeaders r e
  = (let p := next_slist e in
     (Request.setopt (set_HTTPHEADER (Some p)) (Request.with_curl_headers (Some p) r),
      mk_libcurl
        (<[p := header_lines (Request.headers r) (Request.cookies r)]>
           (released r (slists e)))
        (S p) (performed e) (released_frees r e))).
Proof.
  unfold Request.prepareHeaders, header_lines, released, released_frees.
  rewrite cookie_fold. fold (cookie_text (Request.cookies r)).
  generalize (c_str (cookie_text (Request.cookies r))) as ck. intros ck.
  set (e0 := match Request.curl_headers r with
             | Some p => curl_slist_free_all p e
             | None => e
             end).
  assert (He0 : e0 = mk_libcurl
                  match Request.curl_headers r with
                  | Some q => delete q (slists e)
                  | None => slists e
                  end (next_slist e) (performed e)
                  match Request.curl_headers r with
                  | Some q =>
                      match slists e !! q with
                      | Some _ => invalid_frees e
                      | None => invalid_frees e ++ [q]
                      end
                  | None => invalid_frees e
                  end).
  { subst e0. destruct (Request.curl_headers r); [reflexivity | now destruct e]. }
  rewrite He0. clear He0 e0.
  generalize (match Request.curl_headers r with
              | Some q =>
                  match slists e !! q with
                  | Some _ => invalid_frees e
                  | None => invalid_frees e ++ [q]
                  end
              | None => invalid_frees e
              end) as fs. intros fs.
  generalize (match Request.curl_headers r with
              | Some q => delete q (slists e)
              | None => slists e
              end) as m. intros m.
  destruct (Request.headers r) as [|[k v] hs]; cbn [fold_left map app].
  - reflexivity.
  - rewrite slist_append_null. cbn [slists next_slist performed invalid_frees].
    rewrite (slist_fold_some hs (next_slist e) [c_str ((k +:+ ": ") +:+ v)])
      by (cbn [slists]; apply lookup_insert_eq).
    cbn [slists next_slist performed invalid_frees curl_slist_append fst snd].
    rewrite alter_insert_eq, !insert_insert_eq.
    rewrite append_assoc, <- app_assoc. reflexivity.
Qed.

Lemma prepare_eq (r : Request.t) (e : libcurl) :
  Request.prepare r e
  = (Request.mk (Request.url r) (Request.data r) (Request.headers r) (Request.cookies r)
       (Some (next_slist e))
       (option_map (prepared_handle r (next_slist e)) (Request.curl r))
       (Request.curl_assigned r),
     prepared_engine r e).
Proof.
  unfold Request.prepare. rewrite prepareHeaders_eq.
  destruct r as [u d hs cs ch [h|] a]; reflexivity.
Qed.

Lemma execute_eq (r : Request.t) (h : CURL) (p : nat) (ls : list string)
    (tr : transfer) (e : libcurl) :
  Request.curl r = Some h ->
  CURLOPT_HTTPHEADER h = Some p ->
  slists e !! p = Some ls ->
  Request.execute r tr e
  = (mk_libcurl (slists e) (next_slist e) (performed e ++ [mk_exchange h ls])
       (invalid_frees e),
     received_response tr).
Proof.
  intros Hc Hh Hp.
  unfold received_response, Request.execute, curl_easy_perform.
  rewrite Hc, Hh, Hp. reflexivity.
Qed.

(** One dispatch, whatever the verb option [verb] it sets. *)
Lemma dispatch_eq (verb : CURL -> CURL) (r : Request.t) (h : CURL)
    (tr : transfer) (e : libcurl) :
  Request.curl r = Some h ->
  (forall h', CURLOPT_HTTPHEADER (verb h') = CURLOPT_HTTPHEADER h') ->
  (let '(r1, e1) := Request.prepare r e in
   let r2 := Request.setopt verb r1 in
   (r2, Request.execute r2 tr e1))
  = (Request.mk (Request.url r) (Request.data r) (Request.headers r) (Request.cookies r)
       (Some (next_slist e)) (Some (verb (prepared_handle r (next_slist e) h)))
       (Request.curl_assigned r),
     (mk_libcurl (slists (prepared_engine r e)) (S (next_slist e))
        (performed e ++
           [mk_exchange (verb (prepared_handle r (next_slist e) h))
              (header_lines (Request.headers r) (Request.cookies r))])
        (released_frees r e),
      received_response tr)).
Proof.
  intros Hc Hv. rewrite prepare_eq, Hc. cbn [option_map].
  unfold Request.setopt. cbn [Request.curl option_map Request.with_curl
    Request.url Request.data Request.headers Request.cookies Request.curl_headers].
  f_equal.
  erewrite execute_eq.
  - reflexivity.
  - reflexivity.
  - rewrite Hv. reflexivity.
  - cbn [slists prepared_engine]. apply lookup_insert_eq.
Qed.

Lemma dispatch_verb_eq (v : verb) (r : Request.t) (h : CURL) (tr : transfer) (e : libcurl) :
  Request.curl r = Some h ->
  dispatch v r tr e
  = (Request.mk (Request.url r) (Request.data r) (Request.headers r) (Request.cookies r)
       (Some (next_slist e)) (Some (verb_option v (prepared_handle r (next_slist e) h)))
       (Request.curl_assigned r),
     (mk_libcurl (slists (prepared_engine r e)) (S (next_slist e))
        (performed e ++
           [mk_exchange (verb_option v (prepared_handle r (next_slist e) h))
              (header_lines (Request.headers r) (Request.cookies r))])
        (released_frees r e),
      received_response tr)).
Proof.
  intros Hc.
  destruct v as [| |m]; unfold dispatch, Request.get, Request.post, Request.request;
    apply (dispatch_eq _ r h tr e Hc); intros h'; reflexivity.
Qed.

Lemma received_failure (tr : transfer) :
  result tr <> CURLE_OK ->
  received_response tr = Returned (Response.only (result tr)).
Proof.
  intros Hne. unfold received_response, Request.execute.
  cbn [Request.curl Request.curl_assigned Request.initalize handle_available
       handle_granted Request.with_curl fst curl_easy_perform
       CURLOPT_HTTPHEADER curl_easy_init snd].
  destruct (Z.eqb_spec (result tr) CURLE_OK) as [Heq|_]; [contradiction | reflexivity].
Qed.

Lemma c_str_nul_free (s : string) : nul_free s = true -> c_str s = s.
Proof.
  induction s as [|c s IH]; simpl; intros H; [reflexivity|].
  apply andb_true_iff in H as [Hc Hs].
  destruct (Ascii.eqb c NUL); [discriminate | f_equal; auto].
Qed.

Lemma nul_free_append (a b : string) :
  nul_free (a +:+ b) = nul_free a && nul_free b.
Proof.
  induction a as [|c a IH]; simpl; [reflexivity|].
  rewrite IH. now rewrite andb_assoc.
Qed.

Lemma mutations_curl_headers (ms : list mutation) (r : Request.t) :
  Request.curl_headers (mutations ms r) = Request.curl_headers r /\
  Request.curl (mutations ms r) = Request.curl r.
Proof.
  revert r. induction ms as [|m ms IH]; intros r; [split; reflexivity|].
  unfold mutations in *. cbn [fold_left].
  destruct (IH (mutate m r)) as [H1 H2]. rewrite H1, H2.
  destruct m; split; reflexivity.
Qed.

(** ** What the write callback collects *)

Lemma push_all (chunk acc : list Byte.byte) :
  fold_left (fun v b => v ++ [b]) chunk acc = acc ++ chunk.
Proof.
  revert acc. induction chunk as [|b chunk IH]; intros acc; cbn [fold_left].
  - now rewrite app_nil_r.
  - rewrite IH, <- app_assoc. reflexivity.
Qed.

Lemma write_all (chunk userdata : list Byte.byte) :
  _m_writeFunction chunk 1 (Z.of_nat (length chunk)) userdata
  = (userdata ++ chunk, Z.of_nat (length chunk)).
Proof.
  unfold _m_writeFunction. rewrite Nat2Z.id, firstn_all, push_all.
  f_equal. lia.
Qed.

Lemma received_concat (chunks : list (list Byte.byte)) :
  received chunks = concat chunks.
Proof.
  unfold received.
  enough (H : forall acc,
             fold_left
               (fun v chunk => fst (_m_writeFunction chunk 1 (Z.of_nat (length chunk)) v))
               chunks acc = acc ++ concat chunks) by apply (H []).
  induction chunks as [|c cs IH]; intros acc; cbn [fold_left concat].
  - now rewrite app_nil_r.
  - rewrite write_all. cbn [fst]. rewrite IH, app_assoc. reflexivity.
Qed.

Lemma deliver_texts (code : CURLcode) (hdr body : string) :
  header_block (deliver code hdr body) = hdr /\
  body_text (deliver code hdr body) = body.
Proof.
  unfold header_block, body_text, deliver, string_of_bytes.
  cbn [header_writes body_writes]. rewrite !received_concat. cbn [concat].
  rewrite !app_nil_r, !string_of_list_byte_of_string. split; reflexivity.
Qed.

(** ** Transport failure *)

(** C3.  When the engine returns a code other than [CURLE_OK], every
    dispatcher ([get], [post], [request]) returns a Response that carries
    that code in [curlCode] and nothing else: [code] is 0, [message] and
    [data] are empty, both raw buffers are empty and both maps are empty,
    whatever bytes the engine delivered before it failed. *)
Theorem transport_failure_response (v : verb) (r : Request.t) (h : CURL)
    (tr : transfer) (e : libcurl) :
  Request.curl r = Some h ->
  result tr <> CURLE_OK ->
  snd (snd (dispatch v r tr e))
  = Returned
      {| Response.curlCode := result tr;
         Response.code := 0;
         Response.message := "";
         Response.data := "";
         Response.rawData := [];
         Response.rawHeaders := [];
         Response.headers := [];
         Response.cookies := [] |}.
Proof.
  intros Hc Hne. rewrite (dispatch_verb_eq v r h tr e Hc). cbn [snd].
  now rewrite received_failure.
Qed.

Lemma transport_failure_response_witness :
  snd (snd (dispatch GET (fst (Request.initalize (Request.new "https://example.org/")))
              (deliver 7 ("HTTP/1.1 200 OK" +:+ CRLF +:+ CRLF) "{}") libcurl_start))
  = Returned (Response.mk 7 0 "" "" [] [] [] []).
Proof.
  apply (transport_failure_response GET _ curl_easy_init).
  - reflexivity.
  - unfold CURLE_OK. simpl. lia.
Defined.

(** ** The header list of a dispatch *)

(** C7.  Every dispatch hands the engine one line ["<key>: <value>"] per
    entry of the header map, in the map's order, followed by exactly one
    ["Cookie: "] line whose value is the cookie map joined as
    ["k1=v1; k2=v2; "]; the cookie line is there when the cookie map is
    empty, and when both maps are.  The lines are C strings: a text
    without NUL bytes is handed over unchanged. *)
Theorem dispatch_header_list (v : verb) (r : Request.t) (h : CURL)
    (tr : transfer) (e : libcurl) :
  Request.curl r = Some h ->
  let lines := header_lines (Request.headers r) (Request.cookies r) in
  emitted (fst (snd (dispatch v r tr e))) = emitted e ++ [lines] /\
  lines = map (fun kv => c_str (fst kv +:+ ": " +:+ snd kv)) (Request.headers r)
          ++ [c_str ("Cookie: " +:+
                     fold_right String.append ""
                       (map (fun kv => fst kv +:+ "=" +:+ snd kv +:+ "; ")
                          (Request.cookies r)))] /\
  length lines = S (length (Request.headers r)) /\
  (map_nul_free (Request.headers r) = true ->
   map_nul_free (Request.cookies r) = true ->
   lines = map (fun kv => fst kv +:+ ": " +:+ snd kv) (Request.headers r)
           ++ ["Cookie: " +:+
               fold_right String.append ""
                 (map (fun kv => fst kv +:+ "=" +:+ snd kv +:+ "; ")
                    (Request.cookies r))]).
Proof.
  intros Hc lines. rewrite (dispatch_verb_eq v r h tr e Hc). cbn [fst snd].
  split; [|split; [|split]].
  - unfold emitted. cbn [performed]. rewrite map_app. reflexivity.
  - reflexivity.
  - subst lines. unfold header_lines.
    rewrite length_app, length_map. cbn [length]. lia.
  - intros Hh Hk. subst lines. unfold header_lines, cookie_text. f_equal.
    + apply map_ext_in. intros [k w] Hin. cbn [fst snd].
      apply c_str_nul_free.
      unfold map_nul_free in Hh. rewrite forallb_forall in Hh.
      specialize (Hh _ Hin). cbn [fst snd] in Hh.
      apply andb_true_iff in Hh as [Hk1 Hk2].
      rewrite !nul_free_append, Hk1, Hk2. reflexivity.
    + f_equal. apply c_str_nul_free. rewrite nul_free_append.
      replace (nul_free "Cookie: ") with true by reflexivity. cbn [andb].
      unfold map_nul_free in Hk.
      induction (Request.cookies r) as [|[k w] cs IH]; [reflexivity|].
      cbn [forallb fst snd] in Hk. cbn [map fold_right fst snd].
      apply andb_true_iff in Hk as [Hkw Hcs].
      apply andb_true_iff in Hkw as [Hk1 Hk2].
      rewrite !nul_free_append, Hk1, Hk2, (IH Hcs). reflexivity.
Qed.

Lemma dispatch_header_list_witness :
  emitted (fst (snd (dispatch GET (fst (Request.initalize (Request.new "https://example.org/")))
                       (deliver 0 ("HTTP/1.1 200 OK" +:+ CRLF +:+ CRLF) "{}") libcurl_start)))
  = [["Cookie: "]].
Proof.
  exact (proj1 (dispatch_header_list GET
                  (fst (Request.initalize (Request.new "https://example.org/")))
                  curl_easy_init
                  (deliver 0 ("HTTP/1.1 200 OK" +:+ CRLF +:+ CRLF) "{}")
                  libcurl_start eq_refl)).
Defined.

(** ** Dispatching a Request again *)

(** C8.  When a Request is dispatched, changed through its setters and
    dispatched again, the header list of the second dispatch is built
    from the header and cookie maps as they stand when it starts and from
    nothing else: the list the first dispatch allocated is freed, the new
    one lives at another address, and the engine is handed exactly the
    lines of the current maps. *)
Theorem repeated_dispatch_headers (v1 v2 : verb) (r : Request.t) (h : CURL)
    (tr1 tr2 : transfer) (ms : list mutation) (e : libcurl) :
  Request.curl r = Some h ->
  let d1 := dispatch v1 r tr1 e in
  let r1 := fst d1 in
  let e1 := fst (snd d1) in
  let r2 := mutations ms r1 in
  let d2 := dispatch v2 r2 tr2 e1 in
  let r3 := fst d2 in
  let e3 := fst (snd d2) in
  let lines1 := header_lines (Request.headers r) (Request.cookies r) in
  let lines2 := header_lines (Request.headers r2) (Request.cookies r2) in
  emitted e3 = emitted e ++ [lines1; lines2] /\
  exists p q : nat,
    Request.curl_headers r1 = Some p /\
    Request.curl_headers r3 = Some q /\
    p <> q /\
    slists e1 !! p = Some lines1 /\
    slists e3 !! p = None /\
    slists e3 !! q = Some lines2.
Proof.
  intros Hc. cbv zeta.
  rewrite (dispatch_verb_eq v1 r h tr1 e Hc). cbn [fst snd].
  set (r1 := Request.mk _ _ _ _ _ _ _).
  set (e1 := mk_libcurl _ _ _ _).
  destruct (mutations_curl_headers ms r1) as [Hch Hcu].
  rewrite (dispatch_verb_eq v2 (mutations ms r1) _ tr2 e1 Hcu). cbn [fst snd].
  split.
  - unfold emitted. subst e1. cbn [performed]. rewrite !map_app. cbn [map sent_headers].
    rewrite <- app_assoc. reflexivity.
  - exists (next_slist e), (S (next_slist e)).
    subst e1. cbn [slists next_slist performed prepared_engine Request.curl_headers].
    unfold released. rewrite Hch. subst r1. cbn [Request.curl_headers].
    repeat split.
    + lia.
    + apply lookup_insert_eq.
    + rewrite lookup_insert_ne by lia. apply lookup_delete_eq.
    + apply lookup_insert_eq.
Qed.

Lemma repeated_dispatch_headers_witness :
  let ok := deliver 0 ("HTTP/1.1 200 OK" +:+ CRLF +:+ CRLF) "{}" in
  let r := fst (Request.initalize
                  (Request.set_header "X" "1" (Request.new "https://example.org/"))) in
  let d1 := dispatch GET r ok libcurl_start in
  let r2 := mutations [RemoveHeader "X"; SetHeader "Y" "2"] (fst d1) in
  emitted (fst (snd (dispatch GET r2 ok (fst (snd d1)))))
  = [["X: 1"; "Cookie: "]; ["Y: 2"; "Cookie: "]].
Proof.
  exact (proj1 (repeated_dispatch_headers GET GET
                  (fst (Request.initalize
                          (Request.set_header "X" "1" (Request.new "https://example.org/"))))
                  curl_easy_init
                  (deliver 0 ("HTTP/1.1 200 OK" +:+ CRLF +:+ CRLF) "{}")
                  (deliver 0 ("HTTP/1.1 200 OK" +:+ CRLF +:+ CRLF) "{}")
                  [RemoveHeader "X"; SetHeader "Y" "2"]
                  libcurl_start eq_refl)).
Defined.

(** ** Reading from a string stream *)

Section Streams.

Variable delim : ascii.

Lemma read_until_found (t rest : string) :
  occurs delim t = false ->
  read_until delim (t +:+ String delim rest) = (t, Some rest).
Proof.
  induction t as [|a t IH]; simpl; intros H.
  - now rewrite Ascii.eqb_refl.
  - apply orb_false_iff in H as [Ha Ht]. rewrite Ha, (IH Ht). reflexivity.
Qed.

Lemma read_until_absent (t : string) :
  occurs delim t = false -> read_until delim t = (t, None).
Proof.
  induction t as [|a t IH]; simpl; intros H; [reflexivity|].
  apply orb_false_iff in H as [Ha Ht]. rewrite Ha, (IH Ht). reflexivity.
Qed.

Lemma read_until_some (s t rest : string) :
  read_until delim s = (t, Some rest) ->
  s = t +:+ String delim rest /\ occurs delim t = false.
Proof.
  revert t. induction s as [|a s IH]; simpl; intros t H; [discriminate|].
  destruct (Ascii.eqb_spec a delim) as [->|Hne].
  - inversion H; subst. split; reflexivity.
  - destruct (read_until delim s) as [t' r'] eqn:E. inversion H; subst.
    destruct (IH t' eq_refl) as [-> Ho]. split; [reflexivity|].
    simpl. rewrite Ho. apply Ascii.eqb_neq in Hne. now rewrite Hne.
Qed.

Lemma read_until_none (s t : string) :
  read_until delim s = (t, None) -> s = t /\ occurs delim t = false.
Proof.
  revert t. induction s as [|a s IH]; simpl; intros t H.
  - inversion H. split; reflexivity.
  - destruct (Ascii.eqb_spec a delim) as [->|Hne]; [discriminate|].
    destruct (read_until delim s) as [t' r'] eqn:E. inversion H; subst.
    destruct (IH t' eq_refl) as [-> Ho]. split; [reflexivity|].
    simpl. rewrite Ho. apply Ascii.eqb_neq in Hne. now rewrite Hne.
Qed.

Lemma length_append (a b : string) :
  String.length (a +:+ b) = (String.length a + String.length b)%nat.
Proof. induction a as [|x a IH]; simpl; [reflexivity | now rewrite IH]. Qed.

Lemma getline_unread_le (ss : stringstream) (str : string) :
  (unread (fst (getline ss str delim)) <= unread ss)%nat.
Proof.
  unfold getline, unread. destruct (good ss) eqn:G.
  - destruct (read_until delim (rdbuf ss)) as [t [rest|]] eqn:E; cbn.
    + apply read_until_some in E as [-> _]. rewrite length_append. simpl. lia.
    + lia.
  - cbn. unfold good. cbn. rewrite andb_false_r. lia.
Qed.

Lemma getline_unread_lt (ss : stringstream) (str : string) :
  to_bool (fst (getline ss str delim)) = true ->
  (unread (fst (getline ss str delim)) < unread ss)%nat.
Proof.
  unfold getline, unread, to_bool. destruct (good ss) eqn:G.
  - destruct (read_until delim (rdbuf ss)) as [t [rest|]] eqn:E; cbn.
    + intros _. apply read_until_some in E as [-> _]. rewrite length_append. simpl. lia.
    + apply read_until_none in E as [-> _]. destruct t; cbn; [discriminate | lia].
  - cbn. discriminate.
Qed.

End Streams.

(** ** The loops of [execute] terminate *)

Lemma cookie_loop_total (fuel : nat) (cookieStream : stringstream) (cookie : string)
    (cookies : cookies_t) :
  (unread cookieStream < fuel)%nat ->
  exists result, Request.cookie_loop fuel cookieStream cookie cookies = Some result.
Proof.
  revert cookieStream cookie cookies.
  induction fuel as [|fuel IH]; intros ss cookie cookies Hlt; [lia|].
  cbn [Request.cookie_loop].
  pose proof (getline_unread_lt "=" ss cookie) as Hdec.
  destruct (getline ss cookie "=") as [ss1 k] eqn:E1. cbn [fst] in Hdec.
  destruct (to_bool ss1) eqn:B; [|eauto].
  specialize (Hdec eq_refl).
  pose proof (getline_unread_le ";" ss1 "") as H2.
  destruct (getline ss1 "" ";") as [ss2 v] eqn:E2. cbn [fst] in H2.
  pose proof (getline_unread_le SP ss2 v) as H3.
  destruct (getline ss2 v SP) as [ss3 w] eqn:E3. cbn [fst] in H3.
  apply IH. lia.
Qed.

Lemma header_body_total (line : string) (acc : headers_t * cookies_t) :
  exists acc', Request.header_body line acc = Some acc'.
Proof.
  destruct acc as [hs cs]. unfold Request.header_body.
  destruct (getline (sstream line) "" ":") as [ss1 key].
  destruct (getline ss1 "" SP) as [ss2 v0].
  destruct (getline ss2 v0 CR) as [ss3 value].
  destruct (String.eqb (transform_tolower key) "set-cookie"); [|eauto].
  destruct (cookie_loop_total (S (String.length value)) (sstream value) "" cs) as [c Hc].
  - unfold unread. cbn. lia.
  - rewrite Hc. eauto.
Qed.

Lemma header_loop_total (fuel : nat) (ss : stringstream) (line : string)
    (acc : headers_t * cookies_t) :
  (unread ss < fuel)%nat ->
  exists acc', Request.header_loop fuel ss line acc = Some acc'.
Proof.
  revert ss line acc.
  induction fuel as [|fuel IH]; intros ss line acc Hlt; [lia|].
  cbn [Request.header_loop].
  pose proof (getline_unread_lt LF ss line) as Hdec.
  destruct (getline ss line LF) as [ss1 l] eqn:E1. cbn [fst] in Hdec.
  destruct (to_bool ss1) eqn:B; [|eauto].
  specialize (Hdec eq_refl).
  destruct (header_body_total l acc) as [acc1 ->].
  apply IH. lia.
Qed.

(** ** The status line *)

Lemma int_of_size_t_npos : int_of_size_t npos = -1.
Proof. reflexivity. Qed.

Lemma int_of_size_t_small (i : Z) : 0 <= i < 2 ^ 31 -> int_of_size_t i = i.
Proof.
  intros H. unfold int_of_size_t. cbv zeta.
  rewrite Z.mod_small by lia.
  destruct (Z.ltb_spec i (2 ^ 31)); lia.
Qed.

Lemma find_from_spec (c : ascii) (s : string) (from : Z) :
  Str.find_from c s from
  = match read_until c s with
    | (t, Some _) => from + Str.size t
    | (_, None) => npos
    end.
Proof.
  revert from. induction s as [|a s IH]; intros from; simpl; [reflexivity|].
  destruct (Ascii.eqb a c).
  - unfold Str.size. simpl. lia.
  - rewrite IH. destruct (read_until c s) as [t [rest|]]; [|reflexivity].
    unfold Str.size. simpl String.length. lia.
Qed.

Lemma substring_all (s : string) : substring 0 (String.length s) s = s.
Proof. induction s as [|a s IH]; simpl; [reflexivity | now rewrite IH]. Qed.

Lemma substring_prefix (t u : string) : substring 0 (String.length t) (t +:+ u) = t.
Proof.
  induction t as [|a t IH]; simpl.
  - destruct u; reflexivity.
  - now rewrite IH.
Qed.

Lemma substring_suffix (t u : string) :
  substring (String.length t) (String.length u) (t +:+ u) = u.
Proof. induction t as [|a t IH]; simpl; [apply substring_all | exact IH]. Qed.

Lemma substr_all (s : string) : Str.size s < 2 ^ 31 -> Str.substr s 0 npos = Returned s.
Proof.
  intros H. unfold Str.substr, Str.size in *.
  destruct (Z.ltb_spec (Z.of_nat (String.length s)) 0); [lia|].
  rewrite Z.min_r by (unfold npos; lia).
  rewrite Z.sub_0_r, Nat2Z.id. cbn [Z.to_nat]. now rewrite substring_all.
Qed.

Lemma substr_tail (t u : string) :
  Str.size (t +:+ u) < 2 ^ 31 ->
  Str.substr (t +:+ u) (Str.size t) npos = Returned u.
Proof.
  intros H. unfold Str.substr, Str.size in *. rewrite length_append in *.
  destruct (Z.ltb_spec (Z.of_nat (String.length t + String.length u))
              (Z.of_nat (String.length t))); [lia|].
  rewrite Z.min_r by (unfold npos; lia).
  replace (Z.of_nat (String.length t + String.length u) - Z.of_nat (String.length t))
    with (Z.of_nat (String.length u)) by lia.
  rewrite !Nat2Z.id. now rewrite substring_suffix.
Qed.

Lemma substr_head (t u : string) :
  Str.substr (t +:+ u) 0 (Str.size t) = Returned t.
Proof.
  unfold Str.substr, Str.size. rewrite length_append.
  destruct (Z.ltb_spec (Z.of_nat (String.length t + String.length u)) 0); [lia|].
  rewrite Z.min_l by lia.
  rewrite Nat2Z.id. cbn [Z.to_nat]. now rewrite substring_prefix.
Qed.

(** Cutting a text at its first space the way [execute] does, with its
    [int] index. *)
Lemma cut_at_space {A : Type} (s : string) (k : string -> string -> outcome A) :
  Str.size s < 2 ^ 31 ->
  (let index := int_of_size_t (Str.find s SP) in
   let* pos := int_succ index in
   let* tail := Str.substr s (size_t_of_int pos) npos in
   let* head := Str.substr s 0 (size_t_of_int index) in
   k tail head)
  = k (after_space s) (before_space s).
Proof.
  intros Hs. unfold Str.find, after_space, before_space. rewrite find_from_spec.
  destruct (read_until SP s) as [t [rest|]] eqn:E; cbn [fst].
  - apply read_until_some in E as [-> _].
    assert (Ht : 0 <= Str.size t /\ Str.size t + 1 <= Str.size (t +:+ String SP rest)).
    { unfold Str.size. rewrite length_append. simpl String.length. lia. }
    rewrite Z.add_0_l. cbv zeta.
    rewrite int_of_size_t_small by lia.
    unfold int_succ. destruct (Z.ltb_spec (Str.size t) INT_MAX);
      [|unfold INT_MAX in *; lia].
    cbn [bind]. unfold size_t_of_int. rewrite !Z.mod_small by lia.
    replace (Str.size t + 1) with (Str.size (t +:+ String SP ""))
      by (unfold Str.size; rewrite length_append; simpl String.length; lia).
    replace (t +:+ String SP rest) with ((t +:+ String SP "") +:+ rest)
      by (rewrite append_assoc; reflexivity).
    rewrite substr_tail by (rewrite append_assoc; exact Hs).
    cbn [bind]. rewrite append_assoc. cbn [String.append].
    rewrite substr_head. reflexivity.
  - apply read_until_none in E as [-> _].
    cbv zeta. rewrite int_of_size_t_npos.
    replace (int_succ (-1)) with (Returned (A := Z) 0) by reflexivity.
    cbn [bind]. replace (size_t_of_int 0) with 0 by reflexivity.
    rewrite substr_all by exact Hs. cbn [bind].
    replace (size_t_of_int (-1)) with npos by reflexivity.
    rewrite substr_all by exact Hs. reflexivity.
Qed.

Lemma skip_to_space {A : Type} (s : string) (k : string -> outcome A) :
  Str.size s < 2 ^ 31 ->
  (let index := int_of_size_t (Str.find s SP) in
   let* pos := int_succ index in
   let* tail := Str.substr s (size_t_of_int pos) npos in
   k tail)
  = k (after_space s).
Proof.
  intros Hs. unfold Str.find, after_space. rewrite find_from_spec.
  destruct (read_until SP s) as [t [rest|]] eqn:E.
  - apply read_until_some in E as [-> _].
    assert (Ht : 0 <= Str.size t /\ Str.size t + 1 <= Str.size (t +:+ String SP rest)).
    { unfold Str.size. rewrite length_append. simpl String.length. lia. }
    rewrite Z.add_0_l. cbv zeta.
    rewrite int_of_size_t_small by lia.
    unfold int_succ. destruct (Z.ltb_spec (Str.size t) INT_MAX);
      [|unfold INT_MAX in *; lia].
    cbn [bind]. unfold size_t_of_int. rewrite !Z.mod_small by lia.
    replace (Str.size t + 1) with (Str.size (t +:+ String SP ""))
      by (unfold Str.size; rewrite length_append; simpl String.length; lia).
    replace (t +:+ String SP rest) with ((t +:+ String SP "") +:+ rest)
      by (rewrite append_assoc; reflexivity).
    rewrite substr_tail by (rewrite append_assoc; exact Hs).
    reflexivity.
  - apply read_until_none in E as [-> _].
    cbv zeta. rewrite int_of_size_t_npos.
    replace (int_succ (-1)) with (Returned (A := Z) 0) by reflexivity.
    cbn [bind]. replace (size_t_of_int 0) with 0 by reflexivity.
    rewrite substr_all by exact Hs. reflexivity.
Qed.

Lemma after_space_size (s : string) : Str.size (after_space s) <= Str.size s.
Proof.
  unfold after_space. destruct (read_until SP s) as [t [rest|]] eqn:E; [|lia].
  apply read_until_some in E as [-> _]. unfold Str.size.
  rewrite length_append. simpl String.length. lia.
Qed.

Lemma getline_first (block str : string) :
  snd (getline (sstream block) str LF) = first_line block.
Proof.
  unfold getline, first_line. cbn [good sstream eofbit failbit negb andb rdbuf].
  destruct (read_until LF block) as [t [rest|]]; reflexivity.
Qed.

(** [execute] on a transfer the engine completed, when the first line of
    the block is short enough for its positions to fit an [int]. *)
Lemma received_ok (tr : transfer) :
  result tr = CURLE_OK ->
  Str.size (first_line (header_block tr)) < 2 ^ 31 ->
  received_response tr
  = (let* code := stoi (status_token (header_block tr)) in
     Returned
       (Response.mk CURLE_OK code
          (after_space (after_space (first_line (header_block tr))))
          (body_text tr) (received (body_writes tr)) (received (header_writes tr))
          (fst (parsed_maps (header_block tr))) (snd (parsed_maps (header_block tr))))).
Proof.
  intros Hok Hs.
  unfold received_response, Request.execute.
  cbn [Request.curl Request.curl_assigned Request.initalize handle_available
       handle_granted Request.with_curl fst curl_easy_perform
       CURLOPT_HTTPHEADER curl_easy_init snd].
  rewrite Hok. cbn [Z.eqb CURLE_OK negb].
  fold (header_block tr). fold (body_text tr).
  pose proof (getline_first (header_block tr) "") as Hl.
  destruct (getline (sstream (header_block tr)) "" LF) as [ss line].
  cbn [snd] in Hl. subst line.
  rewrite (skip_to_space (first_line (header_block tr))) by exact Hs.
  pose proof (after_space_size (first_line (header_block tr))) as Hle.
  rewrite (cut_at_space (after_space (first_line (header_block tr)))) by lia.
  fold (status_token (header_block tr)).
  destruct (stoi (status_token (header_block tr))) as [code|x| |]; cbn [bind]; try reflexivity.
  unfold parsed_maps.
  destruct (header_loop_total (S (String.length (header_block tr)))
              (sstream (header_block tr)) (first_line (header_block tr)) ([], []))
    as [[hs cs] ->].
  - unfold unread. cbn. lia.
  - reflexivity.
Qed.

(** ** [getline] on a known buffer *)

Lemma getline_found (delim : ascii) (t rest str : string) :
  occurs delim t = false ->
  getline (mk_stream (t +:+ String delim rest) false false) str delim
  = (mk_stream rest false false, t).
Proof.
  intros H. unfold getline. cbn [good eofbit failbit negb andb rdbuf].
  now rewrite read_until_found.
Qed.

Lemma getline_skip (delim : ascii) (rest str : string) :
  getline (mk_stream (String delim rest) false false) str delim
  = (mk_stream rest false false, "").
Proof. apply (getline_found delim ""). reflexivity. Qed.

Lemma getline_eof (delim : ascii) (t str : string) :
  occurs delim t = false ->
  getline (mk_stream t false false) str delim
  = (mk_stream "" true match t with EmptyString => true | _ => false end, t).
Proof.
  intros H. unfold getline. cbn [good eofbit failbit negb andb rdbuf].
  now rewrite read_until_absent.
Qed.

Lemma getline_after_eof (delim : ascii) (buf str : string) (f : bool) :
  getline (mk_stream buf true f) str delim = (mk_stream buf true true, str).
Proof. reflexivity. Qed.

Lemma getline_after_fail (delim : ascii) (buf str : string) (e : bool) :
  getline (mk_stream buf e true) str delim = (mk_stream buf e true, str).
Proof. unfold getline, good. cbn. now rewrite andb_false_r. Qed.

(** ** Malformed status lines *)

(** C2, as stated, fails: on an empty header block, on a status line
    without spaces and on a status code that is not a number, [execute]
    throws [std::invalid_argument] out of [std::stoi]. *)
Lemma execute_throws_on_malformed_status :
  snd (snd (Request.get sample_request (deliver CURLE_OK "" "") libcurl_start))
  = Thrown std_invalid_argument /\
  snd (snd (Request.get sample_request
              (deliver CURLE_OK ("HTTP/1.1" +:+ CRLF +:+ CRLF) "") libcurl_start))
  = Thrown std_invalid_argument /\
  snd (snd (Request.get sample_request
              (deliver CURLE_OK ("HTTP/1.1 abc OK" +:+ CRLF +:+ CRLF) "") libcurl_start))
  = Thrown std_invalid_argument.
Proof. repeat split; vm_compute; reflexivity. Qed.

Lemma stoi_outcome (s : string) :
  (exists code, stoi s = Returned code) \/
  stoi s = Thrown std_invalid_argument \/
  stoi s = Thrown std_out_of_range.
Proof.
  unfold stoi. destruct (strtol10 s) as [v|]; [|auto].
  destruct (_ && _)%bool; eauto.
Qed.

(** C2, amended.  On a transfer the engine completed, whose first header
    line is shorter than [2^31] characters, a dispatch throws exactly
    when [std::stoi] rejects the status-code token, and then it throws
    what [std::stoi] throws ([std::invalid_argument] or
    [std::out_of_range]); when [std::stoi] accepts the token the dispatch
    returns a Response with that code, whatever the rest of the block
    looks like: the header and cookie loops never throw and always
    finish. *)
Theorem execute_throws_only_from_stoi (v : verb) (r : Request.t) (h : CURL)
    (tr : transfer) (e : libcurl) :
  Request.curl r = Some h ->
  result tr = CURLE_OK ->
  Str.size (first_line (header_block tr)) < 2 ^ 31 ->
  match stoi (status_token (header_block tr)) with
  | Returned code =>
      exists resp,
        snd (snd (dispatch v r tr e)) = Returned resp /\
        Response.code resp = code /\
        Response.headers resp = fst (parsed_maps (header_block tr)) /\
        Response.cookies resp = snd (parsed_maps (header_block tr))
  | Thrown x =>
      snd (snd (dispatch v r tr e)) = Thrown x /\
      (x = std_invalid_argument \/ x = std_out_of_range)
  | Undefined | OutOfFuel => False
  end.
Proof.
  intros Hc Hok Hs. rewrite (dispatch_verb_eq v r h tr e Hc). cbn [snd].
  rewrite (received_ok tr Hok Hs).
  destruct (stoi_outcome (status_token (header_block tr))) as [[code ->]|[->| ->]];
    cbn [bind]; eauto 6.
Qed.

Lemma execute_throws_only_from_stoi_witness :
  exists resp,
    snd (snd (dispatch GET sample_request
                (deliver CURLE_OK
                   ("HTTP/1.1 200 OK" +:+ CRLF +:+ "no colon here" +:+ CRLF +:+ CRLF) "")
                libcurl_start)) = Returned resp /\
    Response.code resp = 200 /\
    Response.headers resp
    = fst (parsed_maps ("HTTP/1.1 200 OK" +:+ CRLF +:+ "no colon here" +:+ CRLF +:+ CRLF)) /\
    Response.cookies resp
    = snd (parsed_maps ("HTTP/1.1 200 OK" +:+ CRLF +:+ "no colon here" +:+ CRLF +:+ CRLF)).
Proof.
  exact (execute_throws_only_from_stoi GET sample_request curl_easy_init
           (deliver CURLE_OK
              ("HTTP/1.1 200 OK" +:+ CRLF +:+ "no colon here" +:+ CRLF +:+ CRLF) "")
           libcurl_start eq_refl eq_refl eq_refl).
Defined.

(** ** Status code and reason phrase *)

(** What [execute] makes of a status line [version code reason] that
    ends in CR LF: the code, and as the message the reason phrase with
    the carriage return still attached. *)
Lemma status_line_parse (v : verb) (r : Request.t) (h : CURL) (tr : transfer)
    (e : libcurl) (version codetext reason rest : string) (code : Z) :
  Request.curl r = Some h ->
  result tr = CURLE_OK ->
  header_block tr
  = version +:+ String SP (codetext +:+ String SP (reason +:+ String CR (String LF rest))) ->
  occurs SP version = false -> occurs LF version = false ->
  occurs SP codetext = false -> occurs LF codetext = false ->
  occurs LF reason = false ->
  Str.size (header_block tr) < 2 ^ 31 ->
  stoi codetext = Returned code ->
  exists resp,
    snd (snd (dispatch v r tr e)) = Returned resp /\
    Response.code resp = code /\
    Response.message resp = reason +:+ String CR "".
Proof.
  intros Hc Hok Hb Hv1 Hv2 Hc1 Hc2 Hr Hs Hcode.
  set (line := version +:+ String SP (codetext +:+ String SP (reason +:+ String CR ""))).
  assert (Hline : first_line (header_block tr) = line).
  { unfold first_line. rewrite Hb.
    replace (version +:+ String SP (codetext +:+ String SP (reason +:+ String CR (String LF rest))))
      with (line +:+ String LF rest).
    - rewrite read_until_found; [reflexivity|].
      subst line. clear - Hv2 Hc2 Hr.
      induction version as [|a s IH]; cbn.
      + induction codetext as [|b s2 IH2]; cbn.
        * induction reason as [|c s3 IH3]; cbn; [reflexivity|].
          cbn in Hr. apply orb_false_iff in Hr as [-> Hr]. cbn. now apply IH3.
        * cbn in Hc2. apply orb_false_iff in Hc2 as [-> Hc2]. cbn. now apply IH2.
      + cbn in Hv2. apply orb_false_iff in Hv2 as [-> Hv2]. cbn. now apply IH.
    - subst line. rewrite !append_assoc. cbn. rewrite !append_assoc. cbn.
      rewrite !append_assoc. reflexivity. }
  assert (Hsz : Str.size (first_line (header_block tr)) < 2 ^ 31).
  { rewrite Hline. subst line. rewrite Hb in Hs. unfold Str.size in *.
    rewrite !length_append in *. cbn [String.length] in *.
    rewrite !length_append in *. cbn [String.length] in *.
    rewrite !length_append in *. cbn [String.length] in *. lia. }
  pose proof (execute_header_ok := received_ok tr Hok Hsz).
  rewrite (dispatch_verb_eq v r h tr e Hc). cbn [snd].
  rewrite execute_header_ok. unfold status_token. rewrite Hline.
  assert (Ha : after_space line = codetext +:+ String SP (reason +:+ String CR "")).
  { unfold after_space, line. now rewrite read_until_found. }
  rewrite Ha.
  assert (Hb1 : before_space (codetext +:+ String SP (reason +:+ String CR "")) = codetext).
  { unfold before_space. now rewrite read_until_found. }
  assert (Ha2 : after_space (codetext +:+ String SP (reason +:+ String CR ""))
                = reason +:+ String CR "").
  { unfold after_space. now rewrite read_until_found. }
  rewrite Hb1, Ha2, Hcode. cbn [bind]. eexists. repeat split.
Qed.

(** C4, on the code: for the block ["HTTP/1.1 200 OK\r\n\r\n"] the
    message is ["OK\r"], the carriage return included, and for
    ["HTTP/1.1 200\r\n\r\n"], which has no reason phrase, the message is
    ["200\r"], not the empty text; the code is 200 in both. *)
Theorem status_message_keeps_carriage_return :
  (exists resp,
     snd (snd (Request.get sample_request
                 (deliver CURLE_OK ("HTTP/1.1 200 OK" +:+ CRLF +:+ CRLF) "") libcurl_start))
     = Returned resp /\
     Response.code resp = 200 /\
     Response.message resp = String "O" (String "K" (String CR ""))) /\
  (exists resp,
     snd (snd (Request.get sample_request
                 (deliver CURLE_OK ("HTTP/1.1 200" +:+ CRLF +:+ CRLF) "") libcurl_start))
     = Returned resp /\
     Response.code resp = 200 /\
     Response.message resp = String "2" (String "0" (String "0" (String CR "")))).
Proof. split; eexists; vm_compute; repeat split. Qed.

(** ** One header line *)

Lemma header_body_headers (line : string) (hs : headers_t) (cs : cookies_t)
    (ss1 ss2 ss3 : stringstream) (key v0 value : string) :
  getline (sstream line) "" ":" = (ss1, key) ->
  getline ss1 "" SP = (ss2, v0) ->
  getline ss2 v0 CR = (ss3, value) ->
  line_headers line hs cs = Some (StdMap.assign (transform_tolower key) value hs).
Proof.
  intros E1 E2 E3. unfold line_headers.
  destruct (header_body_total line (hs, cs)) as [[hs' cs'] Hb]. rewrite Hb.
  unfold Request.header_body in Hb. rewrite E1, E2, E3 in Hb.
  destruct (if String.eqb (transform_tolower key) "set-cookie" then _ else _);
    [|discriminate].
  inversion Hb. reflexivity.
Qed.

(** C5.  The step that is to consume one space reads up to the first
    space, wherever it is.  On the line ["Foo:bar\r"], which has no
    space after the colon, it reads the whole rest; the read of the
    value then fails and leaves the text as it is, so the value recorded
    is ["bar\r"], carriage return included: neither the empty value nor
    ["bar"].  On ["Baz:\r"] the value recorded is the carriage return.
    The usual line ["Name: value\r"] of the same block loses its
    carriage return. *)
Lemma header_without_space_keeps_value :
  exists resp,
    snd (snd (Request.get sample_request
                (deliver CURLE_OK
                   ("HTTP/1.1 200 OK" +:+ CRLF +:+ "Foo:bar" +:+ CRLF +:+
                    "Baz:" +:+ CRLF +:+ "Name: value" +:+ CRLF +:+ CRLF) "")
                libcurl_start)) = Returned resp /\
    StdMap.lookup "foo" (Response.headers resp)
    = Some (String "b" (String "a" (String "r" (String CR "")))) /\
    StdMap.lookup "foo" (Response.headers resp) <> Some "" /\
    StdMap.lookup "baz" (Response.headers resp) = Some (String CR "") /\
    StdMap.lookup "name" (Response.headers resp) = Some "value".
Proof. eexists. vm_compute. repeat split. discriminate. Qed.

(** A line whose text after the colon has no space at all: the second
    [getline] reads to the end, the third fails and leaves the value as
    it is, so the whole rest is recorded, carriage return included. *)
Lemma header_value_without_space (name rest : string) (hs : headers_t) (cs : cookies_t) :
  occurs ":" name = false ->
  occurs SP rest = false ->
  line_headers (name +:+ String ":" rest) hs cs
  = Some (StdMap.assign (transform_tolower name) rest hs).
Proof.
  intros Hn Hr.
  eapply header_body_headers.
  - apply getline_found. exact Hn.
  - apply getline_eof. exact Hr.
  - apply getline_after_eof.
Qed.

(** So in a block with CRLF line ends a line that ends at its colon is
    recorded with the carriage return as its value, and only a line
    with nothing at all behind the colon gets the empty value. *)
Example header_ending_at_colon :
  line_headers ("Baz:" +:+ String CR "") [] [] = Some [("baz", String CR "")] /\
  line_headers "Baz:" [] [] = Some [("baz", "")].
Proof.
  split.
  - apply (header_value_without_space "Baz" (String CR "")); reflexivity.
  - apply (header_value_without_space "Baz" ""); reflexivity.
Qed.

(** Where a space follows the first [':'] the loop body does what is
    asked of it: the line is split at that [':'] and recorded under the
    lowercased name, exactly the one space is dropped and the value is
    the text up to the next carriage return (or up to the end of the
    line when there is none), so a [':'] inside the value is kept. *)
Theorem header_line_split (name : string) (hs : headers_t) (cs : cookies_t) :
  occurs ":" name = false ->
  (forall value tail : string,
     occurs CR value = false ->
     line_headers (name +:+ String ":" (String SP (value +:+ String CR tail))) hs cs
     = Some (StdMap.assign (transform_tolower name) value hs)) /\
  (forall value : string,
     occurs CR value = false ->
     line_headers (name +:+ String ":" (String SP value)) hs cs
     = Some (StdMap.assign (transform_tolower name) value hs)).
Proof.
  intros Hn. split.
  - intros value tail Hv.
    eapply header_body_headers.
    + apply getline_found. exact Hn.
    + apply getline_skip.
    + apply getline_found. exact Hv.
  - intros value Hv.
    eapply header_body_headers.
    + apply getline_found. exact Hn.
    + apply getline_skip.
    + apply getline_eof. exact Hv.
Qed.

Lemma header_line_split_witness :
  line_headers ("Date: Mon, 01 Jan 2024 10:00:00 GMT" +:+ String CR "") [] []
  = Some [("date", "Mon, 01 Jan 2024 10:00:00 GMT")].
Proof.
  exact (proj1 (header_line_split "Date" [] [] eq_refl)
           "Mon, 01 Jan 2024 10:00:00 GMT" "" eq_refl).
Defined.

(** ** The cookie subparser *)

Lemma cookie_loop_end (en : cookie_end) (fuel : nat) (cookie : string)
    (cookies : cookies_t) :
  end_ok en = true ->
  (String.length (end_text en) < fuel)%nat ->
  Request.cookie_loop fuel (sstream (end_text en)) cookie cookies
  = Some (record_all (end_pairs en) cookies).
Proof.
  intros Hok Hf. destruct fuel as [|fuel]; [lia|].
  destruct en as [|k v|k]; cbn [end_text end_pairs record_all fold_left fst snd] in *.
  - reflexivity.
  - unfold pair_ok in Hok. cbn [fst snd] in Hok.
    apply andb_true_iff in Hok as [Hk Hv].
    apply negb_true_iff in Hk. apply negb_true_iff in Hv.
    cbn [Request.cookie_loop]. unfold sstream.
    rewrite (getline_found "=" k v cookie Hk). cbn [to_bool failbit negb].
    rewrite (getline_eof ";" v "" Hv).
    rewrite getline_after_eof.
    destruct fuel as [|fuel].
    { rewrite length_append in Hf. cbn [String.length] in Hf. lia. }
    cbn [Request.cookie_loop]. rewrite getline_after_eof. reflexivity.
  - apply andb_true_iff in Hok as [Hk Hne]. apply negb_true_iff in Hk.
    cbn [Request.cookie_loop]. unfold sstream.
    rewrite (getline_eof "=" k cookie Hk).
    destruct k as [|a k']; [discriminate|].
    cbn [to_bool failbit negb].
    rewrite !getline_after_eof.
    destruct fuel as [|fuel]; [cbn [String.length] in Hf; lia|].
    cbn [Request.cookie_loop]. rewrite getline_after_eof. reflexivity.
Qed.

Lemma cookie_loop_pairs (ps : list (string * string)) (en : cookie_end) :
  forallb pair_ok ps = true ->
  end_ok en = true ->
  forall (fuel : nat) (cookie : string) (cookies : cookies_t),
    (String.length (cookie_value ps en) < fuel)%nat ->
    Request.cookie_loop fuel (sstream (cookie_value ps en)) cookie cookies
    = Some (record_all (ps ++ end_pairs en) cookies).
Proof.
  intros Hps Hen. induction ps as [|[k v] ps IH]; intros fuel cookie cookies Hf.
  - cbn [cookie_value fold_right app] in *. now apply cookie_loop_end.
  - cbn [forallb] in Hps. apply andb_true_iff in Hps as [Hkv Hps].
    unfold pair_ok in Hkv. cbn [fst snd] in Hkv.
    apply andb_true_iff in Hkv as [Hk Hv].
    apply negb_true_iff in Hk. apply negb_true_iff in Hv.
    change (cookie_value ((k, v) :: ps) en)
      with (k +:+ String "=" (v +:+ String ";" (String SP (cookie_value ps en)))) in *.
    destruct fuel as [|fuel]; [lia|].
    cbn [Request.cookie_loop]. unfold sstream.
    rewrite (getline_found "=" k _ cookie Hk). cbn [to_bool failbit negb].
    rewrite (getline_found ";" v _ "" Hv).
    rewrite getline_skip.
    change (mk_stream (cookie_value ps en) false false) with (sstream (cookie_value ps en)).
    rewrite (IH Hps).
    + reflexivity.
    + rewrite !length_append in Hf. cbn [String.length] in Hf.
      rewrite !length_append in Hf. cbn [String.length] in Hf. lia.
Qed.

(** The loop body on a [Set-Cookie] line whose value is a sequence of
    pairs [k=v] separated by ["; "], possibly ended by a last pair or by
    a bare attribute: the value is recorded under ["set-cookie"] and
    every pair goes into the cookies map. *)
Lemma set_cookie_line (ps : list (string * string)) (en : cookie_end)
    (tail : string) (hs : headers_t) (cs : cookies_t) :
  forallb pair_ok ps = true ->
  end_ok en = true ->
  occurs CR (cookie_value ps en) = false ->
  Request.header_body
    ("Set-Cookie: " +:+ cookie_value ps en +:+ String CR tail) (hs, cs)
  = Some (StdMap.assign "set-cookie" (cookie_value ps en) hs,
          record_all (ps ++ end_pairs en) cs).
Proof.
  intros Hps Hen Hcr. unfold Request.header_body.
  change ("Set-Cookie: " +:+ cookie_value ps en +:+ String CR tail)
    with ("Set-Cookie" +:+ String ":" (String SP (cookie_value ps en +:+ String CR tail))).
  unfold sstream at 1.
  rewrite (getline_found ":" "Set-Cookie" _ "" eq_refl).
  rewrite getline_skip.
  rewrite (getline_found CR (cookie_value ps en) tail "" Hcr).
  replace (transform_tolower "Set-Cookie") with "set-cookie" by reflexivity.
  cbn [String.eqb Ascii.eqb Bool.eqb].
  rewrite (cookie_loop_pairs ps en Hps Hen) by lia.
  reflexivity.
Qed.

(** ** The header loop, line by line *)

Lemma lines_cons (t rest : string) :
  occurs LF t = false -> lines (t +:+ String LF rest) = t :: lines rest.
Proof.
  induction t as [|a t IH]; intros H.
  - cbn. reflexivity.
  - cbn [occurs] in H. apply orb_false_iff in H as [Ha Ht].
    cbn [String.append lines]. rewrite Ha, (IH Ht). reflexivity.
Qed.

Lemma lines_single (t : string) :
  occurs LF t = false -> t <> "" -> lines t = [t].
Proof.
  induction t as [|a t IH]; intros H Hne; [congruence|].
  cbn [occurs] in H. apply orb_false_iff in H as [Ha Ht].
  cbn [lines]. rewrite Ha.
  destruct t as [|b t']; [reflexivity|].
  rewrite IH; [reflexivity | exact Ht | discriminate].
Qed.

Lemma header_loop_lines (fuel : nat) (s line : string) (acc : headers_t * cookies_t) :
  (String.length s < fuel)%nat ->
  Request.header_loop fuel (sstream s) line acc
  = Some (fold_left header_step (lines s) acc).
Proof.
  revert s line acc. induction fuel as [|fuel IH]; intros s line acc Hf; [lia|].
  cbn [Request.header_loop]. unfold sstream.
  destruct (read_until LF s) as [t [rest|]] eqn:E.
  - apply read_until_some in E as [-> Ht].
    rewrite (getline_found LF t rest line Ht). cbn [to_bool failbit negb].
    rewrite (lines_cons t rest Ht). cbn [fold_left].
    destruct (header_body_total t acc) as [acc1 Hb].
    unfold header_step at 2. rewrite Hb.
    apply IH. rewrite length_append in Hf. cbn [String.length] in Hf. lia.
  - apply read_until_none in E as [-> Ht].
    rewrite (getline_eof LF t line Ht).
    destruct t as [|a t']; [reflexivity|].
    cbn [to_bool failbit negb].
    rewrite (lines_single (String a t') Ht) by discriminate. cbn [fold_left].
    destruct (header_body_total (String a t') acc) as [acc1 Hb].
    unfold header_step. rewrite Hb.
    destruct fuel as [|fuel]; [cbn [String.length] in Hf; lia|].
    cbn [Request.header_loop]. rewrite getline_after_eof. reflexivity.
Qed.

Lemma header_step_headers (line : string) (hs : headers_t) (cs : cookies_t) :
  fst (header_step (hs, cs) line)
  = StdMap.assign (fst (line_entry line)) (snd (line_entry line)) hs.
Proof.
  unfold header_step, line_entry.
  destruct (getline (sstream line) "" ":") as [ss1 key] eqn:E1.
  destruct (getline ss1 "" SP) as [ss2 v0] eqn:E2.
  destruct (getline ss2 v0 CR) as [ss3 value] eqn:E3.
  pose proof (header_body_headers line hs cs _ _ _ _ _ _ E1 E2 E3) as H.
  unfold line_headers in H.
  destruct (Request.header_body line (hs, cs)) as [[hs' cs']|]; [|discriminate].
  cbn [option_map fst] in H. inversion H. reflexivity.
Qed.

Lemma fold_header_step (ls : list string) (hs : headers_t) (cs : cookies_t) :
  fst (fold_left header_step ls (hs, cs)) = headers_of_lines ls hs.
Proof.
  revert hs cs. induction ls as [|l ls IH]; intros hs cs; [reflexivity|].
  cbn [fold_left]. unfold headers_of_lines. cbn [fold_left].
  pose proof (header_step_headers l hs cs) as H.
  destruct (header_step (hs, cs) l) as [hs1 cs1]. cbn [fst] in H. subst hs1.
  apply IH.
Qed.

Lemma parsed_maps_lines (block : string) :
  fst (parsed_maps block) = headers_of_lines (lines block) [].
Proof.
  unfold parsed_maps. rewrite header_loop_lines by lia. apply fold_header_step.
Qed.

(** ** Looking up what was assigned *)

Lemma compare_refl (k : string) : String.compare k k = Eq.
Proof.
  induction k as [|a k IH]; cbn [String.compare]; [reflexivity|].
  unfold Ascii.compare. now rewrite N.compare_refl.
Qed.

Lemma lookup_assign_same (k v : string) (m : headers_t) :
  StdMap.lookup k (StdMap.assign k v m) = Some v.
Proof.
  induction m as [|[k' v'] m IH]; cbn [StdMap.assign StdMap.lookup].
  - now rewrite compare_refl.
  - destruct (String.compare k k') eqn:E; cbn [StdMap.lookup].
    + now rewrite E.
    + now rewrite compare_refl.
    + now rewrite E.
Qed.

Lemma lookup_assign_other (k k2 v : string) (m : headers_t) :
  k <> k2 ->
  StdMap.lookup k (StdMap.assign k2 v m) = StdMap.lookup k m.
Proof.
  intros Hne.
  assert (Hc : String.compare k k2 <> Eq).
  { intros H. now apply String.compare_eq_iff in H. }
  induction m as [|[k' v'] m IH]; cbn [StdMap.assign StdMap.lookup].
  - destruct (String.compare k k2); [congruence | reflexivity | reflexivity].
  - destruct (String.compare k2 k') eqn:E; cbn [StdMap.lookup].
    + apply String.compare_eq_iff in E. subst k'.
      destruct (String.compare k k2); [congruence | reflexivity | reflexivity].
    + destruct (String.compare k k2); [congruence | reflexivity | reflexivity].
    + destruct (String.compare k k'); [reflexivity | exact IH | exact IH].
Qed.

(** [m[k] = v] keeps the keys in increasing order. *)
Lemma assign_ordered (k v : string) (m : headers_t) :
  StdMap.ordered m = true -> StdMap.ordered (StdMap.assign k v m) = true.
Proof.
  induction m as [|[k1 v1] m IH]; intros Hm; [reflexivity|].
  cbn [StdMap.assign]. destruct (String.compare k k1) eqn:E.
  - exact Hm.
  - cbn [StdMap.ordered]. rewrite E. exact Hm.
  - assert (E' : String.compare k1 k = Lt).
    { rewrite String.compare_antisym, E. reflexivity. }
    destruct m as [|[k2 v2] m2].
    + cbn [StdMap.assign StdMap.ordered]. now rewrite E'.
    + cbn [StdMap.ordered] in Hm.
      destruct (String.compare k1 k2) eqn:E12; try discriminate.
      specialize (IH Hm). cbn [StdMap.assign] in *.
      destruct (String.compare k k2) eqn:E2.
      * cbn [StdMap.ordered] in *. now rewrite E12.
      * cbn [StdMap.ordered] in *. now rewrite E'.
      * cbn [StdMap.ordered] in *. now rewrite E12.
Qed.

Lemma lookup_headers_of_lines (key value : string) (ls : list string) (hs : headers_t) :
  (forall l, In l ls -> fst (line_entry l) = key -> snd (line_entry l) = value) ->
  (StdMap.lookup key hs = Some value \/ exists l, In l ls /\ fst (line_entry l) = key) ->
  StdMap.lookup key (headers_of_lines ls hs) = Some value.
Proof.
  revert hs. induction ls as [|l ls IH]; intros hs Hall Hex.
  - destruct Hex as [H|[l [[] _]]]. exact H.
  - unfold headers_of_lines. cbn [fold_left]. apply IH.
    + intros l' Hin. apply Hall. now right.
    + destruct (string_dec (fst (line_entry l)) key) as [Heq|Hne].
      * left. rewrite Heq. rewrite (Hall l (or_introl eq_refl) Heq).
        apply lookup_assign_same.
      * destruct Hex as [H|[l' [[->|Hin] Hk]]].
        -- left. rewrite lookup_assign_other by congruence. exact H.
        -- contradiction.
        -- right. eauto.
Qed.

(** ** Lines without a colon *)

Lemma tolower_CR (c : ascii) : Ascii.eqb (tolower c) CR = Ascii.eqb c CR.
Proof. destruct c as [[] [] [] [] [] [] [] []]; reflexivity. Qed.

Lemma occurs_CR_tolower (s : string) :
  occurs CR (transform_tolower s) = occurs CR s.
Proof.
  induction s as [|a s IH]; cbn [transform_tolower occurs]; [reflexivity|].
  now rewrite tolower_CR, IH.
Qed.

Lemma line_entry_key (line : string) :
  fst (line_entry line) = transform_tolower (name_of line).
Proof.
  unfold line_entry, name_of, getline at 1.
  cbn [good sstream eofbit failbit negb andb rdbuf].
  destruct (read_until ":" line) as [t [rest|]];
    destruct (getline _ "" SP) as [ss2 v0];
    destruct (getline ss2 v0 CR) as [ss3 value]; reflexivity.
Qed.

Lemma line_entry_no_colon (line : string) :
  occurs ":" line = false -> line_entry line = (transform_tolower line, "").
Proof.
  intros H. unfold line_entry, sstream.
  rewrite (getline_eof ":" line "" H). rewrite !getline_after_eof. reflexivity.
Qed.

Lemma first_line_in_lines (block : string) :
  block <> "" -> In (first_line block) (lines block).
Proof.
  intros Hne. unfold first_line.
  destruct (read_until LF block) as [t [rest|]] eqn:E; cbn [fst].
  - apply read_until_some in E as [-> Ht]. rewrite lines_cons by exact Ht. now left.
  - apply read_until_none in E as [-> Ht]. rewrite lines_single by assumption. now left.
Qed.

Lemma colon_free_line_recorded (ls : list string) (line : string) :
  (forall l, In l ls -> occurs ":" l = true -> occurs CR (name_of l) = false) ->
  In line ls ->
  occurs ":" line = false ->
  occurs CR line = true ->
  StdMap.lookup (transform_tolower line) (headers_of_lines ls []) = Some "".
Proof.
  intros Hnames Hin Hcolon Hcr.
  apply lookup_headers_of_lines.
  - intros l Hl Hkey.
    destruct (occurs ":" l) eqn:El.
    + exfalso. specialize (Hnames l Hl El).
      rewrite line_entry_key in Hkey.
      assert (H : occurs CR (transform_tolower (name_of l))
                  = occurs CR (transform_tolower line)) by now rewrite Hkey.
      rewrite !occurs_CR_tolower in H. congruence.
    + now rewrite line_entry_no_colon.
  - right. exists line. split; [exact Hin|].
    now rewrite line_entry_no_colon.
Qed.

Lemma received_returned_maps (tr : transfer) (resp : Response.t) :
  result tr = CURLE_OK ->
  received_response tr = Returned resp ->
  Response.headers resp = fst (parsed_maps (header_block tr)) /\
  Response.cookies resp = snd (parsed_maps (header_block tr)).
Proof.
  intros Hok. unfold received_response, Request.execute.
  cbn [Request.curl Request.curl_assigned Request.initalize handle_available
       handle_granted Request.with_curl fst curl_easy_perform
       CURLOPT_HTTPHEADER curl_easy_init snd].
  rewrite Hok. cbn [Z.eqb CURLE_OK negb].
  fold (header_block tr).
  pose proof (getline_first (header_block tr) "") as Hl.
  destruct (getline (sstream (header_block tr)) "" LF) as [ss line].
  cbn [snd] in Hl. subst line.
  repeat match goal with
         | |- bind ?m _ = Returned _ -> _ =>
             destruct m; cbn [bind]; try discriminate
         end.
  unfold parsed_maps.
  destruct (Request.header_loop _ _ _ _) as [[hs cs]|]; [|discriminate].
  intros H. inversion H. split; reflexivity.
Qed.

Lemma received_returned_headers (tr : transfer) (resp : Response.t) :
  result tr = CURLE_OK ->
  received_response tr = Returned resp ->
  Response.headers resp = fst (parsed_maps (header_block tr)).
Proof. intros Hok Hret. exact (proj1 (received_returned_maps tr resp Hok Hret)). Qed.

(** C10.  On a completed transfer for which [execute] returns, the
    header loop has run over every line of the header block, the status
    line and the blank last line included.  So, when the status line has
    no [':'] and ends in a carriage return, the headers map holds the
    lowercased status line as a key with the empty value, and likewise
    the blank line ["\r"] when the block has one.  (Header names are
    taken to be free of carriage returns, as in any CR LF block.) *)
Theorem status_line_recorded_as_header (v : verb) (r : Request.t) (h : CURL)
    (tr : transfer) (e : libcurl) (resp : Response.t) :
  Request.curl r = Some h ->
  result tr = CURLE_OK ->
  snd (snd (dispatch v r tr e)) = Returned resp ->
  occurs ":" (first_line (header_block tr)) = false ->
  occurs CR (first_line (header_block tr)) = true ->
  (forall l, In l (lines (header_block tr)) ->
             occurs ":" l = true -> occurs CR (name_of l) = false) ->
  Response.headers resp = headers_of_lines (lines (header_block tr)) [] /\
  In (first_line (header_block tr)) (lines (header_block tr)) /\
  StdMap.lookup (transform_tolower (first_line (header_block tr))) (Response.headers resp)
  = Some "" /\
  (In (String CR "") (lines (header_block tr)) ->
   StdMap.lookup (String CR "") (Response.headers resp) = Some "").
Proof.
  intros Hc Hok Hret Hcolon Hcr Hnames.
  rewrite (dispatch_verb_eq v r h tr e Hc) in Hret. cbn [snd] in Hret.
  pose proof (received_returned_headers tr resp Hok Hret) as Hh.
  rewrite parsed_maps_lines in Hh.
  assert (Hin : In (first_line (header_block tr)) (lines (header_block tr))).
  { apply first_line_in_lines. intros Hempty. rewrite Hempty in Hcr. discriminate. }
  rewrite Hh. repeat split.
  - exact Hin.
  - now apply colon_free_line_recorded.
  - intros Hblank.
    apply (colon_free_line_recorded _ (String CR "") Hnames Hblank); reflexivity.
Qed.

Lemma status_line_recorded_as_header_witness :
  exists resp,
    snd (snd (dispatch GET sample_request
                (deliver CURLE_OK
                   ("HTTP/1.1 200 OK" +:+ CRLF +:+
                    "Content-Type: application/json" +:+ CRLF +:+ CRLF) "{}")
                libcurl_start)) = Returned resp /\
    StdMap.lookup ("http/1.1 200 ok" +:+ String CR "") (Response.headers resp) = Some "" /\
    StdMap.lookup (String CR "") (Response.headers resp) = Some "".
Proof.
  eexists. split; [vm_compute; reflexivity|].
  pose proof (status_line_recorded_as_header GET sample_request curl_easy_init
                (deliver CURLE_OK
                   ("HTTP/1.1 200 OK" +:+ CRLF +:+
                    "Content-Type: application/json" +:+ CRLF +:+ CRLF) "{}")
                libcurl_start _ eq_refl eq_refl eq_refl eq_refl eq_refl) as H.
  destruct H as (_ & _ & Hstatus & Hblank).
  - intros l Hl Hcolon. vm_compute in Hl.
    destruct Hl as [<-|[<-|[<-|[]]]]; try discriminate; reflexivity.
  - split; [exact Hstatus|]. apply Hblank. vm_compute. auto.
Defined.

(** ** The cookies of a Response *)

Lemma parsed_maps_fold (block : string) :
  parsed_maps block = fold_left header_step (lines block) ([], []).
Proof. unfold parsed_maps. now rewrite header_loop_lines by lia. Qed.

(** A line that is not a [Set-Cookie] line leaves the cookies alone. *)
Lemma header_step_cookies_kept (line : string) (hs : headers_t) (cs : cookies_t) :
  fst (line_entry line) <> "set-cookie" ->
  snd (header_step (hs, cs) line) = cs.
Proof.
  unfold header_step, Request.header_body, line_entry.
  destruct (getline (sstream line) "" ":") as [ss1 key].
  destruct (getline ss1 "" SP) as [ss2 v0].
  destruct (getline ss2 v0 CR) as [ss3 value].
  cbn [fst]. intros Hne.
  destruct (String.eqb_spec (transform_tolower key) "set-cookie") as [Heq|_];
    [contradiction | reflexivity].
Qed.

Lemma fold_header_step_cookies_kept (ls : list string) (hs : headers_t) (cs : cookies_t) :
  (forall l, In l ls -> fst (line_entry l) <> "set-cookie") ->
  snd (fold_left header_step ls (hs, cs)) = cs.
Proof.
  revert hs cs. induction ls as [|l ls IH]; intros hs cs Hall; [reflexivity|].
  cbn [fold_left].
  pose proof (header_step_cookies_kept l hs cs (Hall l (or_introl eq_refl))) as H.
  destruct (header_step (hs, cs) l) as [hs1 cs1]. cbn [snd] in H. subst cs1.
  apply IH. intros l' Hin. apply Hall. now right.
Qed.

(** C6, as stated, fails: not every pair of a [Set-Cookie] value is
    recorded.  In ["a=1;b=2"], where no space follows the [';'], the
    step that skips one space reads on to the end and the pair [b=2] is
    lost; in ["sid=abc; Secure; Path=/"] the bare attribute [Secure] is
    read as the start of the next key, so neither [Secure] nor [Path] is
    a key of the cookies map. *)
Lemma set_cookie_pairs_not_all_recorded :
  (exists resp,
     snd (snd (dispatch GET sample_request
                 (deliver CURLE_OK
                    ("HTTP/1.1 200 OK" +:+ CRLF +:+
                     "Set-Cookie: a=1;b=2" +:+ CRLF +:+ CRLF) "")
                 libcurl_start)) = Returned resp /\
     Response.cookies resp = [("a", "1")] /\
     StdMap.lookup "b" (Response.cookies resp) = None) /\
  (exists resp,
     snd (snd (dispatch GET sample_request
                 (deliver CURLE_OK
                    ("HTTP/1.1 200 OK" +:+ CRLF +:+
                     "Set-Cookie: sid=abc; Secure; Path=/" +:+ CRLF +:+ CRLF) "")
                 libcurl_start)) = Returned resp /\
     Response.cookies resp = [("Secure; Path", "/"); ("sid", "abc")] /\
     StdMap.lookup "Path" (Response.cookies resp) = None /\
     StdMap.lookup "Secure" (Response.cookies resp) = None).
Proof. split; eexists; vm_compute; repeat split. Qed.

(** C6, amended.  A [Set-Cookie] value that is a sequence of pairs
    [k=v] separated by ["; "] (a key is the text up to the ['='], a
    value the text up to the [';']), possibly ended by a last pair or by
    a bare attribute, is read pair by pair: the loop body records every
    pair, the attributes of the form [k=v] among them, in the cookies
    map, and a bare attribute at the end gets the empty value.  A key
    may hold any text without ['=']: a bare attribute that stands before
    a pair is part of that pair's key.  When the header block of a
    completed transfer has that line as its only [Set-Cookie] line, the
    cookies of the Response are exactly these pairs.  Values in which a
    [';'] is not followed by a space are not part of the statement. *)
Theorem set_cookie_pairs_recorded (ps : list (string * string)) (en : cookie_end) :
  forallb pair_ok ps = true ->
  end_ok en = true ->
  occurs CR (cookie_value ps en) = false ->
  (forall (tail : string) (hs : headers_t) (cs : cookies_t),
     Request.header_body
       ("Set-Cookie: " +:+ cookie_value ps en +:+ String CR tail) (hs, cs)
     = Some (StdMap.assign "set-cookie" (cookie_value ps en) hs,
             record_all (ps ++ end_pairs en) cs)) /\
  (forall (v : verb) (r : Request.t) (h : CURL) (tr : transfer) (e : libcurl)
          (resp : Response.t) (before after : list string),
     Request.curl r = Some h ->
     result tr = CURLE_OK ->
     snd (snd (dispatch v r tr e)) = Returned resp ->
     lines (header_block tr)
     = before ++ ("Set-Cookie: " +:+ cookie_value ps en +:+ String CR "") :: after ->
     (forall l, In l (before ++ after) -> fst (line_entry l) <> "set-cookie") ->
     Response.cookies resp = record_all (ps ++ end_pairs en) []).
Proof.
  intros Hps Hen Hcr. split.
  - intros tail hs cs. now apply set_cookie_line.
  - intros v r h tr e resp before after Hc Hok Hret Hlines Hother.
    rewrite (dispatch_verb_eq v r h tr e Hc) in Hret. cbn [snd] in Hret.
    destruct (received_returned_maps tr resp Hok Hret) as [_ Hcookies].
    rewrite Hcookies, parsed_maps_fold, Hlines, fold_left_app. cbn [fold_left].
    pose proof (fold_header_step_cookies_kept before [] []
                  (fun l Hin => Hother l (in_or_app _ _ _ (or_introl Hin)))) as Hb.
    set (acc := fold_left header_step before _) in *.
    destruct acc as [hs0 cs0]. cbn [snd] in Hb. subst cs0.
    unfold header_step at 2.
    rewrite (set_cookie_line ps en "" hs0 [] Hps Hen Hcr).
    apply fold_header_step_cookies_kept.
    intros l Hin. apply Hother. apply in_or_app. now right.
Qed.

Lemma set_cookie_pairs_recorded_witness :
  exists resp,
    snd (snd (dispatch GET sample_request
                (deliver CURLE_OK
                   ("HTTP/1.1 200 OK" +:+ CRLF +:+
                    "Set-Cookie: sid=abc; Path=/; HttpOnly" +:+ CRLF +:+ CRLF) "")
                libcurl_start)) = Returned resp /\
    Response.cookies resp = [("HttpOnly", ""); ("Path", "/"); ("sid", "abc")].
Proof.
  eexists. split; [vm_compute; reflexivity|].
  refine (proj2 (set_cookie_pairs_recorded [("sid", "abc"); ("Path", "/")]
                   (EndFlag "HttpOnly") eq_refl eq_refl eq_refl)
            GET sample_request curl_easy_init
            (deliver CURLE_OK
               ("HTTP/1.1 200 OK" +:+ CRLF +:+
                "Set-Cookie: sid=abc; Path=/; HttpOnly" +:+ CRLF +:+ CRLF) "")
            libcurl_start _
            ["HTTP/1.1 200 OK" +:+ String CR ""] [String CR ""]
            eq_refl eq_refl eq_refl _ _).
  - vm_compute. reflexivity.
  - intros l Hin. cbn [app In] in Hin.
    destruct Hin as [<-|[<-|[]]]; vm_compute; discriminate.
Defined.

(** ** Counting a word in the body *)

Section Counting.

Variable word : string.
Hypothesis word_not_empty : word <> "".

Lemma drop_append (pre s : string) : StrWord.drop (String.length pre) (pre +:+ s) = s.
Proof. induction pre as [|a pre IH]; [reflexivity | exact IH]. Qed.

Lemma occurrences_from_drop (w : string) (k : nat) (s : string) :
  occurrences_from w k s = occurrences_from w 0 (StrWord.drop k s).
Proof.
  revert k. induction s as [|a s IH]; intros k.
  - destruct k; reflexivity.
  - destruct k as [|k]; [reflexivity|]. cbn [occurrences_from StrWord.drop]. apply IH.
Qed.

Lemma prefix_split (w s : string) :
  String.prefix w s = true -> exists s2, s = w +:+ s2.
Proof.
  revert s. induction w as [|a w IH]; intros s H.
  - exists s. reflexivity.
  - destruct s as [|b s]; [discriminate|]. cbn [String.prefix] in H.
    destruct (ascii_dec a b) as [->|]; [|discriminate].
    destruct (IH s H) as [s2 ->]. exists s2. reflexivity.
Qed.

Lemma prefix_empty : String.prefix word "" = false.
Proof. destruct word; [congruence | reflexivity]. Qed.

Lemma occurrences_match (s2 : string) :
  String.prefix word (word +:+ s2) = true ->
  occurrences_from word 0 (word +:+ s2) = S (occurrences_from word 0 s2).
Proof.
  intros Hp. destruct word as [|a w] eqn:Ew; [congruence|].
  cbn [String.append occurrences_from]. cbn [String.append] in Hp. rewrite Hp.
  rewrite occurrences_from_drop. cbn [String.length].
  replace (S (String.length w) - 1)%nat with (String.length w) by lia.
  rewrite drop_append. reflexivity.
Qed.

Lemma find_at (pre s : string) :
  StrWord.find (pre +:+ s) word (Str.size pre)
  = StrWord.search word s (Str.size pre).
Proof.
  unfold StrWord.find, Str.size. rewrite length_append.
  destruct (Z.ltb_spec (Z.of_nat (String.length pre + String.length s))
              (Z.of_nat (String.length pre))); [lia|].
  now rewrite Nat2Z.id, drop_append.
Qed.

(** The loop of [GetGroupsCount], resumed at the end of [pre]. *)
Lemma count_loop_occurrences (n : nat) :
  forall (pre s : string) (fuel : nat) (count : Z),
    (String.length s <= n)%nat ->
    (String.length s < fuel)%nat ->
    Str.size (pre +:+ s) < 2 ^ 31 ->
    0 <= count ->
    count + Str.size s <= INT_MAX ->
    RoPP.User.count_loop fuel (pre +:+ s) word
      (StrWord.find (pre +:+ s) word (Str.size pre)) count
    = Returned (count + Z.of_nat (occurrences_from word 0 s)).
Proof.
  induction n as [n IH] using lt_wf_ind.
  intros pre s fuel count Hn Hf Hsz Hc Hmax.
  rewrite find_at.
  destruct fuel as [|fuel]; [lia|].
  destruct s as [|a s'].
  - cbn [StrWord.search]. rewrite prefix_empty.
    cbn [RoPP.User.count_loop]. rewrite Z.eqb_refl.
    cbn [occurrences_from]. f_equal. lia.
  - cbn [StrWord.search].
    destruct (String.prefix word (String a s')) eqn:Hp.
    + destruct (prefix_split _ _ Hp) as [s2 Hs].
      rewrite Hs in *. clear Hs.
      assert (Hw : (1 <= String.length word)%nat).
      { destruct word; [congruence | cbn; lia]. }
      assert (Hlen : Str.size (pre +:+ word +:+ s2)
                     = Str.size pre + Str.size word + Str.size s2).
      { unfold Str.size. rewrite !length_append. lia. }
      assert (Hlen2 : Str.size (word +:+ s2) = Str.size word + Str.size s2).
      { unfold Str.size. rewrite !length_append. lia. }
      assert (Hnn : 0 <= Str.size pre /\ 0 <= Str.size s2 /\ 1 <= Str.size word).
      { unfold Str.size. lia. }
      cbn [RoPP.User.count_loop].
      destruct (Z.eqb_spec (Str.size pre) npos) as [Heq|_];
        [unfold npos in Heq; lia|].
      destruct (Z.ltb_spec count INT_MAX) as [_|Hge]; [|lia].
      rewrite Z.mod_small by lia.
      replace (Str.size pre + Str.size word) with (Str.size (pre +:+ word))
        by (unfold Str.size; rewrite length_append; lia).
      rewrite <- append_assoc.
      rewrite (IH (String.length s2)).
      * rewrite occurrences_match by exact Hp. f_equal. lia.
      * rewrite length_append in Hn. lia.
      * lia.
      * rewrite length_append in Hf. lia.
      * rewrite append_assoc. exact Hsz.
      * lia.
      * lia.
    + replace (Str.size pre + 1) with (Str.size (pre +:+ String a ""))
        by (unfold Str.size; rewrite length_append; cbn [String.length]; lia).
      rewrite <- find_at.
      replace ((pre +:+ String a "") +:+ s') with (pre +:+ String a s')
        by (rewrite append_assoc; reflexivity).
      replace (pre +:+ String a s') with ((pre +:+ String a "") +:+ s')
        by (rewrite append_assoc; reflexivity).
      rewrite (IH (String.length s')).
      * cbn [occurrences_from]. rewrite Hp. reflexivity.
      * cbn [String.length] in Hn. lia.
      * lia.
      * cbn [String.length] in Hf. lia.
      * rewrite append_assoc. exact Hsz.
      * exact Hc.
      * unfold Str.size in *. cbn [String.length] in Hmax. lia.
Qed.

End Counting.

(** ** The facade *)

Lemma initalize_curl (r : Request.t) :
  Request.curl (fst (Request.initalize r)) = Some curl_easy_init.
Proof. reflexivity. Qed.

Lemma facade_request_curl (url : string) :
  Request.curl (facade_request url) = Some curl_easy_init.
Proof. reflexivity. Qed.

Lemma facade_get (url : string) (tr : transfer) (e : libcurl) :
  snd (snd (Request.get (facade_request url) tr e)) = received_response tr.
Proof.
  change (Request.get (facade_request url) tr e)
    with (dispatch GET (facade_request url) tr e).
  rewrite (dispatch_verb_eq GET (facade_request url) curl_easy_init tr e
             (facade_request_curl url)).
  reflexivity.
Qed.

Lemma GetGroupsCount_eq (UID : RoPP.User.UID_t) (tr : transfer) (e : libcurl) :
  snd (RoPP.User.GetGroupsCount UID tr e)
  = (let* res := received_response tr in
     RoPP.User.count_loop (S (String.length (Response.data res))) (Response.data res)
       "group" (StrWord.find (Response.data res) "group" 0) 0).
Proof.
  unfold RoPP.User.GetGroupsCount.
  fold (facade_request
          (("https://groups.roblox.com/v1/users/" +:+ to_string UID) +:+ "/groups/roles")).
  rewrite <- facade_get
    with (url := ("https://groups.roblox.com/v1/users/" +:+ to_string UID) +:+ "/groups/roles")
         (e := e).
  destruct (Request.get _ tr e) as [req [e' res]]. reflexivity.
Qed.

Lemma received_data (tr : transfer) (resp : Response.t) :
  received_response tr = Returned resp ->
  Response.data resp = (if result tr =? CURLE_OK then body_text tr else "").
Proof.
  unfold received_response, Request.execute.
  cbn [Request.curl Request.curl_assigned Request.initalize handle_available
       handle_granted Request.with_curl fst curl_easy_perform
       CURLOPT_HTTPHEADER curl_easy_init snd].
  destruct (result tr =? CURLE_OK); cbn [negb].
  - fold (header_block tr). fold (body_text tr).
    destruct (getline (sstream (header_block tr)) "" LF) as [ss line].
    repeat match goal with
           | |- bind ?m _ = Returned _ -> _ =>
               destruct m; cbn [bind]; try discriminate
           end.
    destruct (Request.header_loop _ _ _ _) as [[hs cs]|]; [|discriminate].
    intros H. inversion H. reflexivity.
  - intros H. inversion H. reflexivity.
Qed.

(** C9.  Whenever the dispatch returns a Response, [GetGroupsCount]
    returns the number of non-overlapping occurrences of the text
    ["group"] in the Response's body text, which on a completed transfer
    is the raw body as delivered.  The body is scanned as text and never
    decoded.  (Bodies are shorter than [2^31] bytes, so that the [int]
    counter cannot overflow.) *)
Theorem GetGroupsCount_counts_substring (UID : RoPP.User.UID_t) (tr : transfer)
    (e : libcurl) (resp : Response.t) :
  Str.size (body_text tr) < 2 ^ 31 ->
  received_response tr = Returned resp ->
  snd (RoPP.User.GetGroupsCount UID tr e)
  = Returned (Z.of_nat (occurrences "group" (Response.data resp))) /\
  (result tr = CURLE_OK -> Response.data resp = body_text tr).
Proof.
  intros Hsz Hret. pose proof (received_data tr resp Hret) as Hd.
  split.
  - rewrite GetGroupsCount_eq, Hret. cbn [bind].
    assert (Hs : Str.size (Response.data resp) < 2 ^ 31).
    { rewrite Hd. destruct (result tr =? CURLE_OK); [exact Hsz | reflexivity]. }
    pose proof (count_loop_occurrences "group" ltac:(discriminate)
                  (String.length (Response.data resp)) "" (Response.data resp)
                  (S (String.length (Response.data resp))) 0) as H.
    cbn [String.append] in H. change (Str.size "") with 0 in H.
    rewrite H.
    + reflexivity.
    + lia.
    + lia.
    + exact Hs.
    + lia.
    + unfold INT_MAX. lia.
  - intros Hok. rewrite Hd, Hok. reflexivity.
Qed.

Lemma GetGroupsCount_counts_substring_witness :
  snd (RoPP.User.GetGroupsCount 1%N
         (deliver CURLE_OK ("HTTP/1.1 200 OK" +:+ CRLF +:+ CRLF) one_group_body)
         libcurl_start)
  = Returned 2.
Proof.
  assert (Hsz : Str.size (body_text (deliver CURLE_OK ("HTTP/1.1 200 OK" +:+ CRLF +:+ CRLF)
                                       one_group_body)) < 2 ^ 31)
    by (vm_compute; reflexivity).
  assert (Hret : exists resp,
             received_response (deliver CURLE_OK ("HTTP/1.1 200 OK" +:+ CRLF +:+ CRLF)
                                  one_group_body) = Returned resp /\
             Z.of_nat (occurrences "group" (Response.data resp)) = 2)
    by (eexists; vm_compute; split; reflexivity).
  destruct Hret as [resp [Hret Hocc]].
  rewrite <- Hocc.
  exact (proj1 (GetGroupsCount_counts_substring 1%N _ libcurl_start resp Hsz Hret)).
Defined.

(** ** The count operations on a failed transfer *)

Section FacadeFailure.

Context {J : JsonLibrary}.

Lemma GetFriendsCount_eq (UID : RoPP.User.UID_t) (tr : transfer) (e : libcurl) :
  snd (RoPP.User.GetFriendsCount UID tr e)
  = (let* res := received_response tr in decode_count (Response.data res)).
Proof.
  unfold RoPP.User.GetFriendsCount.
  fold (facade_request
          (("https://friends.roblox.com/v1/users/" +:+ to_string UID) +:+ "/friends/count")).
  rewrite <- facade_get
    with (url := ("https://friends.roblox.com/v1/users/" +:+ to_string UID) +:+ "/friends/count")
         (e := e).
  destruct (Request.get _ tr e) as [req [e' res]]. reflexivity.
Qed.

Lemma GetFollowersCount_eq (UID : RoPP.User.UID_t) (tr : transfer) (e : libcurl) :
  snd (RoPP.User.GetFollowersCount UID tr e)
  = (let* res := received_response tr in decode_count (Response.data res)).
Proof.
  unfold RoPP.User.GetFollowersCount.
  fold (facade_request
          (("https://friends.roblox.com/v1/users/" +:+ to_string UID) +:+ "/followers/count")).
  rewrite <- facade_get
    with (url := ("https://friends.roblox.com/v1/users/" +:+ to_string UID) +:+ "/followers/count")
         (e := e).
  destruct (Request.get _ tr e) as [req [e' res]]. reflexivity.
Qed.

Lemma GetFollowingsCount_eq (UID : RoPP.User.UID_t) (tr : transfer) (e : libcurl) :
  snd (RoPP.User.GetFollowingsCount UID tr e)
  = (let* res := received_response tr in decode_count (Response.data res)).
Proof.
  unfold RoPP.User.GetFollowingsCount.
  fold (facade_request
          (("https://friends.roblox.com/v1/users/" +:+ to_string UID) +:+ "/followings/count")).
  rewrite <- facade_get
    with (url := ("https://friends.roblox.com/v1/users/" +:+ to_string UID) +:+ "/followings/count")
         (e := e).
  destruct (Request.get _ tr e) as [req [e' res]]. reflexivity.
Qed.

(** C1, amended.  No count operation looks at the engine's code.  On a
    failed transfer the body the facade reads is empty, so
    [GetGroupsCount] returns the count 0, and [GetFriendsCount],
    [GetFollowersCount] and [GetFollowingsCount] return or throw whatever
    the JSON decoder makes of the empty text.  Each outcome is the one
    the operation has on a completed transfer with an empty body, and it
    does not depend on the code the engine returned. *)
Theorem facade_ignores_transport_failure (UID : RoPP.User.UID_t) (tr : transfer)
    (e : libcurl) :
  result tr <> CURLE_OK ->
  (snd (RoPP.User.GetGroupsCount UID tr e) = Returned 0 /\
   snd (RoPP.User.GetFriendsCount UID tr e) = decode_count "" /\
   snd (RoPP.User.GetFollowersCount UID tr e) = decode_count "" /\
   snd (RoPP.User.GetFollowingsCount UID tr e) = decode_count "") /\
  (forall (completed : transfer) (resp : Response.t),
     result completed = CURLE_OK ->
     body_text completed = "" ->
     received_response completed = Returned resp ->
     snd (RoPP.User.GetGroupsCount UID completed e)
     = snd (RoPP.User.GetGroupsCount UID tr e) /\
     snd (RoPP.User.GetFriendsCount UID completed e)
     = snd (RoPP.User.GetFriendsCount UID tr e) /\
     snd (RoPP.User.GetFollowersCount UID completed e)
     = snd (RoPP.User.GetFollowersCount UID tr e) /\
     snd (RoPP.User.GetFollowingsCount UID completed e)
     = snd (RoPP.User.GetFollowingsCount UID tr e)).
Proof.
  intros Hne.
  assert (Hfail : snd (RoPP.User.GetGroupsCount UID tr e) = Returned 0 /\
                  snd (RoPP.User.GetFriendsCount UID tr e) = decode_count "" /\
                  snd (RoPP.User.GetFollowersCount UID tr e) = decode_count "" /\
                  snd (RoPP.User.GetFollowingsCount UID tr e) = decode_count "").
  { rewrite GetGroupsCount_eq, GetFriendsCount_eq, GetFollowersCount_eq,
      GetFollowingsCount_eq.
    rewrite (received_failure tr Hne). cbn [bind Response.only Response.data].
    repeat split. }
  split; [exact Hfail|].
  intros completed resp Hok Hbody Hret.
  destruct Hfail as (-> & -> & -> & ->).
  rewrite GetGroupsCount_eq, GetFriendsCount_eq, GetFollowersCount_eq,
    GetFollowingsCount_eq.
  rewrite Hret. cbn [bind].
  pose proof (received_data completed resp Hret) as Hd.
  rewrite Hok, Hbody in Hd. cbn in Hd. rewrite Hd.
  repeat split.
Qed.

End FacadeFailure.

(** C1, as stated, fails: when the engine cannot resolve the host (code
    6), [GetGroupsCount] returns the count 0. *)
Lemma GetGroupsCount_zero_on_transport_failure :
  snd (RoPP.User.GetGroupsCount 1%N (deliver 6 "" "") libcurl_start) = Returned 0.
Proof. vm_compute. reflexivity. Qed.

Lemma facade_ignores_transport_failure_witness :
  snd (RoPP.User.GetGroupsCount 1%N (deliver 6 "" "") libcurl_start) = Returned 0 /\
  snd (RoPP.User.GetFriendsCount (J := count_only_json) 1%N (deliver 6 "" "") libcurl_start)
  = Thrown (json_exception 101) /\
  snd (RoPP.User.GetFollowersCount (J := count_only_json) 1%N (deliver 6 "" "") libcurl_start)
  = Thrown (json_exception 101) /\
  snd (RoPP.User.GetFollowingsCount (J := count_only_json) 1%N (deliver 6 "" "") libcurl_start)
  = Thrown (json_exception 101).
Proof.
  assert (Hne : result (deliver 6 "" "") <> CURLE_OK) by (cbn; unfold CURLE_OK; lia).
  destruct (proj1 (facade_ignores_transport_failure (J := count_only_json) 1%N
                     (deliver 6 "" "") libcurl_start Hne)) as (H1 & H2 & H3 & H4).
  rewrite H1, H2, H3, H4. repeat split.
Defined.

(** The friends count of user 1, end to end: the decoded count, the URL
    and the header lines the engine was handed, and no header list left
    allocated once the Request is destroyed. *)
Example friends_count_end_to_end :
  let run :=
    RoPP.User.GetFriendsCount (J := count_only_json) 1%N
      (deliver CURLE_OK
         ("HTTP/1.1 200 OK" +:+ CRLF +:+ "Content-Type: application/json" +:+ CRLF +:+ CRLF)
         ("{" +:+ quoted "count" +:+ ":42}"))
      libcurl_start in
  snd run = Returned 42 /\
  map (fun x => CURLOPT_URL (sent_options x)) (performed (fst run))
  = ["https://friends.roblox.com/v1/users/1/friends/count"] /\
  emitted (fst run) = [["Referer: https://www.roblox.com/"; "Cookie: "]] /\
  slists (fst run) = ∅.
Proof. vm_compute. repeat split. Qed.

(** * Further properties of the adapter and the facade *)

(** ** Bytes and text of a Response *)

Lemma length_string_of_bytes (v : list Byte.byte) :
  String.length (string_of_bytes v) = length v.
Proof.
  unfold string_of_bytes, string_of_list_byte.
  induction v as [|b v IH]; cbn; [reflexivity | now rewrite IH].
Qed.

Lemma received_ok_buffers (tr : transfer) (resp : Response.t) :
  result tr = CURLE_OK ->
  received_response tr = Returned resp ->
  Response.rawData resp = received (body_writes tr) /\
  Response.rawHeaders resp = received (header_writes tr) /\
  Response.data resp = string_of_bytes (received (body_writes tr)) /\
  Response.curlCode resp = CURLE_OK.
Proof.
  intros Hok. unfold received_response, Request.execute.
  cbn [Request.curl Request.curl_assigned Request.initalize handle_available
       handle_granted Request.with_curl fst curl_easy_perform
       CURLOPT_HTTPHEADER curl_easy_init snd].
  rewrite Hok. cbn [Z.eqb CURLE_OK negb].
  destruct (getline _ "" LF) as [ss line].
  repeat match goal with
         | |- bind ?m _ = Returned _ -> _ =>
             destruct m; cbn [bind]; try discriminate
         end.
  destruct (Request.header_loop _ _ _ _) as [[hs cs]|]; [|discriminate].
  intros H. inversion H. repeat split.
Qed.

(** X1.  When a dispatch on a completed transfer returns, [rawData] is
    the body chunks the engine delivered, joined in order, [rawHeaders]
    the header chunks joined in order, [data] is the text of exactly the
    bytes of [rawData], and the two have the same size. *)
Theorem response_bytes_and_text (v : verb) (r : Request.t) (h : CURL)
    (tr : transfer) (e : libcurl) (resp : Response.t) :
  Request.curl r = Some h ->
  result tr = CURLE_OK ->
  snd (snd (dispatch v r tr e)) = Returned resp ->
  Response.rawData resp = concat (body_writes tr) /\
  Response.rawHeaders resp = concat (header_writes tr) /\
  Response.data resp = string_of_bytes (Response.rawData resp) /\
  Str.size (Response.data resp) = Z.of_nat (length (Response.rawData resp)).
Proof.
  intros Hc Hok Hret.
  rewrite (dispatch_verb_eq v r h tr e Hc) in Hret. cbn [snd] in Hret.
  destruct (received_ok_buffers tr resp Hok Hret) as (Hd & Hh & Ht & _).
  rewrite Hd, Hh, Ht, !received_concat. unfold Str.size.
  rewrite length_string_of_bytes. repeat split.
Qed.

Lemma response_bytes_and_text_witness :
  exists resp,
    snd (snd (dispatch GET sample_request two_chunk_transfer libcurl_start))
    = Returned resp /\
    Response.rawData resp = list_byte_of_string "{}" /\
    Response.data resp = "{}".
Proof.
  assert (H : exists resp,
             snd (snd (dispatch GET sample_request two_chunk_transfer libcurl_start))
             = Returned resp)
    by (eexists; vm_compute; reflexivity).
  destruct H as [resp Hret]. exists resp. split; [exact Hret|].
  destruct (response_bytes_and_text GET sample_request curl_easy_init two_chunk_transfer
              libcurl_start resp eq_refl eq_refl Hret) as (Hd & _ & Ht & _).
  rewrite Ht, Hd. split; reflexivity.
Defined.

(** ** Header names are lowercased *)

Lemma tolower_not_upper (c : ascii) : is_upper (tolower c) = false.
Proof. destruct c as [[] [] [] [] [] [] [] []]; reflexivity. Qed.

Lemma transform_tolower_no_upper (s : string) : has_upper (transform_tolower s) = false.
Proof.
  induction s as [|c s IH]; cbn [transform_tolower has_upper]; [reflexivity|].
  now rewrite tolower_not_upper, IH.
Qed.

Lemma assign_keys (P : string -> Prop) (k v : string) (m : headers_t) :
  P k -> Forall (fun kv => P (fst kv)) m ->
  Forall (fun kv => P (fst kv)) (StdMap.assign k v m).
Proof.
  intros Hk. induction m as [|[k1 v1] m IH]; intros Hm; cbn [StdMap.assign].
  - constructor; [exact Hk | constructor].
  - inversion Hm as [|x l Hx Hl]; subst. cbn [fst] in Hx.
    destruct (String.compare k k1).
    + constructor; assumption.
    + constructor; [exact Hk | exact Hm].
    + constructor; [exact Hx | apply IH; exact Hl].
Qed.

Lemma headers_of_lines_keys (ls : list string) (hs : headers_t) :
  Forall (fun kv => has_upper (fst kv) = false) hs ->
  Forall (fun kv => has_upper (fst kv) = false) (headers_of_lines ls hs).
Proof.
  revert hs. induction ls as [|l ls IH]; intros hs Hhs; [exact Hhs|].
  unfold headers_of_lines. cbn [fold_left]. apply IH.
  apply (assign_keys (fun k => has_upper k = false)); [|exact Hhs].
  rewrite line_entry_key. apply transform_tolower_no_upper.
Qed.

(** X2.  No key of [Response.headers] contains an uppercase letter,
    whatever the engine delivered and whether the transfer completed or
    not. *)
Theorem response_header_keys_lowercase (v : verb) (r : Request.t) (h : CURL)
    (tr : transfer) (e : libcurl) (resp : Response.t) :
  Request.curl r = Some h ->
  snd (snd (dispatch v r tr e)) = Returned resp ->
  Forall (fun kv => has_upper (fst kv) = false) (Response.headers resp).
Proof.
  intros Hc Hret.
  rewrite (dispatch_verb_eq v r h tr e Hc) in Hret. cbn [snd] in Hret.
  destruct (Z.eq_dec (result tr) CURLE_OK) as [Hok|Hne].
  - rewrite (received_returned_headers tr resp Hok Hret), parsed_maps_lines.
    apply headers_of_lines_keys. constructor.
  - rewrite (received_failure tr Hne) in Hret. inversion Hret. constructor.
Qed.

Lemma response_header_keys_lowercase_witness :
  exists resp,
    snd (snd (dispatch GET sample_request
                (deliver CURLE_OK
                   ("HTTP/1.1 200 OK" +:+ CRLF +:+ "Content-TYPE: Text/HTML" +:+ CRLF +:+ CRLF)
                   "")
                libcurl_start)) = Returned resp /\
    Forall (fun kv => has_upper (fst kv) = false) (Response.headers resp) /\
    StdMap.lookup "content-type" (Response.headers resp) = Some "Text/HTML".
Proof.
  assert (H : exists resp,
             snd (snd (dispatch GET sample_request
                (deliver CURLE_OK
                   ("HTTP/1.1 200 OK" +:+ CRLF +:+ "Content-TYPE: Text/HTML" +:+ CRLF +:+ CRLF)
                   "")
                libcurl_start)) = Returned resp /\
             StdMap.lookup "content-type" (Response.headers resp) = Some "Text/HTML")
    by (eexists; vm_compute; split; reflexivity).
  destruct H as [resp [Hret Hl]]. exists resp. split; [exact Hret|]. split; [|exact Hl].
  exact (response_header_keys_lowercase GET sample_request curl_easy_init
           (deliver CURLE_OK
              ("HTTP/1.1 200 OK" +:+ CRLF +:+ "Content-TYPE: Text/HTML" +:+ CRLF +:+ CRLF) "")
           libcurl_start resp eq_refl Hret).
Defined.

(** ** Repeated header lines *)

Lemma lookup_headers_of_lines_kept (key : string) (ls : list string) (hs : headers_t) :
  (forall l, In l ls -> fst (line_entry l) <> key) ->
  StdMap.lookup key (headers_of_lines ls hs) = StdMap.lookup key hs.
Proof.
  revert hs. induction ls as [|l ls IH]; intros hs Hall; [reflexivity|].
  unfold headers_of_lines. cbn [fold_left].
  fold (headers_of_lines ls (StdMap.assign (fst (line_entry l)) (snd (line_entry l)) hs)).
  rewrite IH by (intros l' Hin; apply Hall; now right).
  apply lookup_assign_other. intros Heq. apply (Hall l (or_introl eq_refl)). now symmetry.
Qed.

Lemma headers_of_lines_app (ls1 ls2 : list string) (hs : headers_t) :
  headers_of_lines (ls1 ++ ls2) hs = headers_of_lines ls2 (headers_of_lines ls1 hs).
Proof. unfold headers_of_lines. apply fold_left_app. Qed.

(** The entry of a line of the usual shape [name: value\r]. *)
Lemma line_entry_usual (name value tail : string) :
  occurs ":" name = false ->
  occurs CR value = false ->
  line_entry (name +:+ String ":" (String SP (value +:+ String CR tail)))
  = (transform_tolower name, value).
Proof.
  intros Hn Hv. unfold line_entry, sstream.
  rewrite (getline_found ":" name _ "" Hn), getline_skip.
  rewrite (getline_found CR value tail "" Hv). reflexivity.
Qed.

(** X3.  When a header name occurs on several lines of the block, in
    whatever letter case, the Response keeps the value of the last of
    them: a line [name: value\r] that no later line repeats is found
    under its lowercased name with its own value, whatever came before
    it. *)
Theorem last_header_line_wins (v : verb) (r : Request.t) (h : CURL) (tr : transfer)
    (e : libcurl) (resp : Response.t) (before after : list string)
    (name value : string) :
  Request.curl r = Some h ->
  result tr = CURLE_OK ->
  snd (snd (dispatch v r tr e)) = Returned resp ->
  lines (header_block tr)
  = before ++ (name +:+ String ":" (String SP (value +:+ String CR ""))) :: after ->
  occurs ":" name = false ->
  occurs CR value = false ->
  (forall l, In l after ->
             transform_tolower (name_of l) <> transform_tolower name) ->
  StdMap.lookup (transform_tolower name) (Response.headers resp) = Some value.
Proof.
  intros Hc Hok Hret Hlines Hn Hv Hafter.
  rewrite (dispatch_verb_eq v r h tr e Hc) in Hret. cbn [snd] in Hret.
  rewrite (received_returned_headers tr resp Hok Hret), parsed_maps_lines, Hlines.
  rewrite headers_of_lines_app.
  change (headers_of_lines (?l :: after) ?hs)
    with (headers_of_lines after
            (StdMap.assign (fst (line_entry l)) (snd (line_entry l)) hs)).
  rewrite lookup_headers_of_lines_kept.
  - rewrite (line_entry_usual name value "" Hn Hv). cbn [fst snd].
    apply lookup_assign_same.
  - intros l Hin. rewrite line_entry_key. now apply Hafter.
Qed.

Lemma last_header_line_wins_witness :
  exists resp,
    snd (snd (dispatch GET sample_request
                (deliver CURLE_OK
                   ("HTTP/1.1 200 OK" +:+ CRLF +:+ "X-Tag: one" +:+ CRLF +:+
                    "x-tag: two" +:+ CRLF +:+ CRLF) "")
                libcurl_start)) = Returned resp /\
    StdMap.lookup "x-tag" (Response.headers resp) = Some "two".
Proof.
  assert (H : exists resp,
             snd (snd (dispatch GET sample_request
                (deliver CURLE_OK
                   ("HTTP/1.1 200 OK" +:+ CRLF +:+ "X-Tag: one" +:+ CRLF +:+
                    "x-tag: two" +:+ CRLF +:+ CRLF) "")
                libcurl_start)) = Returned resp)
    by (eexists; vm_compute; reflexivity).
  destruct H as [resp Hret]. exists resp. split; [exact Hret|].
  refine (last_header_line_wins GET sample_request curl_easy_init
            (deliver CURLE_OK
               ("HTTP/1.1 200 OK" +:+ CRLF +:+ "X-Tag: one" +:+ CRLF +:+
                "x-tag: two" +:+ CRLF +:+ CRLF) "")
            libcurl_start resp
            ["HTTP/1.1 200 OK" +:+ String CR ""; "X-Tag: one" +:+ String CR ""]
            [String CR ""] "x-tag" "two" eq_refl eq_refl Hret _ eq_refl eq_refl _).
  - vm_compute. reflexivity.
  - intros l [<-|[]]. vm_compute. discriminate.
Defined.

(** ** Cookies over a whole block *)

(** The loop body on a [Set-Cookie] line, whatever the letter case of
    the name. *)
Lemma set_cookie_line_any_case (name : string) (ps : list (string * string))
    (en : cookie_end) (tail : string) (hs : headers_t) (cs : cookies_t) :
  transform_tolower name = "set-cookie" ->
  occurs ":" name = false ->
  forallb pair_ok ps = true ->
  end_ok en = true ->
  occurs CR (cookie_value ps en) = false ->
  Request.header_body
    (name +:+ String ":" (String SP (cookie_value ps en +:+ String CR tail))) (hs, cs)
  = Some (StdMap.assign "set-cookie" (cookie_value ps en) hs,
          record_all (ps ++ end_pairs en) cs).
Proof.
  intros Hname Hn Hps Hen Hcr. unfold Request.header_body, sstream.
  rewrite (getline_found ":" name _ "" Hn), getline_skip.
  rewrite (getline_found CR (cookie_value ps en) tail "" Hcr).
  rewrite Hname. cbn [String.eqb Ascii.eqb Bool.eqb].
  fold (sstream (cookie_value ps en)).
  rewrite (cookie_loop_pairs ps en Hps Hen) by lia.
  reflexivity.
Qed.

Lemma received_cookies (tr : transfer) (resp : Response.t) :
  result tr = CURLE_OK ->
  received_response tr = Returned resp ->
  Response.headers resp = fst (fold_left header_step (lines (header_block tr)) ([], [])) /\
  Response.cookies resp = snd (fold_left header_step (lines (header_block tr)) ([], [])).
Proof.
  intros Hok Hret.
  destruct (received_returned_maps tr resp Hok Hret) as [Hh Hk].
  now rewrite Hh, Hk, parsed_maps_fold.
Qed.

Lemma header_step_set_cookie (name : string) (ps : list (string * string))
    (en : cookie_end) (hs : headers_t) (cs : cookies_t) :
  transform_tolower name = "set-cookie" ->
  occurs ":" name = false ->
  forallb pair_ok ps = true ->
  end_ok en = true ->
  occurs CR (cookie_value ps en) = false ->
  header_step (hs, cs)
    (name +:+ String ":" (String SP (cookie_value ps en +:+ String CR "")))
  = (StdMap.assign "set-cookie" (cookie_value ps en) hs,
     record_all (ps ++ end_pairs en) cs).
Proof.
  intros Hname Hn Hps Hen Hcr. unfold header_step.
  now rewrite (set_cookie_line_any_case name ps en "" hs cs Hname Hn Hps Hen Hcr).
Qed.

Lemma fold_lines_split (before : list string) (l : string) (rest : list string)
    (acc : headers_t * cookies_t) :
  fold_left header_step (before ++ l :: rest) acc
  = fold_left header_step rest (header_step (fold_left header_step before acc) l).
Proof. now rewrite fold_left_app. Qed.

(** X4.  A Response has no cookies unless the transfer completed and
    its block has a [Set-Cookie] line.  When the transfer failed the
    cookies map is empty whatever the engine had delivered before it
    failed, [Set-Cookie] lines included; when the transfer completed and
    no line's lowercased name is ["set-cookie"], the cookies map is
    empty as well. *)
Theorem no_set_cookie_no_cookies (v : verb) (r : Request.t) (h : CURL) (tr : transfer)
    (e : libcurl) (resp : Response.t) :
  Request.curl r = Some h ->
  snd (snd (dispatch v r tr e)) = Returned resp ->
  result tr <> CURLE_OK \/
  (forall l, In l (lines (header_block tr)) ->
             transform_tolower (name_of l) <> "set-cookie") ->
  Response.cookies resp = [].
Proof.
  intros Hc Hret Hnone.
  rewrite (dispatch_verb_eq v r h tr e Hc) in Hret. cbn [snd] in Hret.
  destruct (Z.eq_dec (result tr) CURLE_OK) as [Hok|Hne].
  - destruct Hnone as [Hne|Hnone]; [contradiction|].
    rewrite (proj2 (received_cookies tr resp Hok Hret)).
    apply fold_header_step_cookies_kept.
    intros l Hin. rewrite line_entry_key. now apply Hnone.
  - rewrite (received_failure tr Hne) in Hret. inversion Hret. reflexivity.
Qed.

Lemma no_set_cookie_no_cookies_witness :
  (exists resp,
     snd (snd (dispatch GET sample_request
                 (deliver 56
                    ("HTTP/1.1 200 OK" +:+ CRLF +:+ "Set-Cookie: a=1" +:+ CRLF +:+ CRLF) "")
                 libcurl_start)) = Returned resp /\
     Response.cookies resp = []) /\
  (exists resp,
     snd (snd (dispatch GET sample_request
                 (deliver CURLE_OK
                    ("HTTP/1.1 200 OK" +:+ CRLF +:+ "Cookie: a=1" +:+ CRLF +:+ CRLF) "")
                 libcurl_start)) = Returned resp /\
     Response.cookies resp = []).
Proof.
  split.
  - assert (H : exists resp,
               snd (snd (dispatch GET sample_request
                  (deliver 56
                     ("HTTP/1.1 200 OK" +:+ CRLF +:+ "Set-Cookie: a=1" +:+ CRLF +:+ CRLF) "")
                  libcurl_start)) = Returned resp)
      by (eexists; vm_compute; reflexivity).
    destruct H as [resp Hret]. exists resp. split; [exact Hret|].
    refine (no_set_cookie_no_cookies GET sample_request curl_easy_init
              (deliver 56
                 ("HTTP/1.1 200 OK" +:+ CRLF +:+ "Set-Cookie: a=1" +:+ CRLF +:+ CRLF) "")
              libcurl_start resp eq_refl Hret _).
    left. discriminate.
  - assert (H : exists resp,
               snd (snd (dispatch GET sample_request
                  (deliver CURLE_OK
                     ("HTTP/1.1 200 OK" +:+ CRLF +:+ "Cookie: a=1" +:+ CRLF +:+ CRLF) "")
                  libcurl_start)) = Returned resp)
      by (eexists; vm_compute; reflexivity).
    destruct H as [resp Hret]. exists resp. split; [exact Hret|].
    refine (no_set_cookie_no_cookies GET sample_request curl_easy_init
              (deliver CURLE_OK
                 ("HTTP/1.1 200 OK" +:+ CRLF +:+ "Cookie: a=1" +:+ CRLF +:+ CRLF) "")
              libcurl_start resp eq_refl Hret _).
    right. intros l Hin. vm_compute in Hin.
    destruct Hin as [<-|[<-|[<-|[]]]]; vm_compute; discriminate.
Defined.

Lemma header_step_block_line (b : block_line) (hs : headers_t) (cs : cookies_t) :
  block_line_ok b = true ->
  snd (header_step (hs, cs) (line_text b)) = line_cookies cs b /\
  StdMap.lookup "set-cookie" (fst (header_step (hs, cs) (line_text b)))
  = last_set_cookie (StdMap.lookup "set-cookie" hs) b.
Proof.
  intros Hok. destruct b as [line|name ps en]; cbn [block_line_ok line_text] in *.
  - apply negb_true_iff, String.eqb_neq in Hok. rewrite <- line_entry_key in Hok.
    split.
    + now apply header_step_cookies_kept.
    + rewrite header_step_headers. cbn [last_set_cookie].
      apply lookup_assign_other. congruence.
  - repeat (apply andb_true_iff in Hok; destruct Hok as [Hok ?]).
    apply String.eqb_eq in Hok.
    rewrite header_step_set_cookie;
      [|assumption|now apply negb_true_iff|assumption|assumption|now apply negb_true_iff].
    cbn [fst snd line_cookies last_set_cookie]. split; [reflexivity|].
    apply lookup_assign_same.
Qed.

Lemma fold_block_lines (bs : list block_line) (hs : headers_t) (cs : cookies_t) :
  forallb block_line_ok bs = true ->
  snd (fold_left header_step (map line_text bs) (hs, cs)) = fold_left line_cookies bs cs /\
  StdMap.lookup "set-cookie" (fst (fold_left header_step (map line_text bs) (hs, cs)))
  = fold_left last_set_cookie bs (StdMap.lookup "set-cookie" hs).
Proof.
  revert hs cs. induction bs as [|b bs IH]; intros hs cs Hok; [split; reflexivity|].
  cbn [forallb] in Hok. apply andb_true_iff in Hok as [Hb Hbs].
  cbn [map fold_left].
  destruct (header_step_block_line b hs cs Hb) as [Hc Hh].
  destruct (header_step (hs, cs) (line_text b)) as [hs1 cs1]. cbn [fst snd] in Hc, Hh.
  rewrite <- Hc, <- Hh. now apply IH.
Qed.

(** X5.  The cookies of any number of [Set-Cookie] lines add up.  Take
    a completed transfer whose header block is made of lines under other
    names and of [Set-Cookie] lines, the name in any letter case and the
    value a sequence of pairs separated by ["; "] (possibly ended by a
    bare attribute).  The cookies of the Response are the pairs of all
    these lines recorded in block order, a later pair replacing an
    earlier one of the same name, while [headers["set-cookie"]] is the
    value of the last such line only, and absent when there is none. *)
Theorem set_cookie_lines_accumulate (v : verb) (r : Request.t) (h : CURL)
    (tr : transfer) (e : libcurl) (resp : Response.t) (bs : list block_line) :
  Request.curl r = Some h ->
  result tr = CURLE_OK ->
  snd (snd (dispatch v r tr e)) = Returned resp ->
  lines (header_block tr) = map line_text bs ->
  forallb block_line_ok bs = true ->
  Response.cookies resp = fold_left line_cookies bs [] /\
  StdMap.lookup "set-cookie" (Response.headers resp) = fold_left last_set_cookie bs None.
Proof.
  intros Hc Hok Hret Hlines Hbs.
  rewrite (dispatch_verb_eq v r h tr e Hc) in Hret. cbn [snd] in Hret.
  destruct (received_cookies tr resp Hok Hret) as [Hh Hk].
  rewrite Hh, Hk, Hlines.
  destruct (fold_block_lines bs [] [] Hbs) as [H1 H2]. split; assumption.
Qed.

Lemma set_cookie_lines_accumulate_witness :
  exists resp,
    snd (snd (dispatch GET sample_request
                (deliver CURLE_OK
                   ("HTTP/1.1 200 OK" +:+ CRLF +:+ "Set-Cookie: a=1; Path=/" +:+ CRLF +:+
                    "set-cookie: b=2; Path=/x" +:+ CRLF +:+
                    "SET-COOKIE: a=3; Secure" +:+ CRLF +:+ CRLF) "")
                libcurl_start)) = Returned resp /\
    Response.cookies resp = [("Path", "/x"); ("Secure", ""); ("a", "3"); ("b", "2")] /\
    StdMap.lookup "set-cookie" (Response.headers resp) = Some "a=3; Secure".
Proof.
  assert (H : exists resp,
             snd (snd (dispatch GET sample_request
                (deliver CURLE_OK
                   ("HTTP/1.1 200 OK" +:+ CRLF +:+ "Set-Cookie: a=1; Path=/" +:+ CRLF +:+
                    "set-cookie: b=2; Path=/x" +:+ CRLF +:+
                    "SET-COOKIE: a=3; Secure" +:+ CRLF +:+ CRLF) "")
                libcurl_start)) = Returned resp)
    by (eexists; vm_compute; reflexivity).
  destruct H as [resp Hret]. exists resp. split; [exact Hret|].
  assert (Hlines :
            lines (header_block
                     (deliver CURLE_OK
                        ("HTTP/1.1 200 OK" +:+ CRLF +:+ "Set-Cookie: a=1; Path=/" +:+ CRLF +:+
                         "set-cookie: b=2; Path=/x" +:+ CRLF +:+
                         "SET-COOKIE: a=3; Secure" +:+ CRLF +:+ CRLF) ""))
            = map line_text
                [OtherLine ("HTTP/1.1 200 OK" +:+ String CR "");
                 SetCookieLine "Set-Cookie" [("a", "1")] (EndPair "Path" "/");
                 SetCookieLine "set-cookie" [("b", "2")] (EndPair "Path" "/x");
                 SetCookieLine "SET-COOKIE" [("a", "3")] (EndFlag "Secure");
                 OtherLine (String CR "")])
    by (vm_compute; reflexivity).
  assert (Hbs : forallb block_line_ok
                  [OtherLine ("HTTP/1.1 200 OK" +:+ String CR "");
                   SetCookieLine "Set-Cookie" [("a", "1")] (EndPair "Path" "/");
                   SetCookieLine "set-cookie" [("b", "2")] (EndPair "Path" "/x");
                   SetCookieLine "SET-COOKIE" [("a", "3")] (EndFlag "Secure");
                   OtherLine (String CR "")] = true)
    by (vm_compute; reflexivity).
  pose proof (set_cookie_lines_accumulate GET sample_request curl_easy_init
                (deliver CURLE_OK
                   ("HTTP/1.1 200 OK" +:+ CRLF +:+ "Set-Cookie: a=1; Path=/" +:+ CRLF +:+
                    "set-cookie: b=2; Path=/x" +:+ CRLF +:+
                    "SET-COOKIE: a=3; Secure" +:+ CRLF +:+ CRLF) "")
                libcurl_start resp _ eq_refl eq_refl Hret Hlines Hbs) as [H1 H2].
  split.
  - rewrite H1. vm_compute. reflexivity.
  - rewrite H2. vm_compute. reflexivity.
Defined.

(** ** The header and cookie maps of a Request *)

Lemma compare_lt_trans (a b c : string) :
  String.compare a b = Lt -> String.compare b c = Lt -> String.compare a c = Lt.
Proof.
  intros H1 H2.
  apply OrderedTypeEx.String_as_OT.cmp_lt.
  apply OrderedTypeEx.String_as_OT.lt_trans with (y := b);
    now apply OrderedTypeEx.String_as_OT.cmp_lt.
Qed.

Lemma compare_lt_neq (a b : string) : String.compare a b = Lt -> a <> b.
Proof. intros H ->. rewrite compare_refl in H. discriminate. Qed.

Lemma ordered_tail (k v : string) (m : headers_t) :
  StdMap.ordered ((k, v) :: m) = true -> StdMap.ordered m = true.
Proof.
  cbn [StdMap.ordered]. destruct m as [|[k1 v1] m]; [reflexivity|].
  destruct (String.compare k k1); try discriminate. auto.
Qed.

Lemma ordered_all_above (k v : string) (m : headers_t) :
  StdMap.ordered ((k, v) :: m) = true ->
  Forall (fun kv => String.compare k (fst kv) = Lt) m.
Proof.
  revert k v. induction m as [|[k1 v1] m IH]; intros k v H; [constructor|].
  assert (Hk : String.compare k k1 = Lt).
  { cbn [StdMap.ordered] in H. destruct (String.compare k k1); congruence. }
  pose proof (ordered_tail k v _ H) as Ht.
  constructor; [exact Hk|].
  eapply List.Forall_impl; [|apply (IH k1 v1 Ht)].
  intros [k2 v2] H2. cbn [fst] in *. now apply compare_lt_trans with (b := k1).
Qed.

Lemma ordered_cons (k v : string) (m : headers_t) :
  Forall (fun kv => String.compare k (fst kv) = Lt) m ->
  StdMap.ordered m = true ->
  StdMap.ordered ((k, v) :: m) = true.
Proof.
  intros Hall Hm. destruct m as [|[k1 v1] m]; [reflexivity|].
  inversion Hall as [|x l Hx Hl]; subst. cbn [fst] in Hx.
  cbn [StdMap.ordered] in *. now rewrite Hx.
Qed.

Lemma lookup_none_above (k : string) (m : headers_t) :
  Forall (fun kv => String.compare k (fst kv) = Lt) m -> StdMap.lookup k m = None.
Proof.
  induction m as [|[k1 v1] m IH]; intros H; [reflexivity|].
  inversion H as [|x l Hx Hl]; subst. cbn [fst] in Hx.
  cbn [StdMap.lookup]. rewrite Hx. now apply IH.
Qed.

Lemma erase_keeps (P : string * string -> Prop) (k : string) (m : headers_t) :
  Forall P m -> Forall P (StdMap.erase k m).
Proof.
  induction m as [|[k1 v1] m IH]; intros H; [constructor|].
  inversion H as [|x l Hx Hl]; subst. cbn [StdMap.erase].
  destruct (String.compare k k1); [exact Hl | |]; constructor; auto.
Qed.

Lemma erase_ordered (k : string) (m : headers_t) :
  StdMap.ordered m = true -> StdMap.ordered (StdMap.erase k m) = true.
Proof.
  induction m as [|[k1 v1] m IH]; intros H; [reflexivity|].
  pose proof (ordered_tail _ _ _ H) as Ht.
  pose proof (ordered_all_above _ _ _ H) as Ha.
  cbn [StdMap.erase]. destruct (String.compare k k1); [exact Ht | |];
    (apply ordered_cons; [apply erase_keeps; exact Ha | apply IH; exact Ht]).
Qed.

Lemma lookup_erase_same (k : string) (m : headers_t) :
  StdMap.ordered m = true -> StdMap.lookup k (StdMap.erase k m) = None.
Proof.
  induction m as [|[k1 v1] m IH]; intros H; [reflexivity|].
  pose proof (ordered_tail _ _ _ H) as Ht.
  cbn [StdMap.erase]. destruct (String.compare k k1) eqn:E.
  - apply String.compare_eq_iff in E. subst k1.
    apply lookup_none_above. exact (ordered_all_above _ _ _ H).
  - cbn [StdMap.lookup]. rewrite E. now apply IH.
  - cbn [StdMap.lookup]. rewrite E. now apply IH.
Qed.

Lemma lookup_erase_other (k k2 : string) (m : headers_t) :
  k2 <> k -> StdMap.lookup k2 (StdMap.erase k m) = StdMap.lookup k2 m.
Proof.
  intros Hne. induction m as [|[k1 v1] m IH]; [reflexivity|].
  cbn [StdMap.erase]. destruct (String.compare k k1) eqn:E.
  - apply String.compare_eq_iff in E. subst k1.
    cbn [StdMap.lookup].
    destruct (String.compare k2 k) eqn:E2; try reflexivity.
    apply String.compare_eq_iff in E2. contradiction.
  - cbn [StdMap.lookup]. now rewrite IH.
  - cbn [StdMap.lookup]. now rewrite IH.
Qed.

Lemma erase_absent (k : string) (m : headers_t) :
  StdMap.lookup k m = None -> StdMap.erase k m = m.
Proof.
  induction m as [|[k1 v1] m IH]; intros H; [reflexivity|].
  cbn [StdMap.lookup StdMap.erase] in *.
  destruct (String.compare k k1); [discriminate | |]; f_equal; auto.
Qed.

Lemma assign_assign (k v1 v2 : string) (m : headers_t) :
  StdMap.assign k v2 (StdMap.assign k v1 m) = StdMap.assign k v2 m.
Proof.
  induction m as [|[k1 w] m IH]; cbn [StdMap.assign].
  - now rewrite compare_refl.
  - destruct (String.compare k k1) eqn:E; cbn [StdMap.assign].
    + now rewrite E.
    + now rewrite compare_refl.
    + now rewrite E, IH.
Qed.

Lemma ordered_nodup (m : headers_t) :
  StdMap.ordered m = true -> List.NoDup (map fst m).
Proof.
  induction m as [|[k v] m IH]; intros H; cbn [map fst]; constructor.
  - intros Hin. apply in_map_iff in Hin as [[k1 v1] [Hk Hin]]. cbn [fst] in Hk. subst k1.
    pose proof (ordered_all_above _ _ _ H) as Ha.
    rewrite List.Forall_forall in Ha. specialize (Ha _ Hin). cbn [fst] in Ha.
    rewrite compare_refl in Ha. discriminate.
  - apply IH. exact (ordered_tail _ _ _ H).
Qed.

(** X6.  [set_header] and [set_cookie] store a value that the accessor
    then shows under that key; every other key keeps its value, setting
    a key twice leaves the last value only, and setting a header does
    not touch the cookies nor a cookie the headers. *)
Theorem setters_store_last_value (r : Request.t) (key v1 v2 other : string) :
  StdMap.lookup key (Request.get_headers (Request.set_header key v2 r)) = Some v2 /\
  StdMap.lookup key (Request.get_cookies (Request.set_cookie key v2 r)) = Some v2 /\
  (other <> key ->
   StdMap.lookup other (Request.get_headers (Request.set_header key v2 r))
   = StdMap.lookup other (Request.get_headers r) /\
   StdMap.lookup other (Request.get_cookies (Request.set_cookie key v2 r))
   = StdMap.lookup other (Request.get_cookies r)) /\
  Request.set_header key v2 (Request.set_header key v1 r) = Request.set_header key v2 r /\
  Request.set_cookie key v2 (Request.set_cookie key v1 r) = Request.set_cookie key v2 r /\
  Request.get_cookies (Request.set_header key v2 r) = Request.get_cookies r /\
  Request.get_headers (Request.set_cookie key v2 r) = Request.get_headers r.
Proof.
  unfold Request.get_headers, Request.get_cookies, Request.set_header, Request.set_cookie,
    Request.with_headers, Request.with_cookies.
  cbn [Request.headers Request.cookies Request.url Request.data
       Request.curl_headers Request.curl].
  repeat split.
  - apply lookup_assign_same.
  - apply lookup_assign_same.
  - now apply lookup_assign_other.
  - now apply lookup_assign_other.
  - now rewrite assign_assign.
  - now rewrite assign_assign.
Qed.

Lemma setters_store_last_value_witness :
  StdMap.lookup "Accept"
    (Request.get_headers (Request.set_header "Accept" "text/html" sample_request))
  = Some "text/html".
Proof.
  exact (proj1 (setters_store_last_value sample_request "Accept" "" "text/html" "")).
Defined.

(** X7.  On a map without duplicate keys (the keys in increasing order),
    [remove_header] and [remove_cookie] make the key absent and leave
    every other key alone; removing again changes nothing more, and
    removing a key that is not there leaves the Request as it is. *)
Theorem removers_erase_one_key (r : Request.t) (key other : string) :
  StdMap.ordered (Request.get_headers r) = true ->
  StdMap.ordered (Request.get_cookies r) = true ->
  StdMap.lookup key (Request.get_headers (Request.remove_header key r)) = None /\
  StdMap.lookup key (Request.get_cookies (Request.remove_cookie key r)) = None /\
  (other <> key ->
   StdMap.lookup other (Request.get_headers (Request.remove_header key r))
   = StdMap.lookup other (Request.get_headers r) /\
   StdMap.lookup other (Request.get_cookies (Request.remove_cookie key r))
   = StdMap.lookup other (Request.get_cookies r)) /\
  Request.remove_header key (Request.remove_header key r) = Request.remove_header key r /\
  Request.remove_cookie key (Request.remove_cookie key r) = Request.remove_cookie key r /\
  (StdMap.lookup key (Request.get_headers r) = None -> Request.remove_header key r = r) /\
  (StdMap.lookup key (Request.get_cookies r) = None -> Request.remove_cookie key r = r).
Proof.
  unfold Request.get_headers, Request.get_cookies, Request.remove_header,
    Request.remove_cookie, Request.with_headers, Request.with_cookies.
  intros Hh Hk.
  cbn [Request.headers Request.cookies Request.url Request.data
       Request.curl_headers Request.curl].
  repeat split.
  - now apply lookup_erase_same.
  - now apply lookup_erase_same.
  - now apply lookup_erase_other.
  - now apply lookup_erase_other.
  - rewrite (erase_absent key (StdMap.erase key (Request.headers r))); [reflexivity|].
    now apply lookup_erase_same.
  - rewrite (erase_absent key (StdMap.erase key (Request.cookies r))); [reflexivity|].
    now apply lookup_erase_same.
  - intros Hnone. rewrite (erase_absent _ _ Hnone). now destruct r.
  - intros Hnone. rewrite (erase_absent _ _ Hnone). now destruct r.
Qed.

Lemma removers_erase_one_key_witness :
  StdMap.lookup "X"
    (Request.get_headers
       (Request.remove_header "X"
          (Request.set_header "Y" "2" (Request.set_header "X" "1" sample_request))))
  = None.
Proof.
  exact (proj1 (removers_erase_one_key
                  (Request.set_header "Y" "2" (Request.set_header "X" "1" sample_request))
                  "X" "" eq_refl eq_refl)).
Defined.

Lemma mutate_ordered (m : mutation) (r : Request.t) :
  StdMap.ordered (Request.headers r) = true ->
  StdMap.ordered (Request.cookies r) = true ->
  StdMap.ordered (Request.headers (mutate m r)) = true /\
  StdMap.ordered (Request.cookies (mutate m r)) = true.
Proof.
  intros Hh Hk. destruct m; cbn; split; auto using assign_ordered, erase_ordered.
Qed.

(** X8.  Under every sequence of setter calls the header and cookie
    maps of a Request stay in increasing key order, so no key occurs
    twice in either; a Request built by a constructor without headers
    starts that way. *)
Theorem setters_keep_keys_unique (ms : list mutation) (r : Request.t) :
  StdMap.ordered (Request.get_headers r) = true ->
  StdMap.ordered (Request.get_cookies r) = true ->
  StdMap.ordered (Request.get_headers (mutations ms r)) = true /\
  StdMap.ordered (Request.get_cookies (mutations ms r)) = true /\
  List.NoDup (map fst (Request.get_headers (mutations ms r))) /\
  List.NoDup (map fst (Request.get_cookies (mutations ms r))).
Proof.
  unfold Request.get_headers, Request.get_cookies.
  revert r. induction ms as [|m ms IH]; intros r Hh Hk.
  - repeat split; auto using ordered_nodup.
  - destruct (mutate_ordered m r Hh Hk) as [Hh' Hk'].
    exact (IH (mutate m r) Hh' Hk').
Qed.

Lemma setters_keep_keys_unique_witness :
  map fst
    (Request.get_headers
       (mutations [SetHeader "B" "1"; SetHeader "A" "2"; SetHeader "B" "3"]
          (Request.new2 "https://example.org/" "body")))
  = ["A"; "B"] /\
  List.NoDup ["A"; "B"].
Proof.
  split; [reflexivity|].
  exact (proj1 (proj2 (proj2 (setters_keep_keys_unique
                  [SetHeader "B" "1"; SetHeader "A" "2"; SetHeader "B" "3"]
                  (Request.new2 "https://example.org/" "body") eq_refl eq_refl)))).
Defined.

(** ** What a dispatch installs on the handle *)

(** X9.  Every dispatch performs exactly one exchange.  For it the
    engine is handed the Request's URL (as a C string), its body and the
    body's size, whatever the verb, together with the verb's own option,
    and a header list that is allocated at that moment.  The dispatch
    leaves the URL, the body and both maps of the Request as they
    were. *)
Theorem dispatch_installs_url_and_body (v : verb) (r : Request.t) (h : CURL)
    (tr : transfer) (e : libcurl) :
  Request.curl r = Some h ->
  let r' := fst (dispatch v r tr e) in
  let e' := fst (snd (dispatch v r tr e)) in
  (exists x p,
     performed e' = performed e ++ [x] /\
     CURLOPT_URL (sent_options x) = c_str (Request.get_url r) /\
     CURLOPT_POSTFIELDS (sent_options x) = Request.get_data r /\
     CURLOPT_POSTFIELDSIZE (sent_options x) = Str.size (Request.get_data r) /\
     CURLOPT_HTTPHEADER (sent_options x) = Some p /\
     slists e' !! p = Some (sent_headers x) /\
     match v with
     | GET => CURLOPT_HTTPGET (sent_options x) = true
     | POST => CURLOPT_POST (sent_options x) = true
     | CUSTOM method => CURLOPT_CUSTOMREQUEST (sent_options x) = Some (c_str method)
     end) /\
  Request.get_url r' = Request.get_url r /\
  Request.get_data r' = Request.get_data r /\
  Request.get_headers r' = Request.get_headers r /\
  Request.get_cookies r' = Request.get_cookies r.
Proof.
  intros Hc. cbv zeta. rewrite (dispatch_verb_eq v r h tr e Hc). cbn [fst snd].
  split; [|repeat split].
  eexists. exists (next_slist e). cbn [performed slists sent_options sent_headers].
  split; [reflexivity|].
  destruct v; cbn; rewrite lookup_insert_eq; repeat split.
Qed.

Lemma dispatch_installs_url_and_body_witness :
  map (fun x => (CURLOPT_URL (sent_options x), CURLOPT_POSTFIELDS (sent_options x),
                 CURLOPT_POSTFIELDSIZE (sent_options x), CURLOPT_POST (sent_options x)))
    (performed
       (fst (snd (dispatch POST
                    (fst (Request.initalize (Request.new2 "https://example.org/a" "x=1")))
                    (deliver CURLE_OK ("HTTP/1.1 200 OK" +:+ CRLF +:+ CRLF) "")
                    libcurl_start))))
  = [("https://example.org/a", "x=1", 3, true)].
Proof.
  destruct (proj1 (dispatch_installs_url_and_body POST
                     (fst (Request.initalize (Request.new2 "https://example.org/a" "x=1")))
                     curl_easy_init
                     (deliver CURLE_OK ("HTTP/1.1 200 OK" +:+ CRLF +:+ CRLF) "")
                     libcurl_start (initalize_curl _)))
    as (x & p & Hp & Hu & Hd & Hs & _ & _ & Hv).
  rewrite Hp. cbn [performed libcurl_start app map]. rewrite Hu, Hd, Hs, Hv. reflexivity.
Defined.

(** X10.  On a Request that is dispatched again, the verb of the last
    dispatch alone decides the kind of request, while a custom method is
    never cleared.  [prepare] installs the body with
    [CURLOPT_POSTFIELDS], which sets the handle to POST; [get] then sets
    it to GET, [post] and [request(method)] leave it at POST.  So the
    second exchange is a GET after [get] and a POST after [post] or
    [request], whatever the first dispatch was; but the method text
    installed by [request(method)] stays installed when [get] or [post]
    follows, and is replaced only by another [request]. *)
Theorem last_verb_decides_custom_method_stays (v1 v2 : verb) (r : Request.t) (h : CURL)
    (tr1 tr2 : transfer) (ms : list mutation) (e : libcurl) :
  Request.curl r = Some h ->
  let d1 := dispatch v1 r tr1 e in
  let d2 := dispatch v2 (mutations ms (fst d1)) tr2 (fst (snd d1)) in
  exists x1 x2,
    performed (fst (snd d2)) = performed e ++ [x1; x2] /\
    httpreq (sent_options x1)
    = match v1 with GET => HTTPREQ_GET | _ => HTTPREQ_POST end /\
    httpreq (sent_options x2)
    = match v2 with GET => HTTPREQ_GET | _ => HTTPREQ_POST end /\
    CURLOPT_CUSTOMREQUEST (sent_options x1)
    = match v1 with
      | CUSTOM method => Some (c_str method)
      | _ => CURLOPT_CUSTOMREQUEST h
      end /\
    CURLOPT_CUSTOMREQUEST (sent_options x2)
    = match v2 with
      | CUSTOM method => Some (c_str method)
      | _ => CURLOPT_CUSTOMREQUEST (sent_options x1)
      end.
Proof.
  intros Hc. cbv zeta.
  rewrite (dispatch_verb_eq v1 r h tr1 e Hc). cbn [fst snd].
  set (r1 := Request.mk _ _ _ _ _ _ _).
  set (e1 := mk_libcurl _ _ _ _).
  destruct (mutations_curl_headers ms r1) as [_ Hcu].
  rewrite (dispatch_verb_eq v2 (mutations ms r1) _ tr2 e1 Hcu). cbn [fst snd].
  eexists. eexists. subst e1. cbn [performed]. rewrite <- app_assoc. cbn [app].
  split; [reflexivity|]. cbn [sent_options].
  repeat split.
  - destruct v1; reflexivity.
  - destruct v2; reflexivity.
  - destruct v1; reflexivity.
  - destruct v2; reflexivity.
Qed.

Lemma last_verb_decides_custom_method_stays_witness :
  let ok := deliver CURLE_OK ("HTTP/1.1 200 OK" +:+ CRLF +:+ CRLF) "" in
  let d1 := dispatch (CUSTOM "DELETE") sample_request ok libcurl_start in
  let d2 := dispatch GET (mutations [SetData "x=1"] (fst d1)) ok (fst (snd d1)) in
  exists x1 x2,
    performed (fst (snd d2)) = [x1; x2] /\
    httpreq (sent_options x1) = HTTPREQ_POST /\
    httpreq (sent_options x2) = HTTPREQ_GET /\
    CURLOPT_CUSTOMREQUEST (sent_options x1) = Some "DELETE" /\
    CURLOPT_CUSTOMREQUEST (sent_options x2) = Some "DELETE".
Proof.
  intros ok d1 d2. subst ok d1 d2.
  pose proof (last_verb_decides_custom_method_stays (CUSTOM "DELETE") GET sample_request
                curl_easy_init
                (deliver CURLE_OK ("HTTP/1.1 200 OK" +:+ CRLF +:+ CRLF) "")
                (deliver CURLE_OK ("HTTP/1.1 200 OK" +:+ CRLF +:+ CRLF) "")
                [SetData "x=1"] libcurl_start eq_refl) as H.
  cbv zeta in H. destruct H as (x1 & x2 & Hp & H1 & H2 & H3 & H4).
  exists x1, x2. rewrite H4, H3. repeat split; assumption.
Defined.

(** The same on the model run: a [get] after [request("DELETE")] still
    carries the custom method. *)
Example custom_method_survives_get :
  let ok := deliver CURLE_OK ("HTTP/1.1 200 OK" +:+ CRLF +:+ CRLF) "" in
  let d1 := dispatch (CUSTOM "DELETE") sample_request ok libcurl_start in
  map (fun x => (CURLOPT_CUSTOMREQUEST (sent_options x), CURLOPT_HTTPGET (sent_options x)))
    (performed (fst (snd (dispatch GET (fst d1) ok (fst (snd d1))))))
  = [(Some "DELETE", false); (Some "DELETE", true)].
Proof. vm_compute. reflexivity. Qed.

(** ** The header list over the life of a Request *)

Lemma mutate_owner_fields (m : mutation) (r : Request.t) :
  Request.curl_headers (mutate m r) = Request.curl_headers r /\
  Request.curl (mutate m r) = Request.curl r.
Proof. destruct m; split; reflexivity. Qed.

(** A second free of the same list is an invalid free, and is recorded
    as one. *)
Lemma second_free_is_recorded (p : nat) (e : libcurl) :
  invalid_frees (curl_slist_free_all p (curl_slist_free_all p e))
  = invalid_frees (curl_slist_free_all p e) ++ [p].
Proof.
  unfold curl_slist_free_all. cbn [slists invalid_frees].
  now rewrite lookup_delete_eq.
Qed.

Lemma released_base (base : gmap nat (list string)) (faults : list nat)
    (r : Request.t) (e : libcurl) :
  owns_over base faults r e ->
  released r (slists e) = base /\ released_frees r e = faults.
Proof.
  intros (_ & _ & Hf & Hown). unfold released, released_frees.
  destruct (Request.curl_headers r) as [p|]; [|now split].
  destruct Hown as (_ & Hnone & ls & ->).
  rewrite lookup_insert_eq. split; [now apply delete_insert_id | exact Hf].
Qed.

Lemma run_step_owns (base : gmap nat (list string)) (faults : list nat) (s : step)
    (r : Request.t) (e : libcurl) :
  owns_over base faults r e ->
  owns_over base faults (fst (run_step s (r, e))) (snd (run_step s (r, e))).
Proof.
  intros Hown. destruct s as [m|v tr]; cbn [run_step fst snd].
  - destruct (mutate_owner_fields m r) as [Hh Hc].
    destruct Hown as (Hfresh & Hcurl & Hf & Hlist).
    unfold owns_over. rewrite Hh, Hc. auto.
  - destruct (released_base base faults r e Hown) as [Hrel Hfr].
    destruct Hown as (Hfresh & Hcurl & _).
    destruct (Request.curl r) as [h|] eqn:Hc; [|congruence].
    rewrite (dispatch_verb_eq v r h tr e Hc). cbn [fst snd].
    unfold owns_over.
    cbn [Request.curl Request.curl_headers next_slist slists invalid_frees
         prepared_engine].
    rewrite Hrel. repeat split.
    + intros p Hp. specialize (Hfresh p Hp). lia.
    + discriminate.
    + exact Hfr.
    + lia.
    + destruct (base !! next_slist e) eqn:E; [|reflexivity].
      assert (Hlt : (next_slist e < next_slist e)%nat) by (apply Hfresh; eauto).
      lia.
    + eauto.
Qed.

Lemma run_owns (base : gmap nat (list string)) (faults : list nat) (steps : list step)
    (r : Request.t) (e : libcurl) :
  owns_over base faults r e ->
  owns_over base faults (fst (run steps (r, e))) (snd (run steps (r, e))).
Proof.
  revert r e. induction steps as [|s steps IH]; intros r e Hown; [exact Hown|].
  unfold run. cbn [fold_left].
  pose proof (run_step_owns base faults s r e Hown) as H1.
  destruct (run_step s (r, e)) as [r1 e1]. apply (IH r1 e1 H1).
Qed.

(** X11.  No header list leaks and none is freed twice.  Take a Request
    with a session that owns no list yet, and an engine in which the
    live lists sit below the next address.  After any sequence of setter
    calls and dispatches, the engine holds the lists it held before plus
    exactly the one list of the last dispatch, and the destructor leaves
    exactly the lists it held before.  Every free the adapter made on
    the way, the destructor's included, was of a list that was live: the
    engine's record of invalid frees is the one it started with. *)
Theorem header_list_never_leaks (steps : list step) (r : Request.t) (h : CURL)
    (e : libcurl) :
  Request.curl r = Some h ->
  Request.curl_headers r = None ->
  fresh_lists e ->
  let r' := fst (run steps (r, e)) in
  let e' := snd (run steps (r, e)) in
  slists (Request.destroy r' e') = slists e /\
  invalid_frees e' = invalid_frees e /\
  invalid_frees (Request.destroy r' e') = invalid_frees e /\
  match Request.curl_headers r' with
  | None => slists e' = slists e
  | Some p => slists e !! p = None /\ exists ls, slists e' = <[p := ls]> (slists e)
  end.
Proof.
  intros Hc Hh Hfresh. cbv zeta.
  assert (Hown : owns_over (slists e) (invalid_frees e) r e).
  { unfold owns_over. rewrite Hc, Hh.
    repeat split; [exact Hfresh | discriminate]. }
  pose proof (run_owns (slists e) (invalid_frees e) steps r e Hown) as H.
  destruct (released_base _ _ _ _ H) as [Hrel Hfr].
  destruct H as (_ & _ & Hf & Hlist).
  unfold Request.destroy, released, released_frees in *.
  destruct (Request.curl_headers (fst (run steps (r, e)))) as [p|].
  - cbn [slists invalid_frees curl_slist_free_all].
    split; [exact Hrel|]. split; [exact Hf|]. split; [exact Hfr|].
    destruct Hlist as (_ & Hnone & ls & Hls). eauto.
  - repeat split; assumption.
Qed.

Lemma header_list_never_leaks_witness :
  let steps :=
    [Dispatch GET (deliver CURLE_OK ("HTTP/1.1 200 OK" +:+ CRLF +:+ CRLF) "");
     Mutate (SetHeader "X" "1");
     Dispatch POST (deliver CURLE_OK ("HTTP/1.1 200 OK" +:+ CRLF +:+ CRLF) "")] in
  slists (Request.destroy (fst (run steps (sample_request, libcurl_start)))
            (snd (run steps (sample_request, libcurl_start))))
  = slists libcurl_start /\
  invalid_frees (Request.destroy (fst (run steps (sample_request, libcurl_start)))
                   (snd (run steps (sample_request, libcurl_start))))
  = [].
Proof.
  assert (Hfresh : fresh_lists libcurl_start).
  { intros p [x Hx]. cbn [slists libcurl_start] in Hx.
    rewrite lookup_empty in Hx. discriminate. }
  intros steps.
  pose proof (header_list_never_leaks steps sample_request curl_easy_init libcurl_start
                eq_refl eq_refl Hfresh) as H.
  cbv zeta in H. destruct H as (H1 & _ & H2 & _). split; [exact H1 | exact H2].
Defined.

(** ** The status code as a number *)

Lemma digit_char_value (d : nat) :
  (d < 10)%nat -> digit_value (digit_char d) = Some (Z.of_nat d).
Proof.
  intros H. do 10 (destruct d as [|d]; [reflexivity|]). lia.
Qed.

Lemma digit_char_plain (d : nat) (c : ascii) :
  (d < 10)%nat -> digit_value c = None -> Ascii.eqb (digit_char d) c = false.
Proof.
  intros H Hc. destruct (Ascii.eqb_spec (digit_char d) c) as [<-|]; [|reflexivity].
  rewrite (digit_char_value d H) in Hc. discriminate.
Qed.

Lemma decimal_text_plain (ds : list nat) (c : ascii) :
  Forall (fun d => (d < 10)%nat) ds -> digit_value c = None ->
  occurs c (decimal_text ds) = false.
Proof.
  intros Hds Hc. induction Hds as [|d ds Hd _ IH]; [reflexivity|].
  cbn [decimal_text fold_right occurs].
  rewrite (digit_char_plain d c Hd Hc). exact IH.
Qed.

Lemma read_digits_decimal (ds : list nat) (rest : string) (acc : Z) :
  Forall (fun d => (d < 10)%nat) ds ->
  no_leading_digit rest = true ->
  read_digits (decimal_text ds +:+ rest) acc true
  = Some (fold_left (fun acc d => 10 * acc + Z.of_nat d) ds acc).
Proof.
  intros Hds Hrest. revert acc.
  induction Hds as [|d ds Hd _ IH]; intros acc.
  - cbn [decimal_text fold_right String.append fold_left].
    destruct rest as [|c rest]; [reflexivity|].
    cbn [no_leading_digit] in Hrest. cbn [read_digits].
    destruct (digit_value c); [discriminate | reflexivity].
  - cbn [decimal_text fold_right String.append fold_left read_digits].
    rewrite (digit_char_value d Hd). apply IH.
Qed.

Lemma fold_digits_nonneg (ds : list nat) (acc : Z) :
  0 <= acc -> 0 <= fold_left (fun acc d => 10 * acc + Z.of_nat d) ds acc.
Proof.
  revert acc. induction ds as [|d ds IH]; intros acc H; [exact H|].
  cbn [fold_left]. apply IH. lia.
Qed.

Lemma strtol10_digit (d : nat) (s : string) :
  (d < 10)%nat ->
  strtol10 (String (digit_char d) s) = read_digits (String (digit_char d) s) 0 false.
Proof.
  intros H. do 10 (destruct d as [|d]; [reflexivity|]). lia.
Qed.

Lemma stoi_decimal (ds : list nat) (rest : string) :
  ds <> [] ->
  Forall (fun d => (d < 10)%nat) ds ->
  no_leading_digit rest = true ->
  stoi (decimal_text ds +:+ rest)
  = if decimal_value ds <=? INT_MAX then Returned (decimal_value ds)
    else Thrown std_out_of_range.
Proof.
  intros Hne Hds Hrest. destruct ds as [|d ds]; [congruence|].
  inversion Hds as [|x l Hd Hl]; subst.
  unfold stoi. cbn [decimal_text fold_right String.append].
  rewrite (strtol10_digit d _ Hd). cbn [read_digits].
  rewrite (digit_char_value d Hd).
  change (fold_right (fun d s => String (digit_char d) s) EmptyString ds)
    with (decimal_text ds).
  rewrite (read_digits_decimal ds rest _ Hl Hrest).
  change (fold_left (fun acc d0 => 10 * acc + Z.of_nat d0) ds (10 * 0 + Z.of_nat d))
    with (decimal_value (d :: ds)).
  assert (Hpos : 0 <= decimal_value (d :: ds)).
  { unfold decimal_value. apply fold_digits_nonneg. lia. }
  destruct (Z.leb_spec INT_MIN (decimal_value (d :: ds))) as [_|Hlt];
    [|unfold INT_MIN in Hlt; lia].
  reflexivity.
Qed.

Lemma occurs_append (c : ascii) (a b : string) :
  occurs c (a +:+ b) = occurs c a || occurs c b.
Proof.
  induction a as [|x a IH]; cbn [String.append occurs]; [reflexivity|].
  now rewrite IH, orb_assoc.
Qed.

Lemma first_line_of (line rest : string) :
  occurs LF line = false -> first_line (line +:+ String LF rest) = line.
Proof. intros H. unfold first_line. now rewrite read_until_found. Qed.

(** [execute] on a completed transfer whose block starts with the line
    [line], of which [token] is the status token and [message] what
    follows it. *)
Lemma status_line_outcome (v : verb) (r : Request.t) (h : CURL) (tr : transfer)
    (e : libcurl) (line rest token message : string) :
  Request.curl r = Some h ->
  result tr = CURLE_OK ->
  header_block tr = line +:+ String LF rest ->
  occurs LF line = false ->
  Str.size (header_block tr) < 2 ^ 31 ->
  before_space (after_space line) = token ->
  after_space (after_space line) = message ->
  snd (snd (dispatch v r tr e))
  = (let* code := stoi token in
     Returned
       (Response.mk CURLE_OK code message (body_text tr)
          (received (body_writes tr)) (received (header_writes tr))
          (fst (parsed_maps (header_block tr))) (snd (parsed_maps (header_block tr))))).
Proof.
  intros Hc Hok Hb Hlf Hs Htoken Hmessage.
  assert (Hline : first_line (header_block tr) = line).
  { rewrite Hb. now apply first_line_of. }
  assert (Hsz : Str.size (first_line (header_block tr)) < 2 ^ 31).
  { rewrite Hline. rewrite Hb in Hs. unfold Str.size in *.
    rewrite length_append in Hs. lia. }
  rewrite (dispatch_verb_eq v r h tr e Hc). cbn [snd].
  rewrite (received_ok tr Hok Hsz). unfold status_token.
  now rewrite Hline, Htoken, Hmessage.
Qed.

(** X12.  For a status line [version code reason\r\n] whose code is a
    run of decimal digits, the Response carries the value of the digits
    (leading zeros allowed) as its status code when that value fits an
    [int], with the reason phrase and the carriage return as message;
    when the value does not fit, the dispatch throws
    [std::out_of_range]. *)
Theorem status_code_is_decimal_value (v : verb) (r : Request.t) (h : CURL)
    (tr : transfer) (e : libcurl) (version reason rest : string) (ds : list nat) :
  Request.curl r = Some h ->
  result tr = CURLE_OK ->
  header_block tr
  = (version +:+ String SP (decimal_text ds +:+ String SP (reason +:+ String CR "")))
    +:+ String LF rest ->
  occurs SP version = false -> occurs LF version = false ->
  occurs LF reason = false ->
  ds <> [] -> Forall (fun d => (d < 10)%nat) ds ->
  Str.size (header_block tr) < 2 ^ 31 ->
  if decimal_value ds <=? INT_MAX then
    exists resp,
      snd (snd (dispatch v r tr e)) = Returned resp /\
      Response.code resp = decimal_value ds /\
      Response.message resp = reason +:+ String CR ""
  else snd (snd (dispatch v r tr e)) = Thrown std_out_of_range.
Proof.
  intros Hc Hok Hb Hv1 Hv2 Hr Hne Hds Hs.
  assert (Hd1 : occurs SP (decimal_text ds) = false) by now apply decimal_text_plain.
  assert (Hd2 : occurs LF (decimal_text ds) = false) by now apply decimal_text_plain.
  rewrite (status_line_outcome v r h tr e _ rest (decimal_text ds)
             (reason +:+ String CR "") Hc Hok Hb).
  - pose proof (stoi_decimal ds "" Hne Hds eq_refl) as Hstoi.
    rewrite append_empty_r in Hstoi. rewrite Hstoi.
    destruct (decimal_value ds <=? INT_MAX); cbn [bind]; [|reflexivity].
    eexists. repeat split.
  - rewrite occurs_append. cbn [occurs]. rewrite occurs_append. cbn [occurs].
    rewrite occurs_append. cbn [occurs]. rewrite Hv2, Hd2, Hr. reflexivity.
  - exact Hs.
  - unfold after_space at 1. rewrite (read_until_found SP version _ Hv1).
    unfold before_space. now rewrite (read_until_found SP (decimal_text ds) _ Hd1).
  - unfold after_space at 2. rewrite (read_until_found SP version _ Hv1).
    unfold after_space. now rewrite (read_until_found SP (decimal_text ds) _ Hd1).
Qed.

Lemma status_code_is_decimal_value_witness :
  exists resp,
    snd (snd (dispatch GET sample_request
                (deliver CURLE_OK ("HTTP/1.1 0404 Not Found" +:+ CRLF +:+ CRLF) "")
                libcurl_start)) = Returned resp /\
    Response.code resp = 404 /\
    Response.message resp = "Not Found" +:+ String CR "".
Proof.
  assert (Hb : header_block (deliver CURLE_OK ("HTTP/1.1 0404 Not Found" +:+ CRLF +:+ CRLF) "")
               = ("HTTP/1.1" +:+ String SP
                    (decimal_text [0; 4; 0; 4]%nat
                     +:+ String SP ("Not Found" +:+ String CR "")))
                 +:+ String LF (String CR (String LF "")))
    by (vm_compute; reflexivity).
  assert (Hs : Str.size (header_block
                           (deliver CURLE_OK ("HTTP/1.1 0404 Not Found" +:+ CRLF +:+ CRLF) ""))
               < 2 ^ 31)
    by (vm_compute; reflexivity).
  assert (Hds : Forall (fun d => (d < 10)%nat) [0; 4; 0; 4]%nat)
    by (repeat constructor).
  pose proof (status_code_is_decimal_value GET sample_request curl_easy_init
                (deliver CURLE_OK ("HTTP/1.1 0404 Not Found" +:+ CRLF +:+ CRLF) "")
                libcurl_start "HTTP/1.1" "Not Found" (String CR (String LF ""))
                [0; 4; 0; 4]%nat eq_refl eq_refl Hb eq_refl eq_refl eq_refl
                ltac:(discriminate) Hds Hs) as H.
  exact H.
Defined.

(** X13.  A status line without a reason phrase, [version code\r\n]:
    the digits still give the status code (the carriage return behind
    them ends the number), and the message is the code text with its
    carriage return, since there is no second space to cut at. *)
Theorem status_code_without_reason (v : verb) (r : Request.t) (h : CURL)
    (tr : transfer) (e : libcurl) (version rest : string) (ds : list nat) :
  Request.curl r = Some h ->
  result tr = CURLE_OK ->
  header_block tr
  = (version +:+ String SP (decimal_text ds +:+ String CR "")) +:+ String LF rest ->
  occurs SP version = false -> occurs LF version = false ->
  ds <> [] -> Forall (fun d => (d < 10)%nat) ds ->
  decimal_value ds <= INT_MAX ->
  Str.size (header_block tr) < 2 ^ 31 ->
  exists resp,
    snd (snd (dispatch v r tr e)) = Returned resp /\
    Response.code resp = decimal_value ds /\
    Response.message resp = decimal_text ds +:+ String CR "".
Proof.
  intros Hc Hok Hb Hv1 Hv2 Hne Hds Hmax Hs.
  assert (Hd1 : occurs SP (decimal_text ds +:+ String CR "") = false).
  { rewrite occurs_append, (decimal_text_plain ds SP Hds eq_refl). reflexivity. }
  assert (Hd2 : occurs LF (decimal_text ds) = false) by now apply decimal_text_plain.
  rewrite (status_line_outcome v r h tr e _ rest (decimal_text ds +:+ String CR "")
             (decimal_text ds +:+ String CR "") Hc Hok Hb).
  - rewrite (stoi_decimal ds (String CR "") Hne Hds eq_refl).
    destruct (Z.leb_spec (decimal_value ds) INT_MAX) as [_|Hgt]; [|lia].
    cbn [bind]. eexists. repeat split.
  - rewrite occurs_append. cbn [occurs]. rewrite occurs_append. cbn [occurs].
    rewrite Hv2, Hd2. reflexivity.
  - exact Hs.
  - unfold after_space. rewrite (read_until_found SP version _ Hv1).
    unfold before_space. now rewrite (read_until_absent SP _ Hd1).
  - unfold after_space at 2. rewrite (read_until_found SP version _ Hv1).
    unfold after_space. now rewrite (read_until_absent SP _ Hd1).
Qed.

Lemma status_code_without_reason_witness :
  exists resp,
    snd (snd (dispatch GET sample_request
                (deliver CURLE_OK ("HTTP/2 204" +:+ CRLF +:+ CRLF) "")
                libcurl_start)) = Returned resp /\
    Response.code resp = 204 /\
    Response.message resp = "204" +:+ String CR "".
Proof.
  assert (Hb : header_block (deliver CURLE_OK ("HTTP/2 204" +:+ CRLF +:+ CRLF) "")
               = ("HTTP/2" +:+ String SP (decimal_text [2; 0; 4]%nat +:+ String CR ""))
                 +:+ String LF (String CR (String LF "")))
    by (vm_compute; reflexivity).
  assert (Hs : Str.size (header_block (deliver CURLE_OK ("HTTP/2 204" +:+ CRLF +:+ CRLF) ""))
               < 2 ^ 31)
    by (vm_compute; reflexivity).
  assert (Hds : Forall (fun d => (d < 10)%nat) [2; 0; 4]%nat)
    by (repeat constructor).
  assert (Hmax : decimal_value [2; 0; 4]%nat <= INT_MAX) by (vm_compute; discriminate).
  pose proof (status_code_without_reason GET sample_request curl_easy_init
                (deliver CURLE_OK ("HTTP/2 204" +:+ CRLF +:+ CRLF) "")
                libcurl_start "HTTP/2" (String CR (String LF ""))
                [2; 0; 4]%nat eq_refl eq_refl Hb eq_refl eq_refl
                ltac:(discriminate) Hds Hmax Hs) as H.
  exact H.
Defined.

(** ** Every operation of the facade *)

(** A dispatch on a Request whose [initalize] got no session: the
    header list is built all the same, nothing is performed, and the
    Response carries the engine's answer to a call on the null handle
    and nothing else. *)
Lemma dispatch_without_session (v : verb) (r : Request.t) (tr : transfer) (e : libcurl) :
  Request.curl r = None ->
  Request.curl_assigned r = true ->
  dispatch v r tr e
  = (Request.mk (Request.url r) (Request.data r) (Request.headers r) (Request.cookies r)
       (Some (next_slist e)) None true,
     (prepared_engine r e, Returned (Response.only CURLE_BAD_FUNCTION_ARGUMENT))).
Proof.
  intros Hc Ha.
  destruct v as [| |m]; unfold dispatch, Request.get, Request.post, Request.request;
    rewrite prepare_eq, Hc, Ha; reflexivity.
Qed.

Lemma facade_body {A : Type} {I : EasyInit} (url : string) (tr : transfer) (e : libcurl)
    (k : Response.t -> outcome A) :
  (let '(req, (e', res)) := Request.get (facade_request url) tr e in
   (Request.destroy req e', let* res := res in k res))
  = (facade_engine url e, let* res := facade_response tr in k res).
Proof.
  change (Request.get (facade_request url) tr e)
    with (dispatch GET (facade_request url) tr e).
  destruct I as [[|]].
  - set (I1 := {| handle_available := true |}).
    assert (Hc : Request.curl (facade_request (I := I1) url) = Some curl_easy_init)
      by reflexivity.
    rewrite (dispatch_verb_eq GET (facade_request (I := I1) url) curl_easy_init tr e Hc).
    unfold Request.destroy, curl_slist_free_all, facade_engine, facade_response.
    cbn [Request.curl_headers slists next_slist performed invalid_frees
         prepared_engine handle_available I1].
    rewrite lookup_insert_eq. reflexivity.
  - set (I0 := {| handle_available := false |}).
    assert (Hc : Request.curl (facade_request (I := I0) url) = None) by reflexivity.
    assert (Ha : Request.curl_assigned (facade_request (I := I0) url) = true)
      by reflexivity.
    rewrite (dispatch_without_session GET (facade_request (I := I0) url) tr e Hc Ha).
    unfold Request.destroy, curl_slist_free_all, facade_engine, facade_response.
    cbn [Request.curl_headers slists next_slist performed invalid_frees
         prepared_engine handle_available I0].
    rewrite lookup_insert_eq. reflexivity.
Qed.

Lemma lift_bind {A B C : Type} (f : B -> C) (m : outcome A) (k : A -> outcome B) :
  lift f (bind m k) = bind m (fun a => lift f (k a)).
Proof. destruct m; reflexivity. Qed.

Ltac facade_step url :=
  change (fst (Request.initalize
                 (Request.set_header "Referer" "https://www.roblox.com/" (Request.new url))))
    with (facade_request url);
  rewrite (facade_body url); cbn [fst snd]; rewrite lift_bind; reflexivity.

(** Each operation is one call of the adapter followed by the decoding
    of the body, whatever [curl_easy_init] answered. *)
Lemma run_operation_any {J : JsonLibrary} {T : JsonStrings J} {I : EasyInit}
    (UID : RoPP.User.UID_t) (op : operation) (tr : transfer) (e : libcurl) :
  run_operation UID op tr e
  = (facade_engine (operation_url UID op) e,
     let* res := facade_response tr in decode_operation op (Response.data res)).
Proof.
  destruct op as [Sort|Sort Limit|Sort Limit| | | | | | | | |];
    cbn [run_operation operation_url decode_operation];
    unfold RoPP.User.GetFriends, RoPP.User.GetFollowers, RoPP.User.GetFollowings,
      RoPP.User.GetFriendsCount, RoPP.User.GetFollowersCount,
      RoPP.User.GetFollowingsCount, RoPP.User.GetFriendsOnline, RoPP.User.GetUsername,
      RoPP.User.GetDisplayName, RoPP.User.GetDescription, RoPP.User.GetGroups,
      RoPP.User.GetGroupsCount, decode_count;
    rewrite ?append_assoc;
    match goal with
    | |- context [Request.new ?url] => facade_step url
    end.
Qed.

(** The same when the engine has a handle to give. *)
Lemma run_operation_eq {J : JsonLibrary} {T : JsonStrings J} (UID : RoPP.User.UID_t)
    (op : operation) (tr : transfer) (e : libcurl) :
  run_operation UID op tr e
  = (facade_engine (operation_url UID op) e,
     let* res := received_response tr in decode_operation op (Response.data res)).
Proof. rewrite run_operation_any. reflexivity. Qed.

Lemma nul_free_uint (d : Decimal.uint) : nul_free (NilEmpty.string_of_uint d) = true.
Proof. induction d; cbn [NilEmpty.string_of_uint nul_free]; auto. Qed.

Lemma nul_free_to_string (n : N) : nul_free (to_string n) = true.
Proof.
  unfold to_string, NilZero.string_of_uint.
  destruct (N.to_uint n) eqn:E; try reflexivity;
    rewrite <- E; pose proof (nul_free_uint (N.to_uint n)) as H; rewrite E in *; exact H.
Qed.

Lemma nul_free_to_string_int (i : Z) : nul_free (to_string_int i) = true.
Proof.
  unfold to_string_int. destruct (i <? 0); [cbn [nul_free]|]; apply nul_free_to_string.
Qed.

Lemma nul_free_operation_url (UID : RoPP.User.UID_t) (op : operation) :
  nul_free (operation_sort op) = true -> nul_free (operation_url UID op) = true.
Proof.
  intros Hs.
  destruct op; cbn [operation_url operation_sort] in *;
    rewrite ?nul_free_append, ?nul_free_to_string, ?nul_free_to_string_int, ?Hs;
    reflexivity.
Qed.

(** X14.  When [curl_easy_init] gives a session, every operation of the
    facade performs exactly one exchange: a [get] of the operation's
    URL, with an empty body and with the header lines
    ["Referer: https://www.roblox.com/"] and ["Cookie: "] and no other.
    The URL is handed over as a C string, so it is the full URL whenever
    the caller's sort text has no NUL byte.  When [curl_easy_init] gives
    none, [initalize] returns 0, which no operation looks at: nothing is
    performed and the operation decodes the empty text.  In both cases
    the header list the operation built is freed when it is over,
    whether it returned or threw (the Request is a local object,
    destroyed when a caught exception unwinds): the engine holds the
    lists it held before, and no free of a list that is not live was
    made. *)
Theorem facade_operation_exchange {J : JsonLibrary} {T : JsonStrings J} {I : EasyInit}
    (UID : RoPP.User.UID_t) (op : operation) (tr : transfer) (e : libcurl) :
  fresh_lists e ->
  let e' := fst (run_operation UID op tr e) in
  slists e' = slists e /\
  invalid_frees e' = invalid_frees e /\
  if handle_available then
    exists x,
      performed e' = performed e ++ [x] /\
      sent_headers x = ["Referer: https://www.roblox.com/"; "Cookie: "] /\
      CURLOPT_URL (sent_options x) = c_str (operation_url UID op) /\
      (nul_free (operation_sort op) = true ->
       CURLOPT_URL (sent_options x) = operation_url UID op) /\
      CURLOPT_HTTPGET (sent_options x) = true /\
      CURLOPT_POST (sent_options x) = false /\
      CURLOPT_CUSTOMREQUEST (sent_options x) = None /\
      CURLOPT_POSTFIELDS (sent_options x) = "" /\
      CURLOPT_POSTFIELDSIZE (sent_options x) = 0
  else
    performed e' = performed e /\
    snd (run_operation UID op tr e) = decode_operation op "".
Proof.
  intros Hfresh. cbv zeta. rewrite run_operation_any. cbn [fst snd].
  unfold facade_engine, facade_response. cbn [slists performed invalid_frees].
  split; [|split; [reflexivity|]].
  - apply delete_insert_id.
    destruct (slists e !! next_slist e) eqn:E; [|reflexivity].
    assert (H : (next_slist e < next_slist e)%nat) by (apply Hfresh; eauto). lia.
  - destruct handle_available.
    + eexists. split; [reflexivity|].
      unfold facade_exchange. cbn [sent_headers sent_options].
      repeat split.
      intros Hs. cbn. apply c_str_nul_free. now apply nul_free_operation_url.
    + split; reflexivity.
Qed.

Lemma facade_operation_exchange_witness :
  (let e' :=
     fst (run_operation (J := count_only_json) (T := count_only_strings) 7%N
            (OpFollowers "Asc" 10)
            (deliver CURLE_OK ("HTTP/1.1 200 OK" +:+ CRLF +:+ CRLF) "{}") libcurl_start) in
   slists e' = slists libcurl_start /\
   invalid_frees e' = [] /\
   map (fun x => CURLOPT_URL (sent_options x)) (performed e')
   = ["https://friends.roblox.com/v1/users/7/followers?sortOrder=Asc&limit=10"]) /\
  (let e' :=
     fst (run_operation (J := count_only_json) (T := count_only_strings)
            (I := {| handle_available := false |}) 7%N
            (OpFollowers "Asc" 10)
            (deliver CURLE_OK ("HTTP/1.1 200 OK" +:+ CRLF +:+ CRLF) "{}") libcurl_start) in
   slists e' = slists libcurl_start /\
   invalid_frees e' = [] /\
   performed e' = []).
Proof.
  assert (Hfresh : fresh_lists libcurl_start).
  { intros p [x Hx]. cbn [slists libcurl_start] in Hx.
    rewrite lookup_empty in Hx. discriminate. }
  split.
  - pose proof (facade_operation_exchange (J := count_only_json) (T := count_only_strings)
                  (I := handle_granted) 7%N (OpFollowers "Asc" 10)
                  (deliver CURLE_OK ("HTTP/1.1 200 OK" +:+ CRLF +:+ CRLF) "{}")
                  libcurl_start Hfresh) as H.
    cbv zeta in H. cbn [handle_available handle_granted] in H.
    destruct H as (Hs & Hf & x & Hp & _ & _ & Hu & _).
    intros e'. subst e'. split; [exact Hs|]. split; [exact Hf|].
    rewrite Hp. cbn [performed libcurl_start app map]. rewrite (Hu eq_refl).
    vm_compute. reflexivity.
  - pose proof (facade_operation_exchange (J := count_only_json) (T := count_only_strings)
                  (I := {| handle_available := false |}) 7%N (OpFollowers "Asc" 10)
                  (deliver CURLE_OK ("HTTP/1.1 200 OK" +:+ CRLF +:+ CRLF) "{}")
                  libcurl_start Hfresh) as H.
    cbv zeta in H. cbn [handle_available] in H.
    destruct H as (Hs & Hf & Hp & _).
    intros e'. subst e'. split; [exact Hs|]. split; [exact Hf|]. exact Hp.
Defined.

(** X15.  What an operation returns or throws is decided by the body
    text alone, once the dispatch has returned a Response: it is the
    decoding of the body of a completed transfer, whatever its status
    code and headers, and the decoding of the empty text when the
    transfer failed.  The engine's code and the HTTP status are never
    looked at. *)
Theorem facade_outcome_from_body_only {J : JsonLibrary} {T : JsonStrings J}
    (UID : RoPP.User.UID_t) (op : operation) (tr : transfer) (e : libcurl)
    (resp : Response.t) :
  received_response tr = Returned resp ->
  snd (run_operation UID op tr e)
  = decode_operation op (if result tr =? CURLE_OK then body_text tr else "").
Proof.
  intros Hret. rewrite run_operation_eq. cbn [snd]. rewrite Hret. cbn [bind].
  now rewrite (received_data tr resp Hret).
Qed.

Lemma facade_outcome_from_body_only_witness :
  snd (run_operation (J := count_only_json) (T := count_only_strings) 1%N OpFriendsCount
         (deliver CURLE_OK ("HTTP/1.1 404 Not Found" +:+ CRLF +:+ CRLF)
            ("{" +:+ quoted "count" +:+ ":42}"))
         libcurl_start)
  = Returned (IntValue 42).
Proof.
  assert (H : exists resp,
             received_response
               (deliver CURLE_OK ("HTTP/1.1 404 Not Found" +:+ CRLF +:+ CRLF)
                  ("{" +:+ quoted "count" +:+ ":42}")) = Returned resp)
    by (eexists; vm_compute; reflexivity).
  destruct H as [resp Hret].
  rewrite (facade_outcome_from_body_only (J := count_only_json) (T := count_only_strings)
             1%N OpFriendsCount _ libcurl_start resp Hret).
  vm_compute. reflexivity.
Defined.

(** X16.  An operation throws before it decodes anything when the
    status line of a completed transfer cannot be read: what
    [std::stoi] throws on the status token comes out of every operation
    of the facade, whatever the body. *)
Theorem facade_throws_on_unreadable_status {J : JsonLibrary} {T : JsonStrings J}
    (UID : RoPP.User.UID_t) (op : operation) (tr : transfer) (e : libcurl)
    (x : exception) :
  result tr = CURLE_OK ->
  Str.size (first_line (header_block tr)) < 2 ^ 31 ->
  stoi (status_token (header_block tr)) = Thrown x ->
  snd (run_operation UID op tr e) = Thrown x.
Proof.
  intros Hok Hs Hx. rewrite run_operation_eq. cbn [snd].
  rewrite (received_ok tr Hok Hs), Hx. reflexivity.
Qed.

Lemma facade_throws_on_unreadable_status_witness :
  snd (run_operation (J := count_only_json) (T := count_only_strings) 1%N OpUsername
         (deliver CURLE_OK ("HTTP/1.1 OK" +:+ CRLF +:+ CRLF) "{}") libcurl_start)
  = Thrown std_invalid_argument.
Proof.
  apply (facade_throws_on_unreadable_status (J := count_only_json)
           (T := count_only_strings) 1%N OpUsername
           (deliver CURLE_OK ("HTTP/1.1 OK" +:+ CRLF +:+ CRLF) "{}") libcurl_start
           std_invalid_argument eq_refl);
    vm_compute; reflexivity.
Defined.

(** ** The cookie header read back *)

Lemma cookie_text_value (cs : cookies_t) :
  cookie_text cs = "Cookie: " +:+ cookie_value cs EndNothing.
Proof.
  unfold cookie_text, cookie_value. f_equal.
  induction cs as [|[k v] cs IH]; cbn [map fold_right fst snd end_text]; [reflexivity|].
  rewrite IH. rewrite !append_assoc. cbn [String.append]. reflexivity.
Qed.

Lemma assign_above (k v : string) (m : headers_t) :
  Forall (fun kv => String.compare (fst kv) k = Lt) m ->
  StdMap.assign k v m = m ++ [(k, v)].
Proof.
  induction m as [|[k1 v1] m IH]; intros H; [reflexivity|].
  inversion H as [|x l Hx Hl]; subst. cbn [fst] in Hx.
  cbn [StdMap.assign app]. rewrite String.compare_antisym, Hx. cbn [CompOpp].
  now rewrite IH.
Qed.

Lemma ordered_app_below (m : headers_t) (k v : string) (cs : headers_t) :
  StdMap.ordered (m ++ (k, v) :: cs) = true ->
  Forall (fun kv => String.compare (fst kv) k = Lt) m.
Proof.
  induction m as [|[k1 v1] m IH]; intros H; [constructor|].
  cbn [app] in H. constructor.
  - pose proof (ordered_all_above _ _ _ H) as Hall.
    rewrite List.Forall_forall in Hall.
    apply (Hall (k, v)). apply in_or_app. right. now left.
  - apply IH. exact (ordered_tail _ _ _ H).
Qed.

Lemma record_all_ordered (cs m : cookies_t) :
  StdMap.ordered (m ++ cs) = true -> record_all cs m = m ++ cs.
Proof.
  revert m. induction cs as [|[k v] cs IH]; intros m H.
  - now rewrite app_nil_r.
  - unfold record_all in *. cbn [fold_left fst snd].
    rewrite (assign_above k v m (ordered_app_below m k v cs H)).
    rewrite IH; rewrite <- app_assoc; [reflexivity|exact H].
Qed.

(** X17.  The cookie header a Request sends is one the adapter reads
    back.  When the cookies of a Request have keys free of ['='] and
    values free of [';'] and of carriage returns, the text
    [prepareHeaders] builds for them, received as the value of a
    [Set-Cookie] line, makes the parsing loop record exactly these
    cookies; a Response whose only [Set-Cookie] line carries that text
    has the cookies of the Request. *)
Theorem cookie_header_read_back (r : Request.t) :
  StdMap.ordered (Request.get_cookies r) = true ->
  forallb pair_ok (Request.get_cookies r) = true ->
  occurs CR (cookie_text (Request.get_cookies r)) = false ->
  (forall (e : libcurl),
     exists sent,
       slists (snd (Request.prepareHeaders r e)) !! next_slist e
       = Some (sent ++ [c_str (cookie_text (Request.get_cookies r))])) /\
  (forall (tail : string) (hs : headers_t),
     option_map snd
       (Request.header_body
          ("Set-" +:+ cookie_text (Request.get_cookies r) +:+ String CR tail) (hs, []))
     = Some (Request.get_cookies r)) /\
  (forall (tr : transfer) (resp : Response.t) (before after : list string),
     result tr = CURLE_OK ->
     received_response tr = Returned resp ->
     lines (header_block tr)
     = before ++ ("Set-" +:+ cookie_text (Request.get_cookies r) +:+ String CR "") :: after ->
     (forall l, In l (before ++ after) -> fst (line_entry l) <> "set-cookie") ->
     Response.cookies resp = Request.get_cookies r).
Proof.
  unfold Request.get_cookies. intros Hord Hps Hcr.
  set (cs := Request.cookies r) in *.
  assert (Hcr' : occurs CR (cookie_value cs EndNothing) = false).
  { rewrite cookie_text_value in Hcr. exact Hcr. }
  assert (Hline : forall tail hs cs0,
            Request.header_body ("Set-" +:+ cookie_text cs +:+ String CR tail) (hs, cs0)
            = Some (StdMap.assign "set-cookie" (cookie_value cs EndNothing) hs,
                    record_all cs cs0)).
  { intros tail hs cs0. rewrite cookie_text_value.
    pose proof (set_cookie_line cs EndNothing tail hs cs0 Hps eq_refl Hcr') as H.
    cbn [end_pairs] in H. rewrite app_nil_r in H.
    rewrite <- H. f_equal. }
  split; [|split].
  - intros e. rewrite prepareHeaders_eq. cbv zeta. cbn [snd slists].
    rewrite lookup_insert_eq. unfold header_lines. eexists. reflexivity.
  - intros tail hs. rewrite Hline. cbn [option_map snd].
    f_equal. apply (record_all_ordered cs []). exact Hord.
  - intros tr resp before after Hok Hret Hlines Hother.
    rewrite (proj2 (received_cookies tr resp Hok Hret)), Hlines, fold_left_app.
    cbn [fold_left].
    pose proof (fold_header_step_cookies_kept before [] []
                  (fun l Hin => Hother l (in_or_app _ _ _ (or_introl Hin)))) as Hb.
    set (acc := fold_left header_step before _) in *.
    destruct acc as [hs0 cs0]. cbn [snd] in Hb. subst cs0.
    unfold header_step at 2. rewrite Hline.
    rewrite fold_header_step_cookies_kept.
    + apply (record_all_ordered cs []). exact Hord.
    + intros l Hin. apply Hother. apply in_or_app. now right.
Qed.

Lemma cookie_header_read_back_witness :
  option_map snd
    (Request.header_body
       ("Set-" +:+ cookie_text
          (Request.get_cookies
             (Request.set_cookie "id" "7" (Request.set_cookie "theme" "dark" sample_request)))
        +:+ String CR "")
       ([], []))
  = Some (Request.get_cookies
            (Request.set_cookie "id" "7" (Request.set_cookie "theme" "dark" sample_request))).
Proof.
  assert (H1 : StdMap.ordered
                 (Request.get_cookies
                    (Request.set_cookie "id" "7"
                       (Request.set_cookie "theme" "dark" sample_request))) = true)
    by (vm_compute; reflexivity).
  assert (H2 : forallb pair_ok
                 (Request.get_cookies
                    (Request.set_cookie "id" "7"
                       (Request.set_cookie "theme" "dark" sample_request))) = true)
    by (vm_compute; reflexivity).
  assert (H3 : occurs CR
                 (cookie_text
                    (Request.get_cookies
                       (Request.set_cookie "id" "7"
                          (Request.set_cookie "theme" "dark" sample_request)))) = false)
    by (vm_compute; reflexivity).
  pose proof (cookie_header_read_back _ H1 H2 H3) as H.
  destruct H as [_ [H _]]. exact (H "" []).
Defined.

(** ** A bound on the group count *)

Lemma prefix_length (w s : string) :
  String.prefix w s = true -> (String.length w <= String.length s)%nat.
Proof.
  intros H. destruct (prefix_split w s H) as [s2 ->]. rewrite length_append. lia.
Qed.

Lemma occurrences_from_bound (w : string) (k : nat) (s : string) :
  (String.length w * occurrences_from w k s <= String.length s - k)%nat.
Proof.
  revert k. induction s as [|c s IH]; intros k; cbn [occurrences_from String.length].
  - lia.
  - destruct k as [|k].
    + destruct (String.prefix w (String c s)) eqn:Hp.
      * pose proof (prefix_length _ _ Hp) as Hl. cbn [String.length] in Hl.
        pose proof (IH (String.length w - 1)%nat) as H. nia.
      * pose proof (IH 0%nat) as H. lia.
    + pose proof (IH k) as H. lia.
Qed.

Lemma GetGroupsCount_value (UID : RoPP.User.UID_t) (tr : transfer) (e : libcurl)
    (resp : Response.t) :
  Str.size (Response.data resp) < 2 ^ 31 ->
  received_response tr = Returned resp ->
  snd (RoPP.User.GetGroupsCount UID tr e)
  = Returned (Z.of_nat (occurrences "group" (Response.data resp))).
Proof.
  intros Hs Hret. rewrite GetGroupsCount_eq, Hret. cbn [bind].
  pose proof (count_loop_occurrences "group" ltac:(discriminate)
                (String.length (Response.data resp)) "" (Response.data resp)
                (S (String.length (Response.data resp))) 0) as H.
  cbn [String.append] in H. change (Str.size "") with 0 in H.
  rewrite H; [reflexivity|lia|lia|exact Hs|lia|unfold INT_MAX; lia].
Qed.

(** X18.  The count [GetGroupsCount] returns is never negative and
    never more than a fifth of the length of the body text: every
    occurrence it counts takes five bytes of the body that no other
    counted occurrence shares.  A body shorter than five bytes gives
    the count 0.  (Bodies are shorter than [2^31] bytes.) *)
Theorem GetGroupsCount_bounded (UID : RoPP.User.UID_t) (tr : transfer) (e : libcurl)
    (resp : Response.t) :
  Str.size (Response.data resp) < 2 ^ 31 ->
  received_response tr = Returned resp ->
  exists n : Z,
    snd (RoPP.User.GetGroupsCount UID tr e) = Returned n /\
    0 <= n /\
    5 * n <= Str.size (Response.data resp) /\
    (Str.size (Response.data resp) < 5 -> n = 0).
Proof.
  intros Hs Hret. eexists. split; [apply (GetGroupsCount_value UID tr e resp Hs Hret)|].
  pose proof (occurrences_from_bound "group" 0 (Response.data resp)) as H.
  change (String.length "group") with 5%nat in H.
  unfold occurrences, Str.size in *. lia.
Qed.

Lemma GetGroupsCount_bounded_witness :
  exists n : Z,
    snd (RoPP.User.GetGroupsCount 1%N
           (deliver CURLE_OK ("HTTP/1.1 200 OK" +:+ CRLF +:+ CRLF) "groupgroupgr")
           libcurl_start) = Returned n /\
    0 <= n /\ 5 * n <= 12.
Proof.
  assert (H : exists resp,
             received_response
               (deliver CURLE_OK ("HTTP/1.1 200 OK" +:+ CRLF +:+ CRLF) "groupgroupgr")
             = Returned resp /\ Str.size (Response.data resp) = 12)
    by (eexists; vm_compute; split; reflexivity).
  destruct H as (resp & Hret & Hsz).
  assert (Hs : Str.size (Response.data resp) < 2 ^ 31) by (rewrite Hsz; reflexivity).
  destruct (GetGroupsCount_bounded 1%N _ libcurl_start resp Hs Hret)
    as (n & Hn & H0 & H5 & _).
  exists n. rewrite Hsz in H5. auto.
Defined.
